(** * Task Sync API: the sync queue and the sync engine

    A shallow embedding of [internal/models], [internal/config],
    [internal/services] (the sync service and the task service) and of the
    sync handler, with the properties of the durable queue established on
    it.

    Conventions of the embedding.
    - An instant ([time.Time]) is its [UnixNano] value, a [Z]; the zero of
      the scale is [time.Unix(0, 0)].
    - A Go [int] is a [Z]; [RetryCount++] wraps around at 64 bits.
    - A table is the list of its rows in rowid order (the order of the
      INSERTs).  [UPDATE ... WHERE] is a [map], [DELETE ... WHERE] a
      [filter].
    - A [DATETIME] column holds the text the driver wrote for the instant
      (local time with its zone offset).  [ORDER BY] and [MAX] on such a
      column compare these texts byte by byte; [ORDER BY created_at ASC]
      is a stable sort on them.
    - A Go function returning [(T, error)] returns a [result T] together
      with the world it leaves behind.
    - What the code obtains from outside the repository is an environment
      [Env]: the JSON codec, the wall clock, the UUID source, and the
      failures of the database driver (every statement may fail). *)

From Stdlib Require Import ZArith List Ascii String Bool Lia Arith.
From Stdlib Require Import DecimalString Sorted Permutation.
Import ListNotations.
Local Open Scope Z_scope.
Local Open Scope string_scope.

(** ** Errors and results *)

Definition error := string.

Inductive result (A : Type) : Type :=
| Ok (a : A)
| Err (e : error).
Arguments Ok {A} a.
Arguments Err {A} e.

(** [fmt.Errorf("<msg>: %w", err)] *)
Definition wrap_error (msg : string) (e : error) : error := msg ++ ": " ++ e.

Definition time := Z.

(** ** Go's 64-bit [int] *)

Definition min_int : Z := - 2 ^ 63.
Definition max_int : Z := 2 ^ 63 - 1.

Definition wrap_int (z : Z) : Z := (z + 2 ^ 63) mod 2 ^ 64 - 2 ^ 63.

(** [%d] *)
Definition fmt_int (z : Z) : string := NilZero.string_of_int (Z.to_int z).

(** ** package models *)

Inductive OperationType : Type :=
| OperationTypeCreate
| OperationTypeUpdate
| OperationTypeDelete.

Definition OperationType_string (o : OperationType) : string :=
  match o with
  | OperationTypeCreate => "create"
  | OperationTypeUpdate => "update"
  | OperationTypeDelete => "delete"
  end.

Inductive SyncStatus : Type :=
| SyncStatusPending
| SyncStatusSynced
| SyncStatusError.

Definition SyncStatus_eqb (a b : SyncStatus) : bool :=
  match a, b with
  | SyncStatusPending, SyncStatusPending => true
  | SyncStatusSynced, SyncStatusSynced => true
  | SyncStatusError, SyncStatusError => true
  | _, _ => false
  end.

Module Task.
Record t : Type := mk {
  ID : string;
  Title : string;
  Description : option string;
  Completed : bool;
  IsDeleted : bool;
  Status : SyncStatus;          (* field SyncStatus *)
  ServerID : option string;
  LastSyncedAt : option time;
  CreatedAt : time;
  UpdatedAt : time
}.
End Task.

Record CreateTaskRequest : Type := {
  cr_Title : string;
  cr_Description : option string
}.

Record UpdateTaskRequest : Type := {
  ur_Title : option string;
  ur_Description : option string;
  ur_Completed : option bool
}.

Module SyncQueueItem.
Record t : Type := mk {
  ID : Z;
  TaskID : string;
  Operation : OperationType;    (* field OperationType *)
  TaskData : string;
  RetryCount : Z;
  CreatedAt : time;
  LastAttempt : option time;
  ErrorMessage : option string
}.
End SyncQueueItem.

(** ** package config *)

Record Config : Type := {
  SyncBatchSize : Z;
  MaxRetries : Z
}.

(** ** package services, package handlers: the values they return *)

Module services.
Record SyncStatus : Type := mk {
  PendingCount : Z;
  ErrorCount : Z;
  LastSync : time;
  InProgress : bool
}.
End services.

(** [c.JSON(code, gin.H{key: value})] *)
Record Response : Type := mkResponse {
  resp_code : Z;
  resp_key : string;
  resp_value : string
}.

Definition StatusOK : Z := 200.
Definition StatusInternalServerError : Z := 500.

(** ** The store and the world around it *)

(** The two tables and the AUTOINCREMENT counter of [sync_queue]
    (SQLite keeps it in the table [sqlite_sequence], so a rollback restores
    it with the rest). *)
Record DB : Type := mkDB {
  tasks : list Task.t;
  sync_queue : list SyncQueueItem.t;
  sqlite_sequence : Z
}.

(** One call of [syncToServer]: what the remote authority was handed and
    what it answered. *)
Record Delivery : Type := mkDelivery {
  d_op : OperationType;
  d_task : Task.t;
  d_success : bool
}.

(** The state the program runs in: the committed store, how many times the
    clock, the driver and the UUID source have been consulted, the lines
    written by [log.Printf], and the calls made to the remote authority. *)
Record World : Type := mkWorld {
  db : DB;
  ticks : nat;
  ops : nat;
  uuid_count : nat;
  log : list string;
  remote : list Delivery
}.

(** What lies outside the repository.
    - [json_Marshal], [json_Unmarshal]: encoding/json on [models.Task].
    - [clock k]: the instant the k-th call of [time.Now] returns.
    - [faults k]: the error of the k-th database call ([Begin], [Query],
      [QueryRow], [Exec], [Commit]), [None] when it succeeds.  Constraint
      violations of the schema other than the primary key of [tasks] are
      failures of this kind.
    - [scan_errors id]: the error [rows.Scan] reports on the [sync_queue]
      row [id] (a column whose text does not convert), [None] when the row
      scans.
    - [uuids k]: the k-th identifier [uuid.New] produces.
    - [db_time_text t]: the text the driver writes into a [DATETIME]
      column for the instant [t] read from the clock of this process (its
      local time and zone offset), which is also the text a query returns
      for an expression such as [MAX(last_synced_at)].
    - [time_Parse]: [time.Parse] with the layout
      ["2006-01-02 15:04:05"]. *)
Record Env : Type := mkEnv {
  json_Marshal : Task.t -> result string;
  json_Unmarshal : string -> result Task.t;
  clock : nat -> time;
  faults : nat -> option error;
  scan_errors : Z -> option error;
  uuids : nat -> string;
  db_time_text : time -> string;
  time_Parse : string -> result time
}.

Definition set_db (d : DB) (w : World) : World :=
  mkWorld d (ticks w) (ops w) (uuid_count w) (log w) (remote w).

(** [log.Printf] *)
Definition log_Printf (line : string) (w : World) : World :=
  mkWorld (db w) (ticks w) (ops w) (uuid_count w) (log w ++ [line]) (remote w).

Definition record_delivery (d : Delivery) (w : World) : World :=
  mkWorld (db w) (ticks w) (ops w) (uuid_count w) (log w) (remote w ++ [d]).

(** ** The text of an instant

    go-sqlite3 binds a [time.Time] argument as text, formatted with the
    layout [2006-01-02 15:04:05.999999999-07:00]: the local date and time
    of the instant, its fraction of a second without trailing zeros, and
    the zone offset.  The [DATETIME] columns of the schema hold this text,
    and SQLite compares it as text.  [sqlite_time_text offset] is this
    rendering in a zone that is [offset t] seconds east of UTC at the
    instant [t], for the years 0 to 9999. *)

Definition digit_char (n : Z) : ascii :=
  ascii_of_nat (48 + Z.to_nat (n mod 10)).

(** [n] in decimal on [width] digits, in front of [acc]. *)
Fixpoint pad_digits (width : nat) (n : Z) (acc : string) : string :=
  match width with
  | O => acc
  | S k => pad_digits k (n / 10) (String (digit_char n) acc)
  end.

Fixpoint trim_zeros (s : string) : string :=
  match s with
  | EmptyString => EmptyString
  | String c r =>
      match trim_zeros r with
      | EmptyString =>
          if Ascii.eqb c "0" then EmptyString else String c EmptyString
      | r' => String c r'
      end
  end.

(** Year, month and day of the day numbered [days] from 1970-01-01, in the
    proleptic Gregorian calendar. *)
Definition civil_from_days (days : Z) : Z * Z * Z :=
  let z := days + 719468 in
  let era := z / 146097 in
  let doe := z mod 146097 in
  let yoe := (doe - doe / 1460 + doe / 36524 - doe / 146096) / 365 in
  let doy := doe - (365 * yoe + yoe / 4 - yoe / 100) in
  let mp := (5 * doy + 2) / 153 in
  let d := doy - (153 * mp + 2) / 5 + 1 in
  let m := if (mp <? 10)%Z then mp + 3 else mp - 9 in
  (yoe + era * 400 + (if (m <=? 2)%Z then 1 else 0), m, d).

Definition days_from_civil (y m d : Z) : Z :=
  let y' := if (m <=? 2)%Z then y - 1 else y in
  let era := y' / 400 in
  let yoe := y' mod 400 in
  let doy := (153 * (if (2 <? m)%Z then m - 3 else m + 9) + 2) / 5 + d - 1 in
  let doe := yoe * 365 + yoe / 4 - yoe / 100 + doy in
  era * 146097 + doe - 719468.

Definition sqlite_time_text (offset : time -> Z) (t : time) : string :=
  let off := offset t in
  let local := t + off * 1000000000 in
  let secs := local / 1000000000 in
  let '(y, m, d) := civil_from_days (secs / 86400) in
  let sod := secs mod 86400 in
  let frac := trim_zeros (pad_digits 9 (local mod 1000000000) "") in
  pad_digits 4 y "-" ++ pad_digits 2 m "-" ++ pad_digits 2 d " " ++
  pad_digits 2 (sod / 3600) ":" ++ pad_digits 2 (sod / 60 mod 60) ":" ++
  pad_digits 2 (sod mod 60) "" ++
  match frac with EmptyString => "" | _ => "." ++ frac end ++
  (if (off <? 0)%Z then "-" else "+") ++
  pad_digits 2 (Z.abs off / 3600) ":" ++
  pad_digits 2 (Z.abs off / 60 mod 60) "".

(** [time.Parse] with the layout [2006-01-02 15:04:05]: the fields of the
    layout, then possibly a fraction of a second (the parser accepts one
    after the seconds although the layout has none), and nothing else:
    text that remains, a zone offset for one, is an error.  The instant is
    read in UTC. *)
Definition digit_value (c : ascii) : option Z :=
  let n := Z.of_nat (nat_of_ascii c) in
  if ((48 <=? n) && (n <=? 57))%Z then Some (n - 48) else None.

Fixpoint take_number (width : nat) (acc : Z) (s : string)
    : option (Z * string) :=
  match width with
  | O => Some (acc, s)
  | S k =>
      match s with
      | String c r =>
          match digit_value c with
          | Some d => take_number k (10 * acc + d) r
          | None => None
          end
      | EmptyString => None
      end
  end.

Definition take_char (c : ascii) (s : string) : option string :=
  match s with
  | String c' r => if Ascii.eqb c c' then Some r else None
  | EmptyString => None
  end.

(** The digits of a fraction, as nanoseconds: digits after the ninth are
    read and dropped. *)
Fixpoint take_fraction (scale : Z) (acc : Z) (s : string) : Z * string :=
  match s with
  | String c r =>
      match digit_value c with
      | Some d => take_fraction (scale / 10) (acc + d * scale) r
      | None => (acc, s)
      end
  | EmptyString => (acc, s)
  end.

Definition days_in_month (y m : Z) : Z :=
  if (m =? 2)%Z then
    if ((y mod 4 =? 0) && (negb (y mod 100 =? 0) || (y mod 400 =? 0)))%Z
    then 29 else 28
  else if ((m =? 4) || (m =? 6) || (m =? 9) || (m =? 11))%Z then 30 else 31.

Definition parse_fields (s : string)
    : option (Z * Z * Z * Z * Z * Z * string) :=
  match take_number 4 0 s with
  | None => None
  | Some (y, s1) =>
  match take_char "-" s1 with
  | None => None
  | Some s2 =>
  match take_number 2 0 s2 with
  | None => None
  | Some (m, s3) =>
  match take_char "-" s3 with
  | None => None
  | Some s4 =>
  match take_number 2 0 s4 with
  | None => None
  | Some (d, s5) =>
  match take_char " " s5 with
  | None => None
  | Some s6 =>
  match take_number 2 0 s6 with
  | None => None
  | Some (hh, s7) =>
  match take_char ":" s7 with
  | None => None
  | Some s8 =>
  match take_number 2 0 s8 with
  | None => None
  | Some (mm, s9) =>
  match take_char ":" s9 with
  | None => None
  | Some s10 =>
  match take_number 2 0 s10 with
  | None => None
  | Some (ss, rest) => Some (y, m, d, hh, mm, ss, rest)
  end end end end end end end end end end end.

Definition time_Parse_layout (s : string) : result time :=
  match parse_fields s with
  | None => Err "parsing time: cannot parse"
  | Some (y, m, d, hh, mm, ss, rest) =>
      if negb ((1 <=? m) && (m <=? 12) && (1 <=? d)
               && (d <=? days_in_month y m)
               && (hh <? 24) && (mm <? 60) && (ss <? 60))%Z
      then Err "parsing time: value out of range"
      else
        let '(nanos, rest') :=
          match rest with
          | String c (String c' r) =>
              if (Ascii.eqb c "." || Ascii.eqb c ",")
                 && match digit_value c' with Some _ => true | None => false end
              then take_fraction 100000000 0 (String c' r)
              else (0, rest)
          | _ => (0, rest)
          end in
        match rest' with
        | EmptyString =>
            Ok ((days_from_civil y m d * 86400 + hh * 3600 + mm * 60 + ss)
                * 1000000000 + nanos)
        | _ => Err "parsing time: extra text"
        end
  end.

(** ** Stores used to run the model

    A minimal codec standing in for encoding/json: a snapshot is the task's
    identifier, the empty text does not decode. *)

Definition demo_Marshal (t : Task.t) : result string := Ok (Task.ID t).

Definition demo_task (id : string) : Task.t :=
  Task.mk id "A" None false false SyncStatusPending None None 0 0.

Definition demo_Unmarshal (s : string) : result Task.t :=
  match s with
  | EmptyString => Err "unexpected end of JSON input"
  | _ => Ok (demo_task s)
  end.

(** The driver's text in a process whose local zone is UTC, and
    [time.Parse] with the layout of [GetSyncStatus]. *)
Definition demo_time_text (t : time) : string :=
  sqlite_time_text (fun _ => 0) t.

Definition demo_time_Parse (s : string) : result time := time_Parse_layout s.

(** An environment in which the database calls numbered in [bad] fail,
    every row scans, the clock reads [t0 + step * k] at its k-th reading
    and [uuid.New] yields T2. *)
Definition faulty_env (t0 step : Z) (bad : list nat) : Env :=
  mkEnv demo_Marshal demo_Unmarshal
        (fun k => t0 + step * Z.of_nat k)
        (fun k =>
           if existsb (Nat.eqb k) bad then Some "disk I/O error" else None)
        (fun _ => None)
        (fun _ => "T2")
        demo_time_text demo_time_Parse.

(** No database call fails; the clock reads 1, 2, 3, ...: the simulated
    remote authority accepts the first nine deliveries. *)
Definition demo_env : Env := faulty_env 1 1 [].

(** No database call fails; the clock reads 10, 20, 30, ...: the simulated
    remote authority rejects every delivery. *)
Definition offline_env : Env := faulty_env 10 10 [].

Definition demo_cfg : Config := {| SyncBatchSize := 10; MaxRetries := 3 |}.

Definition demo_item (id : Z) (task : string) (op : OperationType)
    (data : string) (retries : Z) (created : time) : SyncQueueItem.t :=
  SyncQueueItem.mk id task op data retries created None None.

Definition world_of (d : DB) : World := mkWorld d 0 0 0 [] [].

(** Task T1 created, then updated, nothing synced yet. *)
Definition create_then_update : World :=
  world_of (mkDB [demo_task "T1"]
                 [demo_item 1 "T1" OperationTypeCreate "T1" 0 100;
                  demo_item 2 "T1" OperationTypeUpdate "T1" 0 200]
                 2).

(** An update and a delete of T1 queued with the same [updated_at] in
    their snapshots. *)
Definition update_delete_tie : World :=
  world_of (mkDB [demo_task "T1"]
                 [demo_item 1 "T1" OperationTypeUpdate "T1" 0 100;
                  demo_item 2 "T1" OperationTypeDelete "T1" 0 100]
                 2).

(** Two entries whose [created_at] runs against their rowids. *)
Definition clock_stepped_back : World :=
  world_of (mkDB [demo_task "T1"; demo_task "T2"]
                 [demo_item 1 "T1" OperationTypeCreate "T1" 0 200;
                  demo_item 2 "T2" OperationTypeCreate "T2" 0 100]
                 2).

(** One entry whose snapshot does not decode. *)
Definition broken_snapshot : World :=
  world_of (mkDB [demo_task "T1"]
                 [demo_item 1 "T1" OperationTypeCreate "" 0 100]
                 1).

Definition single_create : World :=
  world_of (mkDB [demo_task "T1"]
                 [demo_item 1 "T1" OperationTypeCreate "T1" 0 100]
                 1).

(** No database call fails; the clock reads 1, 11, 21, ...: the simulated
    remote authority accepts every delivery. *)
Definition accepting_env : Env := faulty_env 1 10 [].

(** No batch limit. *)
Definition unlimited_cfg : Config := {| SyncBatchSize := -1; MaxRetries := 3 |}.

Definition create_request : CreateTaskRequest :=
  {| cr_Title := "B"; cr_Description := None |}.

Definition rename_request : UpdateTaskRequest :=
  {| ur_Title := Some "B"; ur_Description := None; ur_Completed := None |}.

(** The entry of T1 has exhausted its retries, the entry of T2 is new. *)
Definition one_exhausted : World :=
  world_of (mkDB [demo_task "T1"; demo_task "T2"]
                 [demo_item 1 "T1" OperationTypeCreate "T1" 3 100;
                  demo_item 2 "T2" OperationTypeCreate "T2" 0 200]
                 2).

(** T1 is soft deleted, T2 is live and was updated last. *)
Definition one_deleted : World :=
  world_of (mkDB [Task.mk "T1" "A" None false true SyncStatusPending None None
                    0 5;
                  Task.mk "T2" "B" None false false SyncStatusPending None
                    None 1 9;
                  Task.mk "T3" "C" None false false SyncStatusPending None
                    None 2 7]
                 [] 0).


(** A process in a zone that is two hours east of UTC until
    2023-10-29 01:00:00 UTC and one hour east from then on; its clock
    starts after the change and the remote authority accepts. *)
Definition fall_back_offset (t : time) : Z :=
  if (t <? 1698541200 * 1000000000)%Z then 7200 else 3600.

Definition fall_back_env : Env :=
  mkEnv demo_Marshal demo_Unmarshal
        (fun k => 1698545000 * 1000000000 + 1 + 10 * Z.of_nat k)
        (fun _ => None)
        (fun _ => None)
        (fun _ => "T2")
        (sqlite_time_text fall_back_offset) demo_time_Parse.

(** T1 was queued ten minutes before the change of offset and T2 ten
    minutes after it. *)
Definition across_fall_back : World :=
  world_of (mkDB [demo_task "T1"; demo_task "T2"]
                 [demo_item 1 "T1" OperationTypeCreate "T1" 0
                    (1698540600 * 1000000000);
                  demo_item 2 "T2" OperationTypeCreate "T2" 0
                    (1698541800 * 1000000000)]
                 2).

(** ** The program *)

Section Program.

Variable E : Env.

(** [time.Now()] *)
Definition time_Now (w : World) : time * World :=
  (clock E (ticks w),
   mkWorld (db w) (S (ticks w)) (ops w) (uuid_count w) (log w) (remote w)).

(** One call into the database driver. *)
Definition db_call (w : World) : option error * World :=
  (faults E (ops w),
   mkWorld (db w) (ticks w) (S (ops w)) (uuid_count w) (log w) (remote w)).

(** SQLite's comparison of the texts stored for two instants (collation
    BINARY: byte by byte, a proper prefix first). *)
Definition text_le (a b : time) : bool :=
  String.leb (db_time_text E a) (db_time_text E b).

Definition text_lt (a b : time) : bool :=
  String.ltb (db_time_text E a) (db_time_text E b).

(** [uuid.New().String()] *)
Definition uuid_New (w : World) : string * World :=
  (uuids E (uuid_count w),
   mkWorld (db w) (ticks w) (ops w) (S (uuid_count w)) (log w) (remote w)).

(** *** package models: [SyncQueueItem] *)

Definition NewSyncQueueItem (taskID : string) (opType : OperationType)
    (task : Task.t) (w : World) : result SyncQueueItem.t * World :=
  match json_Marshal E task with
  | Err e => (Err e, w)
  | Ok taskData =>
      let '(now, w1) := time_Now w in
      (Ok (SyncQueueItem.mk 0 taskID opType taskData 0 now None None), w1)
  end.

Definition GetTaskData (sq : SyncQueueItem.t) : result Task.t :=
  json_Unmarshal E (SyncQueueItem.TaskData sq).

Definition IncrementRetry (errorMsg : string) (sq : SyncQueueItem.t)
    (w : World) : SyncQueueItem.t * World :=
  let retryCount := wrap_int (SyncQueueItem.RetryCount sq + 1) in
  let '(now, w1) := time_Now w in
  (SyncQueueItem.mk (SyncQueueItem.ID sq) (SyncQueueItem.TaskID sq)
     (SyncQueueItem.Operation sq) (SyncQueueItem.TaskData sq)
     retryCount (SyncQueueItem.CreatedAt sq) (Some now) (Some errorMsg),
   w1).

(** *** package models: [Task] *)

Definition NewTask (title : string) (description : option string)
    (w : World) : Task.t * World :=
  let '(now, w1) := time_Now w in
  let '(id, w2) := uuid_New w1 in
  (Task.mk id title description false false SyncStatusPending None None now now,
   w2).

Definition Task_Update (req : UpdateTaskRequest) (t : Task.t) (w : World)
    : Task.t * World :=
  let title := match ur_Title req with Some s => s | None => Task.Title t end in
  let description :=
    match ur_Description req with
    | Some s => Some s
    | None => Task.Description t
    end in
  let completed :=
    match ur_Completed req with Some b => b | None => Task.Completed t end in
  let '(now, w1) := time_Now w in
  (Task.mk (Task.ID t) title description completed (Task.IsDeleted t)
     SyncStatusPending (Task.ServerID t) (Task.LastSyncedAt t)
     (Task.CreatedAt t) now,
   w1).

Definition Task_SoftDelete (t : Task.t) (w : World) : Task.t * World :=
  let '(now, w1) := time_Now w in
  (Task.mk (Task.ID t) (Task.Title t) (Task.Description t) (Task.Completed t)
     true SyncStatusPending (Task.ServerID t) (Task.LastSyncedAt t)
     (Task.CreatedAt t) now,
   w1).

(** *** package services: [SyncService] *)

Variable cfg : Config.

(** [INSERT INTO sync_queue (task_id, operation_type, task_data,
    retry_count, created_at) VALUES (...)]: the row gets the next
    AUTOINCREMENT rowid; [last_attempt] and [error_message] are NULL. *)
Definition max_rowid (q : list SyncQueueItem.t) : Z :=
  fold_right (fun it m => Z.max (SyncQueueItem.ID it) m) 0 q.

Definition insert_sync_queue (it : SyncQueueItem.t) (tx : DB) : DB :=
  let id := Z.max (sqlite_sequence tx) (max_rowid (sync_queue tx)) + 1 in
  mkDB (tasks tx)
       (sync_queue tx ++
        [SyncQueueItem.mk id (SyncQueueItem.TaskID it)
           (SyncQueueItem.Operation it) (SyncQueueItem.TaskData it)
           (SyncQueueItem.RetryCount it) (SyncQueueItem.CreatedAt it)
           None None])
       id.

(** Runs inside the caller's transaction: [tx] is the transaction's view
    of the store, returned updated on success. *)
Definition AddToQueueTx (tx : DB) (taskID : string) (opType : OperationType)
    (task : Task.t) (w : World) : result DB * World :=
  match NewSyncQueueItem taskID opType task w with
  | (Err e, w1) => (Err (wrap_error "failed to create queue item" e), w1)
  | (Ok queueItem, w1) =>
      match db_call w1 with
      | (Some e, w2) =>
          (Err (wrap_error "failed to insert into sync queue" e), w2)
      | (None, w2) => (Ok (insert_sync_queue queueItem tx), w2)
      end
  end.

(** [Begin], then [AddToQueueTx], then [Commit]; the deferred [Rollback]
    discards the transaction's view on every error path. *)
Definition AddToQueue (taskID : string) (opType : OperationType)
    (task : Task.t) (w : World) : option error * World :=
  match db_call w with
  | (Some e, w1) => (Some e, w1)
  | (None, w1) =>
      match AddToQueueTx (db w1) taskID opType task w1 with
      | (Err e, w2) => (Some e, w2)
      | (Ok tx, w2) =>
          match db_call w2 with
          | (Some e, w3) => (Some e, w3)
          | (None, w3) => (None, set_db tx w3)
          end
      end
  end.

(** [WHERE retry_count < ?] *)
Definition eligible (it : SyncQueueItem.t) : bool :=
  (SyncQueueItem.RetryCount it <? MaxRetries cfg)%Z.

(** [ORDER BY created_at ASC]: the rows by the text of [created_at]; rows
    with equal text stay in rowid order (the order of the index on
    [created_at]). *)
Fixpoint insert_by_created (x : SyncQueueItem.t) (l : list SyncQueueItem.t)
    : list SyncQueueItem.t :=
  match l with
  | [] => [x]
  | y :: l' =>
      if text_le (SyncQueueItem.CreatedAt x) (SyncQueueItem.CreatedAt y)
      then x :: y :: l'
      else y :: insert_by_created x l'
  end.

Fixpoint order_by_created_at (l : list SyncQueueItem.t)
    : list SyncQueueItem.t :=
  match l with
  | [] => []
  | x :: l' => insert_by_created x (order_by_created_at l')
  end.

(** [LIMIT ?]: SQLite puts no bound on the result when the limit is
    negative. *)
Definition sql_limit (n : Z) (l : list SyncQueueItem.t)
    : list SyncQueueItem.t :=
  if (n <? 0)%Z then l else firstn (Z.to_nat n) l.

(** The rows the query of [ProcessSyncQueue] returns. *)
Definition select_pending (q : list SyncQueueItem.t) : list SyncQueueItem.t :=
  sql_limit (SyncBatchSize cfg) (order_by_created_at (filter eligible q)).

(** The loop [for rows.Next() { ... rows.Scan ... }]: a row that does not
    scan is logged and left out. *)
Fixpoint scan_rows (rows : list SyncQueueItem.t) (w : World)
    : list SyncQueueItem.t * World :=
  match rows with
  | [] => ([], w)
  | row :: rest =>
      match scan_errors E (SyncQueueItem.ID row) with
      | Some e =>
          scan_rows rest
            (log_Printf ("Failed to scan sync queue item: " ++ e) w)
      | None =>
          let '(items, w') := scan_rows rest w in (row :: items, w')
      end
  end.

(** The simulated remote authority: it fails when the clock's nanosecond
    count is a multiple of ten.  The call is recorded in [remote]. *)
Definition syncToServer (opType : OperationType) (task : Task.t) (w : World)
    : (bool * option error) * World :=
  let '(now, w1) := time_Now w in
  if (Z.rem now 10 =? 0)%Z then
    ((false, Some "simulated network error"),
     record_delivery (mkDelivery opType task false) w1)
  else
    ((true, None),
     log_Printf ("Successfully synced task " ++ Task.ID task ++
                 " with operation " ++ OperationType_string opType)
       (record_delivery (mkDelivery opType task true) w1)).

(** [UPDATE tasks SET sync_status = 'error' WHERE id = ?] *)
Definition set_task_error (taskID : string) (t : Task.t) : Task.t :=
  if String.eqb (Task.ID t) taskID then
    Task.mk (Task.ID t) (Task.Title t) (Task.Description t) (Task.Completed t)
      (Task.IsDeleted t) SyncStatusError (Task.ServerID t)
      (Task.LastSyncedAt t) (Task.CreatedAt t) (Task.UpdatedAt t)
  else t.

Definition markTaskAsError (taskID : string) (w : World)
    : option error * World :=
  match db_call w with
  | (Some e, w1) => (Some e, w1)
  | (None, w1) =>
      (None,
       set_db (mkDB (map (set_task_error taskID) (tasks (db w1)))
                    (sync_queue (db w1)) (sqlite_sequence (db w1))) w1)
  end.

(** [UPDATE sync_queue SET retry_count = ?, last_attempt = ?,
    error_message = ? WHERE id = ?], with the values of the in-memory
    [item]. *)
Definition set_retry (item : SyncQueueItem.t) (row : SyncQueueItem.t)
    : SyncQueueItem.t :=
  if (SyncQueueItem.ID row =? SyncQueueItem.ID item)%Z then
    SyncQueueItem.mk (SyncQueueItem.ID row) (SyncQueueItem.TaskID row)
      (SyncQueueItem.Operation row) (SyncQueueItem.TaskData row)
      (SyncQueueItem.RetryCount item) (SyncQueueItem.CreatedAt row)
      (SyncQueueItem.LastAttempt item) (SyncQueueItem.ErrorMessage item)
  else row.

Definition handleSyncError (item : SyncQueueItem.t) (syncErr : option error)
    (w : World) : option error * World :=
  let errorMsg :=
    match syncErr with Some e => e | None => "unknown error" end in
  let '(item1, w1) := IncrementRetry errorMsg item w in
  match db_call w1 with
  | (Some e, w2) =>
      (Some (wrap_error "failed to update sync queue item" e), w2)
  | (None, w2) =>
      let w3 :=
        set_db (mkDB (tasks (db w2))
                     (map (set_retry item1) (sync_queue (db w2)))
                     (sqlite_sequence (db w2))) w2 in
      if (MaxRetries cfg <=? SyncQueueItem.RetryCount item1)%Z then
        match markTaskAsError (SyncQueueItem.TaskID item1) w3 with
        | (Some e, w4) =>
            (None, log_Printf ("Failed to mark task as error: " ++ e) w4)
        | (None, w4) => (None, w4)
        end
      else (None, w3)
  end.

(** [UPDATE tasks SET sync_status = 'synced', last_synced_at = ?,
    server_id = ? WHERE id = ?] *)
Definition set_task_synced (now : time) (serverID taskID : string)
    (t : Task.t) : Task.t :=
  if String.eqb (Task.ID t) taskID then
    Task.mk (Task.ID t) (Task.Title t) (Task.Description t) (Task.Completed t)
      (Task.IsDeleted t) SyncStatusSynced (Some serverID) (Some now)
      (Task.CreatedAt t) (Task.UpdatedAt t)
  else t.

(** [DELETE FROM sync_queue WHERE id = ?] *)
Definition delete_sync_queue (id : Z) (q : list SyncQueueItem.t)
    : list SyncQueueItem.t :=
  filter (fun row => negb (SyncQueueItem.ID row =? id)%Z) q.

Definition markAsSynced (item : SyncQueueItem.t) (task : Task.t) (w : World)
    : option error * World :=
  match db_call w with                                   (* Begin *)
  | (Some e, w1) => (Some e, w1)
  | (None, w1) =>
      let tx := db w1 in
      let '(now, w2) := time_Now w1 in
      let serverID := Task.ID task in
      match db_call w2 with                              (* UPDATE tasks *)
      | (Some e, w3) =>
          (Some (wrap_error "failed to update task sync status" e), w3)
      | (None, w3) =>
          let tx1 :=
            mkDB (map (set_task_synced now serverID (Task.ID task)) (tasks tx))
                 (sync_queue tx) (sqlite_sequence tx) in
          match db_call w3 with                          (* DELETE *)
          | (Some e, w4) =>
              (Some (wrap_error "failed to remove from sync queue" e), w4)
          | (None, w4) =>
              let tx2 :=
                mkDB (tasks tx1)
                     (delete_sync_queue (SyncQueueItem.ID item)
                        (sync_queue tx1))
                     (sqlite_sequence tx1) in
              match db_call w4 with                      (* Commit *)
              | (Some e, w5) => (Some e, w5)
              | (None, w5) => (None, set_db tx2 w5)
              end
          end
      end
  end.

Definition processSyncItem (item : SyncQueueItem.t) (w : World)
    : option error * World :=
  match GetTaskData item with
  | Err e => (Some (wrap_error "failed to parse task data" e), w)
  | Ok task =>
      match syncToServer (SyncQueueItem.Operation item) task w with
      | ((success, err), w1) =>
          if match err with Some _ => true | None => false end
             || negb success
          then handleSyncError item err w1
          else markAsSynced item task w1
      end
  end.

(** The loop [for _, item := range items]. *)
Fixpoint process_items (items : list SyncQueueItem.t) (w : World) : World :=
  match items with
  | [] => w
  | item :: rest =>
      match processSyncItem item w with
      | (Some e, w1) =>
          process_items rest
            (log_Printf ("Failed to process sync item " ++
                         fmt_int (SyncQueueItem.ID item) ++ ": " ++ e) w1)
      | (None, w1) => process_items rest w1
      end
  end.

Definition ProcessSyncQueue (w : World) : option error * World :=
  match db_call w with
  | (Some e, w1) => (Some (wrap_error "failed to query sync queue" e), w1)
  | (None, w1) =>
      let rows := select_pending (sync_queue (db w1)) in
      let '(items, w2) := scan_rows rows w1 in
      (None, process_items items w2)
  end.

(** [SELECT MAX(last_synced_at) FROM tasks WHERE last_synced_at IS NOT
    NULL]: the instant whose text is the greatest, NULL when no row
    qualifies. *)
Fixpoint max_last_synced_at (ts : list Task.t) : option time :=
  match ts with
  | [] => None
  | t :: ts' =>
      match Task.LastSyncedAt t, max_last_synced_at ts' with
      | Some a, Some b => Some (if text_le a b then b else a)
      | Some a, None => Some a
      | None, m => m
      end
  end.

Definition count_pending (q : list SyncQueueItem.t) : Z :=
  Z.of_nat (List.length (filter eligible q)).

Definition count_error (ts : list Task.t) : Z :=
  Z.of_nat
    (List.length
       (filter (fun t => SyncStatus_eqb (Task.Status t) SyncStatusError) ts)).

Definition GetSyncStatus (w : World) : result services.SyncStatus * World :=
  match db_call w with
  | (Some e, w1) => (Err e, w1)
  | (None, w1) =>
      let pendingCount := count_pending (sync_queue (db w1)) in
      match db_call w1 with
      | (Some e, w2) => (Err e, w2)
      | (None, w2) =>
          let errorCount := count_error (tasks (db w2)) in
          match db_call w2 with
          | (Some e, w3) => (Err e, w3)
          | (None, w3) =>
              let lastSync :=
                match max_last_synced_at (tasks (db w3)) with
                | Some t =>
                    let lastSyncStr := db_time_text E t in
                    if negb (String.eqb lastSyncStr "") then
                      match time_Parse E lastSyncStr with
                      | Ok parsed => parsed
                      | Err _ => 0
                      end
                    else 0
                | None => 0
                end in
              (Ok (services.mk pendingCount errorCount lastSync false), w3)
          end
      end
  end.

Definition ResolveConflicts (w : World) : option error * World :=
  (None,
   log_Printf "Conflict resolution completed using last-write-wins strategy" w).

Definition GetSyncQueueContents (w : World)
    : result (list SyncQueueItem.t) * World :=
  match db_call w with
  | (Some e, w1) => (Err (wrap_error "failed to query sync queue" e), w1)
  | (None, w1) =>
      let '(items, w2) :=
        scan_rows (order_by_created_at (sync_queue (db w1))) w1 in
      (Ok items, w2)
  end.

(** *** package services: [TaskService] *)

Definition GetTaskByID (id : string) (w : World) : result Task.t * World :=
  match db_call w with
  | (Some e, w1) => (Err (wrap_error "failed to get task" e), w1)
  | (None, w1) =>
      match find (fun t => String.eqb (Task.ID t) id && negb (Task.IsDeleted t))
                 (tasks (db w1)) with
      | None => (Err "task not found", w1)
      | Some task => (Ok task, w1)
      end
  end.

(** [INSERT INTO tasks ...]: [id] is the primary key. *)
Definition insert_task (task : Task.t) (tx : DB) : result DB :=
  if existsb (fun t => String.eqb (Task.ID t) (Task.ID task)) (tasks tx)
  then Err "UNIQUE constraint failed: tasks.id"
  else Ok (mkDB (tasks tx ++ [task]) (sync_queue tx) (sqlite_sequence tx)).

Definition CreateTask (req : CreateTaskRequest) (w : World)
    : result Task.t * World :=
  let '(task, w0) := NewTask (cr_Title req) (cr_Description req) w in
  match db_call w0 with                                  (* Begin *)
  | (Some e, w1) => (Err (wrap_error "failed to begin transaction" e), w1)
  | (None, w1) =>
      match db_call w1 with                              (* INSERT tasks *)
      | (Some e, w2) => (Err (wrap_error "failed to insert task" e), w2)
      | (None, w2) =>
          match insert_task task (db w1) with
          | Err e => (Err (wrap_error "failed to insert task" e), w2)
          | Ok tx1 =>
              match AddToQueueTx tx1 (Task.ID task) OperationTypeCreate
                      task w2 with
              | (Err e, w3) =>
                  (Err (wrap_error "failed to add to sync queue" e), w3)
              | (Ok tx2, w3) =>
                  match db_call w3 with                  (* Commit *)
                  | (Some e, w4) =>
                      (Err (wrap_error "failed to commit transaction" e), w4)
                  | (None, w4) => (Ok task, set_db tx2 w4)
                  end
              end
          end
      end
  end.

(** [UPDATE tasks SET title = ?, description = ?, completed = ?,
    updated_at = ?, sync_status = ? WHERE id = ? AND is_deleted = 0] *)
Definition update_matches (id : string) (t : Task.t) : bool :=
  String.eqb (Task.ID t) id && negb (Task.IsDeleted t).

Definition update_task_row (task : Task.t) (id : string) (t : Task.t)
    : Task.t :=
  if update_matches id t then
    Task.mk (Task.ID t) (Task.Title task) (Task.Description task)
      (Task.Completed task) (Task.IsDeleted t) (Task.Status task)
      (Task.ServerID t) (Task.LastSyncedAt t) (Task.CreatedAt t)
      (Task.UpdatedAt task)
  else t.

Definition UpdateTask (id : string) (req : UpdateTaskRequest) (w : World)
    : result Task.t * World :=
  match db_call w with                                   (* Begin *)
  | (Some e, w1) => (Err (wrap_error "failed to begin transaction" e), w1)
  | (None, w1) =>
      match GetTaskByID id w1 with
      | (Err e, w2) => (Err e, w2)
      | (Ok task0, w2) =>
          let '(task, w3) := Task_Update req task0 w2 in
          match db_call w3 with                          (* UPDATE tasks *)
          | (Some e, w4) => (Err (wrap_error "failed to update task" e), w4)
          | (None, w4) =>
              let tx := db w1 in
              let rowsAffected :=
                List.length (filter (update_matches id) (tasks tx)) in
              if Nat.eqb rowsAffected 0 then (Err "task not found", w4)
              else
                let tx1 :=
                  mkDB (map (update_task_row task id) (tasks tx))
                       (sync_queue tx) (sqlite_sequence tx) in
                match AddToQueueTx tx1 (Task.ID task) OperationTypeUpdate
                        task w4 with
                | (Err e, w5) =>
                    (Err (wrap_error "failed to add to sync queue" e), w5)
                | (Ok tx2, w5) =>
                    match db_call w5 with                (* Commit *)
                    | (Some e, w6) =>
                        (Err (wrap_error "failed to commit transaction" e),
                         w6)
                    | (None, w6) => (Ok task, set_db tx2 w6)
                    end
                end
          end
      end
  end.

(** [UPDATE tasks SET is_deleted = 1, updated_at = ?, sync_status = ?
    WHERE id = ?] *)
Definition delete_task_row (task : Task.t) (id : string) (t : Task.t)
    : Task.t :=
  if String.eqb (Task.ID t) id then
    Task.mk (Task.ID t) (Task.Title t) (Task.Description t) (Task.Completed t)
      true (Task.Status task) (Task.ServerID t) (Task.LastSyncedAt t)
      (Task.CreatedAt t) (Task.UpdatedAt task)
  else t.

Definition DeleteTask (id : string) (w : World) : option error * World :=
  match db_call w with                                   (* Begin *)
  | (Some e, w1) => (Some (wrap_error "failed to begin transaction" e), w1)
  | (None, w1) =>
      match GetTaskByID id w1 with
      | (Err e, w2) => (Some e, w2)
      | (Ok task0, w2) =>
          let '(task, w3) := Task_SoftDelete task0 w2 in
          match db_call w3 with                          (* UPDATE tasks *)
          | (Some e, w4) => (Some (wrap_error "failed to delete task" e), w4)
          | (None, w4) =>
              let tx := db w1 in
              let rowsAffected :=
                List.length (filter (fun t => String.eqb (Task.ID t) id)
                          (tasks tx)) in
              if Nat.eqb rowsAffected 0 then (Some "task not found", w4)
              else
                let tx1 :=
                  mkDB (map (delete_task_row task id) (tasks tx))
                       (sync_queue tx) (sqlite_sequence tx) in
                match AddToQueueTx tx1 (Task.ID task) OperationTypeDelete
                        task w4 with
                | (Err e, w5) =>
                    (Some (wrap_error "failed to add to sync queue" e), w5)
                | (Ok tx2, w5) =>
                    match db_call w5 with                (* Commit *)
                    | (Some e, w6) => (Some e, w6)
                    | (None, w6) => (None, set_db tx2 w6)
                    end
                end
          end
      end
  end.

(** *** package handlers: [SyncHandler] *)

Definition TriggerSync (w : World) : Response * World :=
  match ProcessSyncQueue w with
  | (Some e, w1) => (mkResponse StatusInternalServerError "error" e, w1)
  | (None, w1) =>
      (mkResponse StatusOK "message" "sync completed successfully", w1)
  end.

(** [n] passes in a row, as a timer or repeated triggers produce them. *)
Fixpoint sync_passes (n : nat) (w : World) : World :=
  match n with
  | O => w
  | S n' => sync_passes n' (snd (ProcessSyncQueue w))
  end.

(** ** Vocabulary of the statements *)

(** What a batch hands to the remote authority: the operation kind and the
    decoded snapshot of each entry whose snapshot decodes, in batch
    order. *)
Definition deliverable (items : list SyncQueueItem.t)
    : list (OperationType * Task.t) :=
  flat_map
    (fun it =>
       match GetTaskData it with
       | Ok task => [(SyncQueueItem.Operation it, task)]
       | Err _ => []
       end)
    items.

(** The calls the remote authority received between [w] and [w']. *)
Definition handed_over (w w' : World) : list (OperationType * Task.t) :=
  map (fun d => (d_op d, d_task d))
      (skipn (List.length (remote w)) (remote w')).

(** The log of [w'] continues the log of [w]. *)
Definition log_extends (w w' : World) : Prop :=
  exists lines, log w' = (log w ++ lines)%list.

(** What the loop of a pass does with one entry. *)
Definition process_one (item : SyncQueueItem.t) (w : World) : World :=
  match processSyncItem item w with
  | (Some e, w1) =>
      log_Printf ("Failed to process sync item " ++
                  fmt_int (SyncQueueItem.ID item) ++ ": " ++ e) w1
  | (None, w1) => w1
  end.

(** [a] is not after [b] in the order of the [created_at] column: the
    order of the stored texts. *)
Definition created_le (a b : SyncQueueItem.t) : Prop :=
  text_le (SyncQueueItem.CreatedAt a) (SyncQueueItem.CreatedAt b) = true.

(** On the instants [ts] the order of the stored texts is the order of
    the instants (as it is while the zone offset of the process does not
    change). *)
Definition chronological (ts : list time) : Prop :=
  forall a b, In a ts -> In b ts -> (text_le a b = true <-> a <= b).

Definition row_ids (q : list SyncQueueItem.t) : list Z :=
  map SyncQueueItem.ID q.

(** The entry as [recordFailure] leaves it. *)
Definition failed_once (now : time) (msg : string) (retries : Z)
    (row : SyncQueueItem.t) : SyncQueueItem.t :=
  SyncQueueItem.mk (SyncQueueItem.ID row) (SyncQueueItem.TaskID row)
    (SyncQueueItem.Operation row) (SyncQueueItem.TaskData row)
    retries (SyncQueueItem.CreatedAt row) (Some now) (Some msg).


(** Two versions of one row: same rowid, same task, same [created_at]. *)
Definition same_row (x x' : SyncQueueItem.t) : Prop :=
  SyncQueueItem.ID x' = SyncQueueItem.ID x /\
  SyncQueueItem.TaskID x' = SyncQueueItem.TaskID x /\
  SyncQueueItem.CreatedAt x' = SyncQueueItem.CreatedAt x.

(** [shrinks q q']: [q'] is [q] after some rows were deleted and others had
    their retry bookkeeping rewritten, no row becoming eligible again. *)
Inductive shrinks : list SyncQueueItem.t -> list SyncQueueItem.t -> Prop :=
| shrinks_nil : shrinks [] []
| shrinks_drop : forall x q q', shrinks q q' -> shrinks (x :: q) q'
| shrinks_keep : forall x x' q q',
    same_row x x' ->
    (eligible x' = true -> eligible x = true) ->
    shrinks q q' ->
    shrinks (x :: q) (x' :: q').

(** The state a pass starts its loop from, and the loop's invariant: the
    entries still to process are rows of the queue, eligible, with
    distinct rowids. *)
Definition batch_ready (items : list SyncQueueItem.t) (w : World) : Prop :=
  NoDup (row_ids (sync_queue (db w))) /\
  NoDup (row_ids items) /\
  (forall it, In it items ->
     In it (sync_queue (db w)) /\ eligible it = true).

(** What the schema and the code maintain of the queue: rowids are distinct
    (primary key) and retry counts are not negative (they start at 0 and
    are only incremented). *)
Definition queue_ok (q : list SyncQueueItem.t) : Prop :=
  NoDup (row_ids q) /\
  forall it, In it q -> 0 <= SyncQueueItem.RetryCount it.


(** Task [id] has a queued entry other than [e]. *)
Definition other_entry_of (e : SyncQueueItem.t) (q : list SyncQueueItem.t)
    (id : string) : Prop :=
  exists other, In other q /\
    SyncQueueItem.ID other <> SyncQueueItem.ID e /\
    SyncQueueItem.TaskID other = id.

(** No task of [ts'] is in state [error] unless it already was in [ts],
    tasks named in [excused] apart. *)
Definition no_new_error (excused : string -> Prop) (ts ts' : list Task.t)
    : Prop :=
  forall t', In t' ts' ->
    Task.Status t' = SyncStatusError ->
    excused (Task.ID t') \/
    exists t, In t ts /\ Task.ID t = Task.ID t' /\
              Task.Status t = SyncStatusError.

(** ** The rest of the services and handlers *)

(** The error [rows.Scan] reports on the [tasks] row [id], [None] when the
    row scans. *)
Variable task_scan_errors : string -> option error.

(** [ORDER BY updated_at DESC, created_at DESC], on the texts of the two
    columns: [a] may come before [b]; rows with equal keys stay in rowid
    order. *)
Definition task_before (a b : Task.t) : bool :=
  text_lt (Task.UpdatedAt b) (Task.UpdatedAt a)
  || (String.eqb (db_time_text E (Task.UpdatedAt a))
        (db_time_text E (Task.UpdatedAt b))
      && text_le (Task.CreatedAt b) (Task.CreatedAt a)).

(** [a] is listed before [b] by [GetAllTasks]: its [updated_at] text is
    the greater, or the two are the same text and its [created_at] text is
    not the smaller. *)
Definition listed_before (a b : Task.t) : Prop :=
  text_lt (Task.UpdatedAt b) (Task.UpdatedAt a) = true \/
  (db_time_text E (Task.UpdatedAt a) = db_time_text E (Task.UpdatedAt b) /\
   text_le (Task.CreatedAt b) (Task.CreatedAt a) = true).

Fixpoint insert_task_ordered (x : Task.t) (l : list Task.t) : list Task.t :=
  match l with
  | [] => [x]
  | y :: l' =>
      if task_before x y then x :: y :: l'
      else y :: insert_task_ordered x l'
  end.

Fixpoint order_tasks (l : list Task.t) : list Task.t :=
  match l with
  | [] => []
  | x :: l' => insert_task_ordered x (order_tasks l')
  end.

(** The loop [for rows.Next()] of [GetAllTasks]: the first row that does
    not scan ends the call with an error. *)
Fixpoint scan_tasks (rows : list Task.t) : result (list Task.t) :=
  match rows with
  | [] => Ok []
  | row :: rest =>
      match task_scan_errors (Task.ID row) with
      | Some e => Err (wrap_error "failed to scan task" e)
      | None =>
          match scan_tasks rest with
          | Ok ts => Ok (row :: ts)
          | Err e => Err e
          end
      end
  end.

Definition GetAllTasks (w : World) : result (list Task.t) * World :=
  match db_call w with
  | (Some e, w1) => (Err (wrap_error "failed to query tasks" e), w1)
  | (None, w1) =>
      (scan_tasks
         (order_tasks
            (filter (fun t => negb (Task.IsDeleted t)) (tasks (db w1)))),
       w1)
  end.

(** [c.JSON(code, gin.H{...})] with values of several kinds, the keys in
    the order of the source. *)
Inductive Payload : Type :=
| PayloadText (s : string)
| PayloadStatus (st : services.SyncStatus)
| PayloadQueue (items : list SyncQueueItem.t).

Record Reply : Type := mkReply {
  reply_code : Z;
  reply_body : list (string * Payload)
}.

Definition SyncHandler_BatchSync (w : World) : Reply * World :=
  match ProcessSyncQueue w with
  | (Some e, w1) =>
      (mkReply StatusInternalServerError [("error", PayloadText e)], w1)
  | (None, w1) =>
      match ResolveConflicts w1 with
      | (Some e, w2) =>
          (mkReply StatusInternalServerError [("error", PayloadText e)], w2)
      | (None, w2) =>
          match GetSyncStatus w2 with
          | (Err e, w3) =>
              (mkReply StatusInternalServerError [("error", PayloadText e)],
               w3)
          | (Ok status, w3) =>
              (mkReply StatusOK
                 [("message", PayloadText "batch sync completed");
                  ("sync_status", PayloadStatus status)],
               w3)
          end
      end
  end.

Definition SyncHandler_GetSyncQueue (w : World) : Reply * World :=
  match GetSyncQueueContents w with
  | (Err e, w1) =>
      (mkReply StatusInternalServerError [("error", PayloadText e)], w1)
  | (Ok items, w1) =>
      (mkReply StatusOK [("sync_queue", PayloadQueue items)], w1)
  end.

(** The calls a client can make on the two services (the routes of
    [main]), and a session of such calls.  [serve] tells whether a task
    mutation was committed. *)
Inductive Request : Type :=
| ReqCreateTask (req : CreateTaskRequest)
| ReqUpdateTask (id : string) (req : UpdateTaskRequest)
| ReqDeleteTask (id : string)
| ReqTriggerSync.

Definition serve (r : Request) (w : World) : bool * World :=
  match r with
  | ReqCreateTask req =>
      match CreateTask req w with
      | (Ok _, w') => (true, w')
      | (Err _, w') => (false, w')
      end
  | ReqUpdateTask id req =>
      match UpdateTask id req w with
      | (Ok _, w') => (true, w')
      | (Err _, w') => (false, w')
      end
  | ReqDeleteTask id =>
      match DeleteTask id w with
      | (None, w') => (true, w')
      | (Some _, w') => (false, w')
      end
  | ReqTriggerSync => (false, snd (ProcessSyncQueue w))
  end.

(** The world after the session and the number of mutations committed. *)
Fixpoint serve_all (rs : list Request) (w : World) : nat * World :=
  match rs with
  | [] => (O, w)
  | r :: rest =>
      let '(ok, w1) := serve r w in
      let '(n, w2) := serve_all rest w1 in
      ((if ok then S n else n), w2)
  end.

(** What a pass may not change of a task and of a queue entry. *)
Definition task_content (t : Task.t)
    : string * string * option string * bool * bool * time * time :=
  (Task.ID t, Task.Title t, Task.Description t, Task.Completed t,
   Task.IsDeleted t, Task.CreatedAt t, Task.UpdatedAt t).

Definition entry_content (it : SyncQueueItem.t)
    : Z * string * OperationType * string * time :=
  (SyncQueueItem.ID it, SyncQueueItem.TaskID it, SyncQueueItem.Operation it,
   SyncQueueItem.TaskData it, SyncQueueItem.CreatedAt it).

(** The empty store of a fresh database. *)
Definition empty_db : DB := mkDB [] [] 0.

(** Invariants of the store: rowids are distinct and at most the
    AUTOINCREMENT counter, which is not negative; retry counts lie between
    0 and [MaxRetries]; task ids are distinct. *)
Definition store_ok (d : DB) : Prop :=
  NoDup (row_ids (sync_queue d)) /\
  0 <= sqlite_sequence d /\
  (forall it, In it (sync_queue d) ->
     SyncQueueItem.ID it <= sqlite_sequence d /\
     0 <= SyncQueueItem.RetryCount it <= MaxRetries cfg) /\
  NoDup (map Task.ID (tasks d)).

(** The identity of the entries of [q'] is that of entries of [q], and
    there are no more of them. *)
Definition no_new_entries (q q' : list SyncQueueItem.t) : Prop :=
  (forall row', In row' q' ->
     exists row, In row q /\ entry_content row = entry_content row') /\
  (List.length q' <= List.length q)%nat.

(** The entries of a batch that reach the remote authority: the selected
    rows that scan and whose snapshot decodes. *)
Definition decodes (it : SyncQueueItem.t) : bool :=
  match GetTaskData it with Ok _ => true | Err _ => false end.

Definition scans (it : SyncQueueItem.t) : bool :=
  match scan_errors E (SyncQueueItem.ID it) with
  | Some _ => false
  | None => true
  end.

Definition attempted (q : list SyncQueueItem.t) : list SyncQueueItem.t :=
  filter decodes (filter scans (select_pending q)).

(** [items] has an entry with rowid [id]; an entry whose snapshot is task
    [id]; an entry of task [id] that one more failure exhausts. *)
Definition has_rowid (items : list SyncQueueItem.t) (id : Z) : bool :=
  existsb (fun it => (SyncQueueItem.ID it =? id)%Z) items.

Definition delivers (items : list SyncQueueItem.t) (id : string) : bool :=
  existsb
    (fun it =>
       match GetTaskData it with
       | Ok task => String.eqb (Task.ID task) id
       | Err _ => false
       end)
    items.

Definition exhausts (items : list SyncQueueItem.t) (id : string) : bool :=
  existsb
    (fun it =>
       String.eqb (SyncQueueItem.TaskID it) id
       && (MaxRetries cfg <=? SyncQueueItem.RetryCount it + 1)%Z)
    items.

(** A task before and after a pass that the remote authority accepted. *)
Definition synced_if_delivered (items : list SyncQueueItem.t)
    (t t' : Task.t) : Prop :=
  task_content t' = task_content t /\
  if delivers items (Task.ID t) then
    Task.Status t' = SyncStatusSynced /\
    Task.ServerID t' = Some (Task.ID t) /\
    exists k, Task.LastSyncedAt t' = Some (clock E k)
  else t' = t.

(** A queue row before and after a pass that the remote authority
    rejected. *)
Definition failed_if_attempted (items : list SyncQueueItem.t)
    (row row' : SyncQueueItem.t) : Prop :=
  if has_rowid items (SyncQueueItem.ID row) then
    exists k,
      row' = failed_once (clock E k) "simulated network error"
               (SyncQueueItem.RetryCount row + 1) row
  else row' = row.

(** ** The order of the stored texts *)

Lemma ascii_compare_refl : forall c, Ascii.compare c c = Eq.
Proof. intros c. unfold Ascii.compare. apply N.compare_refl. Qed.

Lemma ascii_compare_lt_trans : forall a b c,
  Ascii.compare a b = Lt -> Ascii.compare b c = Lt -> Ascii.compare a c = Lt.
Proof.
  unfold Ascii.compare. intros a b c Hab Hbc.
  rewrite N.compare_lt_iff in *. eapply N.lt_trans; eassumption.
Qed.

Lemma string_compare_refl : forall s, String.compare s s = Eq.
Proof.
  induction s as [|c s IH]; simpl; [ reflexivity | ].
  now rewrite ascii_compare_refl.
Qed.

Lemma string_leb_refl : forall s, String.leb s s = true.
Proof. intros s. unfold String.leb. now rewrite string_compare_refl. Qed.

Lemma string_leb_trans : forall a b c,
  String.leb a b = true -> String.leb b c = true -> String.leb a c = true.
Proof.
  unfold String.leb.
  induction a as [|x a IH]; intros [|y b] [|z c]; simpl; try easy.
  destruct (Ascii.compare x y) eqn:Hxy; try easy;
    destruct (Ascii.compare y z) eqn:Hyz; try easy.
  - apply Ascii.compare_eq_iff in Hxy, Hyz. subst.
    rewrite ascii_compare_refl. apply IH.
  - apply Ascii.compare_eq_iff in Hxy. subst. now rewrite Hyz.
  - apply Ascii.compare_eq_iff in Hyz. subst. now rewrite Hxy.
  - now rewrite (ascii_compare_lt_trans _ _ _ Hxy Hyz).
Qed.

Lemma string_leb_false : forall a b,
  String.leb a b = false -> String.leb b a = true.
Proof.
  intros a b H. destruct (String.leb_total a b) as [H1|H1]; congruence.
Qed.

Lemma string_ltb_leb : forall a b, String.ltb a b = negb (String.leb b a).
Proof.
  intros a b. unfold String.ltb, String.leb.
  rewrite (String.compare_antisym a b).
  destruct (String.compare b a); reflexivity.
Qed.

Lemma string_eqb_leb : forall a b,
  String.eqb a b = String.leb a b && String.leb b a.
Proof.
  intros a b. destruct (String.eqb a b) eqn:He.
  - apply String.eqb_eq in He. subst. now rewrite string_leb_refl.
  - destruct (String.leb a b) eqn:H1, (String.leb b a) eqn:H2; try reflexivity.
    apply String.eqb_neq in He. elim He. now apply String.leb_antisym.
Qed.

Lemma text_le_refl : forall a, text_le a a = true.
Proof. intros a. apply string_leb_refl. Qed.

Lemma text_le_trans : forall a b c,
  text_le a b = true -> text_le b c = true -> text_le a c = true.
Proof. intros a b c. apply string_leb_trans. Qed.

Lemma text_le_false : forall a b, text_le a b = false -> text_le b a = true.
Proof. intros a b. apply string_leb_false. Qed.

Lemma text_lt_le : forall a b, text_lt a b = negb (text_le b a).
Proof. intros a b. apply string_ltb_leb. Qed.

Lemma chronological_check : forall ts,
  forallb (fun a => forallb (fun b => Bool.eqb (text_le a b) (a <=? b)%Z) ts)
    ts = true ->
  chronological ts.
Proof.
  intros ts H a b Ha Hb. rewrite forallb_forall in H.
  specialize (H a Ha). rewrite forallb_forall in H. specialize (H b Hb).
  apply Bool.eqb_prop in H. rewrite H. apply Z.leb_le.
Qed.

Lemma chronological_incl : forall ts ts',
  chronological ts -> incl ts' ts -> chronological ts'.
Proof. intros ts ts' H Hincl a b Ha Hb. apply H; now apply Hincl. Qed.

Lemma chronological_lt : forall ts a b,
  chronological ts -> In a ts -> In b ts -> text_lt a b = true -> a < b.
Proof.
  intros ts a b H Ha Hb Hlt. rewrite text_lt_le in Hlt.
  apply negb_true_iff in Hlt.
  destruct (Z.lt_ge_cases a b) as [Hab|Hba]; [ exact Hab | ].
  apply (H b a Hb Ha) in Hba. congruence.
Qed.

Lemma chronological_eq : forall ts a b,
  chronological ts -> In a ts -> In b ts ->
  db_time_text E a = db_time_text E b -> a = b.
Proof.
  intros ts a b H Ha Hb Heq.
  assert (Hab : text_le a b = true)
    by (unfold text_le; rewrite Heq; apply string_leb_refl).
  assert (Hba : text_le b a = true)
    by (unfold text_le; rewrite Heq; apply string_leb_refl).
  apply (H a b Ha Hb) in Hab. apply (H b a Hb Ha) in Hba. lia.
Qed.

Lemma StronglySorted_weaken : forall (A : Type) (R R' : A -> A -> Prop) l,
  (forall a b, In a l -> In b l -> R a b -> R' a b) ->
  StronglySorted R l -> StronglySorted R' l.
Proof.
  intros A R R' l H Hs. induction Hs as [|a l Hs IH Hall].
  - constructor.
  - constructor.
    + apply IH. intros x y Hx Hy. apply H; now right.
    + apply Forall_forall. intros b Hb. rewrite Forall_forall in Hall.
      apply H; [ now left | now right | now apply Hall ].
Qed.

Lemma sorted_chronologically : forall items,
  chronological (map SyncQueueItem.CreatedAt items) ->
  StronglySorted created_le items ->
  StronglySorted
    (fun a b => SyncQueueItem.CreatedAt a <= SyncQueueItem.CreatedAt b) items.
Proof.
  intros items Hch. apply StronglySorted_weaken.
  intros a b Ha Hb Hle. apply (Hch _ _); [ | | exact Hle ];
    now apply in_map.
Qed.

(** ** Elementary facts about the statements of the store *)

Lemma In_set_task_synced : forall now sid id ts t',
  In t' (map (set_task_synced now sid id) ts) ->
  Task.ID t' = id ->
  Task.Status t' = SyncStatusSynced /\ Task.LastSyncedAt t' = Some now /\
  Task.ServerID t' = Some sid.
Proof.
  intros now sid id ts t' Hin Hid.
  apply in_map_iff in Hin. destruct Hin as [t [Ht _]].
  unfold set_task_synced in Ht.
  destruct (String.eqb (Task.ID t) id) eqn:Heq.
  - subst t'. simpl. auto.
  - subst t'. apply String.eqb_neq in Heq. contradiction.
Qed.

Lemma In_delete_sync_queue : forall id q row,
  In row (delete_sync_queue id q) <->
  In row q /\ SyncQueueItem.ID row <> id.
Proof.
  intros id q row. unfold delete_sync_queue. rewrite filter_In.
  rewrite negb_true_iff, Z.eqb_neq. reflexivity.
Qed.

(** C5. [markAsSynced] (recordSuccess) is all or nothing.  It returns nil
    exactly when its four database calls succeed ([Begin], the UPDATE of
    the task, the DELETE of the entry, [Commit]).  When it returns nil,
    the rows of [tasks] with the snapshot's id are [synced], carry the
    instant just read from the clock as [last_synced_at] and the resolved
    server id, and the queue has lost exactly the rows with the entry's
    rowid.  When it returns an error (the transaction could not begin, one
    of its two statements failed, or the commit failed), the store is the
    one it started from: the task is not marked and the entry is still
    queued, its retry bookkeeping untouched. *)
Theorem markAsSynced_atomic : forall item task w,
  let r := fst (markAsSynced item task w) in
  let w' := snd (markAsSynced item task w) in
  let now := clock E (ticks w) in
  (r = None <->
   faults E (ops w) = None /\
   faults E (S (ops w)) = None /\
   faults E (S (S (ops w))) = None /\
   faults E (S (S (S (ops w)))) = None) /\
  match r with
  | None =>
      tasks (db w') =
        map (set_task_synced now (Task.ID task) (Task.ID task))
            (tasks (db w)) /\
      sync_queue (db w') =
        delete_sync_queue (SyncQueueItem.ID item) (sync_queue (db w)) /\
      (forall t, In t (tasks (db w')) -> Task.ID t = Task.ID task ->
         Task.Status t = SyncStatusSynced /\
         Task.LastSyncedAt t = Some now) /\
      (forall row, In row (sync_queue (db w')) <->
         In row (sync_queue (db w)) /\
         SyncQueueItem.ID row <> SyncQueueItem.ID item)
  | Some _ =>
      db w' = db w /\
      (forall row, In row (sync_queue (db w)) -> In row (sync_queue (db w')))
  end.
Proof.
  intros item task w. unfold markAsSynced, db_call, time_Now. simpl.
  destruct (faults E (ops w)); simpl;
    [ split; [ split; [ discriminate | intros [H _]; discriminate ]
             | now split ] | ].
  destruct (faults E (S (ops w))); simpl;
    [ split; [ split; [ discriminate | intros [_ [H _]]; discriminate ]
             | now split ] | ].
  destruct (faults E (S (S (ops w)))); simpl;
    [ split; [ split; [ discriminate | intros [_ [_ [H _]]]; discriminate ]
             | now split ] | ].
  destruct (faults E (S (S (S (ops w))))); simpl;
    [ split; [ split; [ discriminate | intros [_ [_ [_ H]]]; discriminate ]
             | now split ] | ].
  split; [ split; auto | ].
  split; [ reflexivity | ]. split; [ reflexivity | ]. split.
  - intros t Hin Hid.
    destruct (In_set_task_synced _ _ _ _ _ Hin Hid) as [Hs [Hl _]].
    now split.
  - intros row. apply In_delete_sync_queue.
Qed.

Lemma AddToQueueTx_spec : forall tx taskID opType task w,
  match AddToQueueTx tx taskID opType task w with
  | (Err _, w') => db w' = db w
  | (Ok tx', w') =>
      db w' = db w /\
      exists data,
        json_Marshal E task = Ok data /\
        tasks tx' = tasks tx /\
        sync_queue tx' =
          (sync_queue tx ++
           [SyncQueueItem.mk
              (Z.max (sqlite_sequence tx) (max_rowid (sync_queue tx)) + 1)
              taskID opType data 0 (clock E (ticks w)) None None])%list
  end.
Proof.
  intros tx taskID opType task w.
  unfold AddToQueueTx, NewSyncQueueItem, time_Now, db_call.
  destruct (json_Marshal E task) as [data|e]; simpl; [ | reflexivity ].
  destruct (faults E (ops w)); simpl; [ reflexivity | ].
  split; [ reflexivity | ]. exists data. auto.
Qed.


(** C8, as the code has it.  When its three queries succeed,
    [GetSyncStatus] reports the number of queue rows with
    [retry_count < MaxRetries], the number of tasks in state [error], the
    instant [time.Unix(0, 0)] as last sync when no task has a
    [last_synced_at] (the field always holds an instant) and also when the
    text stored for the latest sync does not parse with the layout
    [2006-01-02 15:04:05], and [InProgress = false] in every state of the
    world, the states in the middle of a pass included.  It fails only
    when one of the three queries fails, and never changes the store. *)
Theorem GetSyncStatus_report : forall w,
  db (snd (GetSyncStatus w)) = db w /\
  match fst (GetSyncStatus w) with
  | Ok st =>
      services.InProgress st = false /\
      services.PendingCount st = count_pending (sync_queue (db w)) /\
      services.ErrorCount st = count_error (tasks (db w)) /\
      (max_last_synced_at (tasks (db w)) = None ->
       services.LastSync st = 0) /\
      (forall t e, max_last_synced_at (tasks (db w)) = Some t ->
         time_Parse E (db_time_text E t) = Err e ->
         services.LastSync st = 0)
  | Err _ =>
      exists k, (k < 3)%nat /\ faults E (ops w + k) <> None
  end.
Proof.
  intros w. unfold GetSyncStatus, db_call. simpl.
  destruct (faults E (ops w)) eqn:F0; simpl.
  { split; [ reflexivity | ]. exists 0%nat. rewrite Nat.add_0_r, F0.
    split; [ lia | discriminate ]. }
  destruct (faults E (S (ops w))) eqn:F1; simpl.
  { split; [ reflexivity | ]. exists 1%nat.
    replace (ops w + 1)%nat with (S (ops w)) by lia. rewrite F1.
    split; [ lia | discriminate ]. }
  destruct (faults E (S (S (ops w)))) eqn:F2; simpl.
  { split; [ reflexivity | ]. exists 2%nat.
    replace (ops w + 2)%nat with (S (S (ops w))) by lia. rewrite F2.
    split; [ lia | discriminate ]. }
  repeat split.
  - intros Hnone. rewrite Hnone. reflexivity.
  - intros t e Hsome Hparse. rewrite Hsome, Hparse.
    now destruct (negb (String.eqb (db_time_text E t) "")).
Qed.

Lemma filter_none : forall (A : Type) (f : A -> bool) (l : list A),
  (forall x, In x l -> f x = false) -> filter f l = [].
Proof.
  intros A f l. induction l as [|a l IH]; intros H; simpl.
  - reflexivity.
  - rewrite (H a (or_introl eq_refl)). apply IH.
    intros x Hx. apply H. now right.
Qed.

Lemma sql_limit_nil : forall n, sql_limit n [] = [].
Proof.
  intros n. unfold sql_limit. destruct (n <? 0)%Z; [ reflexivity | ].
  apply firstn_nil.
Qed.

Lemma pass_without_rows : forall w,
  select_pending (sync_queue (db w)) = [] ->
  db (snd (ProcessSyncQueue w)) = db w /\
  remote (snd (ProcessSyncQueue w)) = remote w.
Proof.
  intros w Hsel. unfold ProcessSyncQueue, db_call. simpl.
  destruct (faults E (ops w)); simpl; [ now split | ].
  rewrite Hsel. simpl. now split.
Qed.

(** C10. With [MaxRetries = 0] the query of a pass asks for
    [retry_count < 0]: on a queue whose retry counts are not negative (they
    start at 0 and are only incremented) it returns no row.  Whatever the
    number of passes, the queue and every task are left as they were and
    nothing is handed to the remote authority: no operation is delivered,
    no task moves to [error], the queue does not drain. *)
Theorem zero_max_retries_stalls : forall n w,
  MaxRetries cfg = 0 ->
  (forall it, In it (sync_queue (db w)) -> 0 <= SyncQueueItem.RetryCount it) ->
  select_pending (sync_queue (db w)) = [] /\
  db (sync_passes n w) = db w /\
  remote (sync_passes n w) = remote w.
Proof.
  intros n w Hmax Hnonneg.
  assert (Hsel : forall w0, db w0 = db w ->
                   select_pending (sync_queue (db w0)) = []).
  { intros w0 Hdb. rewrite Hdb. unfold select_pending.
    rewrite filter_none; [ apply sql_limit_nil | ].
    intros x Hx. unfold eligible. rewrite Hmax.
    apply Z.ltb_ge. now apply Hnonneg. }
  split; [ now apply Hsel | ].
  assert (Hgen : forall w0, db w0 = db w -> remote w0 = remote w ->
            db (sync_passes n w0) = db w /\
            remote (sync_passes n w0) = remote w).
  { induction n as [|n IH]; intros w0 Hdb Hrem; simpl; [ now split | ].
    destruct (pass_without_rows w0 (Hsel w0 Hdb)) as [Hd Hr].
    apply IH; congruence. }
  now apply Hgen.
Qed.

(** ** What one processing step does to the store *)

Lemma wrap_int_succ : forall z,
  min_int <= z < max_int -> wrap_int (z + 1) = z + 1.
Proof.
  intros z. unfold wrap_int, min_int, max_int.
  change (2 ^ 63) with 9223372036854775808.
  change (2 ^ 64) with 18446744073709551616.
  intros H. rewrite Z.mod_small; lia.
Qed.

Lemma markAsSynced_db : forall item task w,
  db (snd (markAsSynced item task w)) = db w \/
  (fst (markAsSynced item task w) = None /\
   tasks (db (snd (markAsSynced item task w))) =
     map (set_task_synced (clock E (ticks w)) (Task.ID task) (Task.ID task))
         (tasks (db w)) /\
   sync_queue (db (snd (markAsSynced item task w))) =
     delete_sync_queue (SyncQueueItem.ID item) (sync_queue (db w))).
Proof.
  intros item task w. unfold markAsSynced, db_call, time_Now. simpl.
  destruct (faults E (ops w)); simpl; [ now left | ].
  destruct (faults E (S (ops w))); simpl; [ now left | ].
  destruct (faults E (S (S (ops w)))); simpl; [ now left | ].
  destruct (faults E (S (S (S (ops w))))); simpl; [ now left | ].
  right. repeat split.
Qed.

Lemma handleSyncError_db : forall item syncErr w,
  db (snd (handleSyncError item syncErr w)) = db w \/
  (fst (handleSyncError item syncErr w) = None /\
   sync_queue (db (snd (handleSyncError item syncErr w))) =
     map (set_retry (fst (IncrementRetry
            match syncErr with Some e => e | None => "unknown error" end
            item w)))
         (sync_queue (db w)) /\
   (tasks (db (snd (handleSyncError item syncErr w))) = tasks (db w) \/
    (MaxRetries cfg <= wrap_int (SyncQueueItem.RetryCount item + 1) /\
     tasks (db (snd (handleSyncError item syncErr w))) =
       map (set_task_error (SyncQueueItem.TaskID item)) (tasks (db w))))).
Proof.
  intros item syncErr w.
  unfold handleSyncError, IncrementRetry, markTaskAsError, time_Now, db_call.
  simpl.
  destruct (faults E (ops w)); simpl; [ now left | ].
  right.
  destruct (MaxRetries cfg <=? wrap_int (SyncQueueItem.RetryCount item + 1))%Z
    eqn:Hmax; simpl.
  - destruct (faults E (S (ops w))); simpl.
    + repeat split. now left.
    + repeat split. right. split; [ now apply Z.leb_le | reflexivity ].
  - repeat split. now left.
Qed.

Lemma In_set_task_error : forall taskID ts t',
  In t' (map (set_task_error taskID) ts) ->
  (Task.ID t' = taskID /\ Task.Status t' = SyncStatusError) \/
  (Task.ID t' <> taskID /\ In t' ts).
Proof.
  intros taskID ts t' Hin. apply in_map_iff in Hin.
  destruct Hin as [t [Ht Hin]]. unfold set_task_error in Ht.
  destruct (String.eqb (Task.ID t) taskID) eqn:Heq.
  - left. subst t'. simpl. apply String.eqb_eq in Heq. auto.
  - right. subst t'. apply String.eqb_neq in Heq. auto.
Qed.

(** C4. [handleSyncError] (recordFailure), the store accepting its writes.
    The rows with the entry's rowid get the entry's retry count plus one,
    the instant just read from the clock as last attempt and the error
    message (the text of the delivery error, or "unknown error"); no row
    is deleted, so the entry is retained.  If the new count reaches
    [MaxRetries], the owning task's rows are in state [error]; if it is
    still below [MaxRetries], the tasks are untouched, so a pending task
    stays pending. *)
Theorem handleSyncError_bookkeeping : forall item syncErr w,
  min_int <= SyncQueueItem.RetryCount item < max_int ->
  faults E (ops w) = None ->
  faults E (S (ops w)) = None ->
  let w' := snd (handleSyncError item syncErr w) in
  let now := clock E (ticks w) in
  let msg := match syncErr with Some e => e | None => "unknown error" end in
  let retries := SyncQueueItem.RetryCount item + 1 in
  fst (handleSyncError item syncErr w) = None /\
  sync_queue (db w') =
    map (fun row =>
           if (SyncQueueItem.ID row =? SyncQueueItem.ID item)%Z
           then failed_once now msg retries row else row)
        (sync_queue (db w)) /\
  (In item (sync_queue (db w)) ->
   In (failed_once now msg retries item) (sync_queue (db w'))) /\
  List.length (sync_queue (db w')) = List.length (sync_queue (db w)) /\
  (MaxRetries cfg <= retries ->
   tasks (db w') =
     map (set_task_error (SyncQueueItem.TaskID item)) (tasks (db w)) /\
   forall t, In t (tasks (db w')) ->
     Task.ID t = SyncQueueItem.TaskID item ->
     Task.Status t = SyncStatusError) /\
  (retries < MaxRetries cfg -> tasks (db w') = tasks (db w)).
Proof.
  intros item syncErr w Hrange F0 F1. cbv zeta.
  unfold handleSyncError, IncrementRetry, markTaskAsError, time_Now, db_call.
  simpl. rewrite F0. simpl. rewrite (wrap_int_succ _ Hrange).
  set (msg := match syncErr with Some e => e | None => "unknown error" end).
  set (q' := map _ (sync_queue (db w))).
  assert (Hq : q' =
    map (fun row =>
           if (SyncQueueItem.ID row =? SyncQueueItem.ID item)%Z
           then failed_once (clock E (ticks w)) msg
                  (SyncQueueItem.RetryCount item + 1) row
           else row) (sync_queue (db w))).
  { unfold q'. apply map_ext. intros row. unfold set_retry, failed_once.
    simpl. reflexivity. }
  assert (Hin : In item (sync_queue (db w)) ->
    In (failed_once (clock E (ticks w)) msg
          (SyncQueueItem.RetryCount item + 1) item) q').
  { intros Hi. rewrite Hq. apply in_map_iff. exists item.
    rewrite Z.eqb_refl. auto. }
  assert (Hlen : List.length q' = List.length (sync_queue (db w))).
  { unfold q'. apply length_map. }
  destruct (MaxRetries cfg <=? SyncQueueItem.RetryCount item + 1)%Z eqn:Hmax;
    simpl.
  - rewrite F1. simpl. apply Z.leb_le in Hmax.
    split; [ reflexivity | ]. split; [ exact Hq | ].
    split; [ exact Hin | ]. split; [ exact Hlen | ]. split.
    + intros _. split; [ reflexivity | ]. intros t Ht Hid.
      apply In_set_task_error in Ht.
      destruct Ht as [[_ Hs]|[Hne _]]; [ assumption | contradiction ].
    + intros Hlt. lia.
  - apply Z.leb_gt in Hmax.
    split; [ reflexivity | ]. split; [ exact Hq | ].
    split; [ exact Hin | ]. split; [ exact Hlen | ]. split.
    + intros Hle. lia.
    + intros _. reflexivity.
Qed.

Lemma processSyncItem_decode_error : forall item e w,
  GetTaskData item = Err e ->
  processSyncItem item w =
    (Some (wrap_error "failed to parse task data" e), w).
Proof.
  intros item e w H. unfold processSyncItem. rewrite H. reflexivity.
Qed.

Lemma processSyncItem_db : forall item w,
  let w' := snd (processSyncItem item w) in
  db w' = db w \/
  (exists task,
     GetTaskData item = Ok task /\
     Z.rem (clock E (ticks w)) 10 <> 0 /\
     fst (processSyncItem item w) = None /\
     tasks (db w') =
       map (set_task_synced (clock E (S (ticks w))) (Task.ID task)
              (Task.ID task)) (tasks (db w)) /\
     sync_queue (db w') =
       delete_sync_queue (SyncQueueItem.ID item) (sync_queue (db w))) \/
  (exists task item1,
     GetTaskData item = Ok task /\
     SyncQueueItem.ID item1 = SyncQueueItem.ID item /\
     SyncQueueItem.RetryCount item1 =
       wrap_int (SyncQueueItem.RetryCount item + 1) /\
     sync_queue (db w') = map (set_retry item1) (sync_queue (db w)) /\
     (tasks (db w') = tasks (db w) \/
      tasks (db w') =
        map (set_task_error (SyncQueueItem.TaskID item)) (tasks (db w)))).
Proof.
  intros item w. cbv zeta. unfold processSyncItem.
  destruct (GetTaskData item) as [task|e] eqn:Hdec; [ | now left ].
  unfold syncToServer, time_Now. simpl.
  destruct (Z.rem (clock E (ticks w)) 10 =? 0)%Z eqn:Hrem; simpl.
  - match goal with
    | |- context [handleSyncError ?i ?s ?w0] =>
        destruct (handleSyncError_db i s w0) as [H|[_ [Hq Ht]]]
    end.
    + left. exact H.
    + right. right. exists task. eexists.
      split; [ reflexivity | ].
      split; [ | split; [ | split; [ exact Hq | ] ] ].
      * reflexivity.
      * reflexivity.
      * destruct Ht as [Ht|[_ Ht]]; [ now left | now right ].
  - apply Z.eqb_neq in Hrem.
    match goal with
    | |- context [markAsSynced ?i ?t ?w0] =>
        destruct (markAsSynced_db i t w0) as [H|[Hr [Ht Hq]]]
    end.
    + left. exact H.
    + right. left. exists task. simpl in *. auto.
Qed.

(** C1, as the code has it.  A task is marked [synced] by every successful
    delivery of one of its operations, and only by a successful delivery.
    - When the entry's snapshot decodes, the remote authority accepts it
      and the store accepts the transaction, [processSyncItem] returns
      nil, every row of [tasks] with the snapshot's id is [synced], and
      every other queue entry is still queued, the newer entries of the
      same task among them: the queue is not consulted.
    - Conversely, a row that is [synced] after [processSyncItem] and was
      not a row of [tasks] before it has the id of the entry's snapshot,
      and the remote authority accepted the delivery. *)
Theorem synced_by_every_successful_delivery : forall item w,
  let w' := snd (processSyncItem item w) in
  (forall task,
     GetTaskData item = Ok task ->
     Z.rem (clock E (ticks w)) 10 <> 0 ->
     faults E (ops w) = None ->
     faults E (S (ops w)) = None ->
     faults E (S (S (ops w))) = None ->
     faults E (S (S (S (ops w)))) = None ->
     fst (processSyncItem item w) = None /\
     (forall t, In t (tasks (db w')) -> Task.ID t = Task.ID task ->
        Task.Status t = SyncStatusSynced) /\
     (forall other, In other (sync_queue (db w)) ->
        SyncQueueItem.ID other <> SyncQueueItem.ID item ->
        In other (sync_queue (db w')))) /\
  (forall t', In t' (tasks (db w')) ->
     Task.Status t' = SyncStatusSynced ->
     In t' (tasks (db w)) \/
     exists task,
       GetTaskData item = Ok task /\
       Z.rem (clock E (ticks w)) 10 <> 0 /\
       Task.ID t' = Task.ID task).
Proof.
  intros item w. cbv zeta. split.
  - intros task Hdec Hrem F0 F1 F2 F3.
    unfold processSyncItem. rewrite Hdec.
    unfold syncToServer, time_Now. simpl.
    apply Z.eqb_neq in Hrem. rewrite Hrem. simpl.
    unfold markAsSynced, db_call, time_Now. simpl.
    rewrite F0. simpl. rewrite F1. simpl. rewrite F2. simpl.
    rewrite F3. simpl.
    split; [ reflexivity | ]. split.
    + intros t Hin Hid.
      destruct (In_set_task_synced _ _ _ _ _ Hin Hid) as [Hs _]. exact Hs.
    + intros other Hin Hne. apply In_delete_sync_queue. now split.
  - intros t' Hin Hs.
    destruct (processSyncItem_db item w)
      as [Hdb|[[task [Hdec [Hrem [_ [Ht _]]]]]
             |[task [item1 [_ [_ [_ [_ Ht]]]]]]]].
    + left. rewrite <- Hdb. exact Hin.
    + rewrite Ht in Hin. apply in_map_iff in Hin.
      destruct Hin as [t [Heq Hin]]. unfold set_task_synced in Heq.
      destruct (String.eqb (Task.ID t) (Task.ID task)) eqn:Hid.
      * right. exists task. subst t'. simpl.
        apply String.eqb_eq in Hid. auto.
      * left. now subst t'.
    + destruct Ht as [Ht|Ht]; rewrite Ht in Hin.
      * now left.
      * apply In_set_task_error in Hin.
        destruct Hin as [[_ He]|[_ Hin]]; [ congruence | now left ].
Qed.

(** ** The query of a pass *)

Lemma insert_by_created_perm : forall x l,
  Permutation (insert_by_created x l) (x :: l).
Proof.
  intros x l. induction l as [|y l IH]; simpl.
  - apply Permutation_refl.
  - destruct (text_le (SyncQueueItem.CreatedAt x) (SyncQueueItem.CreatedAt y)).
    + apply Permutation_refl.
    + eapply Permutation_trans; [ apply perm_skip, IH | apply perm_swap ].
Qed.

Lemma order_by_created_at_perm : forall l,
  Permutation (order_by_created_at l) l.
Proof.
  induction l as [|x l IH]; simpl.
  - apply Permutation_refl.
  - eapply Permutation_trans; [ apply insert_by_created_perm | ].
    now apply perm_skip.
Qed.

Lemma insert_by_created_sorted : forall x l,
  StronglySorted created_le l ->
  StronglySorted created_le (insert_by_created x l).
Proof.
  intros x l Hs. induction Hs as [|y l Hs IH Hall]; simpl.
  - constructor; constructor.
  - destruct (text_le (SyncQueueItem.CreatedAt x) (SyncQueueItem.CreatedAt y))
      eqn:Hle.
    + constructor.
      * now constructor.
      * constructor; [ exact Hle | ].
        eapply Forall_impl; [ | exact Hall ].
        intros z Hz. unfold created_le in *.
        eapply text_le_trans; eassumption.
    + apply text_le_false in Hle. constructor; [ exact IH | ].
      eapply Permutation_Forall.
      * apply Permutation_sym, insert_by_created_perm.
      * constructor; [ exact Hle | exact Hall ].
Qed.

Lemma order_by_created_at_sorted : forall l,
  StronglySorted created_le (order_by_created_at l).
Proof.
  induction l as [|x l IH]; simpl.
  - constructor.
  - now apply insert_by_created_sorted.
Qed.

Lemma insert_by_created_head : forall x l,
  Forall (created_le x) l -> insert_by_created x l = x :: l.
Proof.
  intros x l H. destruct H as [|y l Hy _]; simpl; [ reflexivity | ].
  unfold created_le in Hy. now rewrite Hy.
Qed.

Lemma order_by_created_at_id : forall l,
  StronglySorted created_le l -> order_by_created_at l = l.
Proof.
  intros l Hs. induction Hs as [|x l Hs IH Hall]; simpl.
  - reflexivity.
  - rewrite IH. now apply insert_by_created_head.
Qed.

Lemma filter_sorted : forall f l,
  StronglySorted created_le l -> StronglySorted created_le (filter f l).
Proof.
  intros f l Hs. induction Hs as [|x l Hs IH Hall]; simpl.
  - constructor.
  - destruct (f x); [ | exact IH ].
    constructor; [ exact IH | ].
    apply Forall_forall. intros z Hz. apply filter_In in Hz.
    rewrite Forall_forall in Hall. now apply Hall.
Qed.

Lemma sql_limit_firstn : forall n l,
  0 <= n -> sql_limit n l = firstn (Z.to_nat n) l.
Proof.
  intros n l Hn. unfold sql_limit.
  destruct (n <? 0)%Z eqn:H; [ apply Z.ltb_lt in H; lia | reflexivity ].
Qed.

Lemma In_firstn_list : forall (A : Type) (n : nat) (l : list A) (x : A),
  In x (firstn n l) -> In x l.
Proof.
  intros A n. induction n as [|n IH]; intros l x H.
  - contradiction.
  - destruct l as [|y l]; [ contradiction | ].
    destruct H as [H|H]; [ now left | right; now apply IH ].
Qed.

Lemma In_sql_limit : forall n l x, In x (sql_limit n l) -> In x l.
Proof.
  intros n l x. unfold sql_limit. destruct (n <? 0)%Z; [ auto | ].
  apply In_firstn_list.
Qed.

Lemma In_eligible : forall q it,
  In it (filter eligible q) <->
  In it q /\ SyncQueueItem.RetryCount it < MaxRetries cfg.
Proof.
  intros q it. rewrite filter_In. unfold eligible.
  rewrite Z.ltb_lt. reflexivity.
Qed.

Lemma In_select_pending : forall q it,
  In it (select_pending q) -> In it q /\ eligible it = true.
Proof.
  intros q it H. unfold select_pending in H. apply In_sql_limit in H.
  eapply Permutation_in in H; [ | apply order_by_created_at_perm ].
  now apply filter_In in H.
Qed.

(** ** What the loops hand to the remote authority *)

Lemma scan_rows_spec : forall rows w,
  fst (scan_rows rows w) =
    filter (fun row =>
              match scan_errors E (SyncQueueItem.ID row) with
              | Some _ => false
              | None => true
              end) rows /\
  db (snd (scan_rows rows w)) = db w /\
  remote (snd (scan_rows rows w)) = remote w.
Proof.
  induction rows as [|row rows IH]; intros w; simpl.
  - auto.
  - destruct (scan_errors E (SyncQueueItem.ID row)).
    + destruct (IH (log_Printf ("Failed to scan sync queue item: " ++ e) w))
        as [H1 [H2 H3]]. auto.
    + destruct (IH w) as [H1 [H2 H3]].
      destruct (scan_rows rows w) as [items w']. simpl in *.
      rewrite H1. auto.
Qed.

Lemma scan_rows_all : forall rows w,
  (forall row, In row rows -> scan_errors E (SyncQueueItem.ID row) = None) ->
  fst (scan_rows rows w) = rows.
Proof.
  intros rows w H. destruct (scan_rows_spec rows w) as [Hf _]. rewrite Hf.
  apply forallb_filter_id. apply forallb_forall. intros row Hin.
  now rewrite (H row Hin).
Qed.

Lemma handleSyncError_remote : forall item syncErr w,
  remote (snd (handleSyncError item syncErr w)) = remote w /\
  log_extends w (snd (handleSyncError item syncErr w)).
Proof.
  intros item syncErr w.
  unfold handleSyncError, IncrementRetry, markTaskAsError, time_Now, db_call,
    log_extends.
  simpl.
  destruct (faults E (ops w)); simpl.
  { split; [ reflexivity | ]. exists []. now rewrite app_nil_r. }
  destruct (MaxRetries cfg <=? _)%Z; simpl.
  - destruct (faults E (S (ops w))); simpl.
    + split; [ reflexivity | ]. eexists. reflexivity.
    + split; [ reflexivity | ]. exists []. now rewrite app_nil_r.
  - split; [ reflexivity | ]. exists []. now rewrite app_nil_r.
Qed.

Lemma markAsSynced_remote : forall item task w,
  remote (snd (markAsSynced item task w)) = remote w /\
  log (snd (markAsSynced item task w)) = log w.
Proof.
  intros item task w. unfold markAsSynced, db_call, time_Now. simpl.
  destruct (faults E (ops w)); simpl; [ now split | ].
  destruct (faults E (S (ops w))); simpl; [ now split | ].
  destruct (faults E (S (S (ops w)))); simpl; [ now split | ].
  destruct (faults E (S (S (S (ops w))))); simpl; now split.
Qed.

Lemma log_extends_refl : forall w, log_extends w w.
Proof. intros w. exists []. now rewrite app_nil_r. Qed.

Lemma log_extends_trans : forall w1 w2 w3,
  log_extends w1 w2 -> log_extends w2 w3 -> log_extends w1 w3.
Proof.
  intros w1 w2 w3 [l1 H1] [l2 H2]. exists (l1 ++ l2)%list.
  rewrite H2, H1. now rewrite app_assoc.
Qed.

Lemma log_extends_In : forall w w' line,
  log_extends w w' -> In line (log w) -> In line (log w').
Proof.
  intros w w' line [l H] Hin. rewrite H. apply in_or_app. now left.
Qed.

Lemma log_Printf_extends : forall line w, log_extends w (log_Printf line w).
Proof. intros line w. exists [line]. reflexivity. Qed.

Lemma In_log_Printf : forall line w, In line (log (log_Printf line w)).
Proof. intros line w. simpl. apply in_or_app. right. now left. Qed.

Lemma processSyncItem_remote : forall item w,
  remote (snd (processSyncItem item w)) =
    (remote w ++
     match GetTaskData item with
     | Ok task =>
         [mkDelivery (SyncQueueItem.Operation item) task
            (negb (Z.rem (clock E (ticks w)) 10 =? 0)%Z)]
     | Err _ => []
     end)%list /\
  log_extends w (snd (processSyncItem item w)).
Proof.
  intros item w. unfold processSyncItem.
  destruct (GetTaskData item) as [task|e]; simpl.
  { unfold syncToServer, time_Now. simpl.
    destruct (Z.rem (clock E (ticks w)) 10 =? 0)%Z; simpl.
    - match goal with
      | |- context [handleSyncError ?i ?s ?w0] =>
          destruct (handleSyncError_remote i s w0) as [Hr Hl]
      end.
      rewrite Hr. split; [ reflexivity | ]. exact Hl.
    - match goal with
      | |- context [markAsSynced ?i ?t ?w0] =>
          destruct (markAsSynced_remote i t w0) as [Hr Hl]
      end.
      rewrite Hr. split; [ reflexivity | ].
      unfold log_extends. rewrite Hl. simpl. eexists. reflexivity. }
  split; [ now rewrite app_nil_r | apply log_extends_refl ].
Qed.

Lemma process_one_remote : forall item w,
  remote (process_one item w) = remote (snd (processSyncItem item w)) /\
  db (process_one item w) = db (snd (processSyncItem item w)) /\
  log_extends w (process_one item w).
Proof.
  intros item w. unfold process_one.
  destruct (processSyncItem_remote item w) as [_ Hl].
  destruct (processSyncItem item w) as [[e|] w1]; simpl in *.
  - repeat split. eapply log_extends_trans; [ exact Hl | ].
    apply log_Printf_extends.
  - now repeat split.
Qed.

Lemma process_items_cons : forall item rest w,
  process_items (item :: rest) w = process_items rest (process_one item w).
Proof.
  intros item rest w. simpl. unfold process_one.
  destruct (processSyncItem item w) as [[e|] w1]; reflexivity.
Qed.

Lemma process_items_app : forall a b w,
  process_items (a ++ b) w = process_items b (process_items a w).
Proof.
  induction a as [|x a IH]; intros b w.
  - reflexivity.
  - rewrite <- app_comm_cons. rewrite !process_items_cons. apply IH.
Qed.

Lemma process_items_log : forall items w,
  log_extends w (process_items items w).
Proof.
  induction items as [|item rest IH]; intros w.
  - apply log_extends_refl.
  - rewrite process_items_cons.
    eapply log_extends_trans; [ | apply IH ].
    apply process_one_remote.
Qed.

Lemma process_items_remote : forall items w,
  exists ds,
    remote (process_items items w) = (remote w ++ ds)%list /\
    map (fun d => (d_op d, d_task d)) ds = deliverable items.
Proof.
  induction items as [|item rest IH]; intros w.
  - exists []. simpl. split; [ now rewrite app_nil_r | reflexivity ].
  - rewrite process_items_cons.
    destruct (IH (process_one item w)) as [ds [Hr Hm]].
    destruct (process_one_remote item w) as [Hp _].
    destruct (processSyncItem_remote item w) as [Hs _].
    rewrite Hp, Hs in Hr. rewrite Hr.
    eexists. rewrite <- app_assoc. split; [ reflexivity | ].
    rewrite map_app, Hm. simpl.
    destruct (GetTaskData item); reflexivity.
Qed.

Lemma handed_over_app : forall w w' ds,
  remote w' = (remote w ++ ds)%list ->
  handed_over w w' = map (fun d => (d_op d, d_task d)) ds.
Proof.
  intros w w' ds H. unfold handed_over. rewrite H.
  rewrite skipn_app, skipn_all, Nat.sub_diag. reflexivity.
Qed.

Lemma pass_hands_over : forall w,
  faults E (ops w) = None ->
  handed_over w (snd (ProcessSyncQueue w)) =
    deliverable
      (fst (scan_rows (select_pending (sync_queue (db w)))
              (snd (db_call w)))).
Proof.
  intros w F0. unfold ProcessSyncQueue.
  unfold db_call at 1. rewrite F0.
  set (w1 := snd (db_call w)).
  change (mkWorld (db w) (ticks w) (S (ops w)) (uuid_count w) (log w)
            (remote w)) with w1.
  change (db w1) with (db w).
  destruct (scan_rows_spec (select_pending (sync_queue (db w))) w1)
    as [_ [_ Hr]].
  destruct (scan_rows (select_pending (sync_queue (db w))) w1)
    as [items w2] eqn:Hscan.
  simpl in *.
  destruct (process_items_remote items w2) as [ds [Hp Hm]].
  rewrite <- Hm. apply handed_over_app. rewrite Hp, Hr. reflexivity.
Qed.

(** C3, as the code has it.  When the queue can be read, the batch size is
    not negative and the rows scan, a pass selects the first
    [SyncBatchSize] rows of the eligible rows (those with
    [retry_count < MaxRetries], and only those) sorted by [created_at]
    ascending, and hands to the remote authority, in that order, the
    entries of the batch whose snapshot decodes.  The order is the order of
    the [created_at] column, that of the texts the driver stored: it is
    the order of the instants on every queue on which the two orders agree
    (the zone offset of the process did not change between the writes),
    and it is insertion order on every queue whose [created_at] text does
    not decrease along the rowids. *)
Theorem pass_delivers_in_created_at_order : forall w,
  faults E (ops w) = None ->
  0 <= SyncBatchSize cfg ->
  (forall row, In row (sync_queue (db w)) ->
     scan_errors E (SyncQueueItem.ID row) = None) ->
  let q := sync_queue (db w) in
  let candidates := order_by_created_at (filter eligible q) in
  let batch := select_pending q in
  batch = firstn (Z.to_nat (SyncBatchSize cfg)) candidates /\
  Permutation candidates (filter eligible q) /\
  StronglySorted created_le candidates /\
  (chronological (map SyncQueueItem.CreatedAt q) ->
   StronglySorted
     (fun a b => SyncQueueItem.CreatedAt a <= SyncQueueItem.CreatedAt b)
     candidates) /\
  (forall it, In it (filter eligible q) <->
     In it q /\ SyncQueueItem.RetryCount it < MaxRetries cfg) /\
  (List.length batch <= Z.to_nat (SyncBatchSize cfg))%nat /\
  handed_over w (snd (ProcessSyncQueue w)) = deliverable batch /\
  (StronglySorted created_le q ->
   batch = firstn (Z.to_nat (SyncBatchSize cfg)) (filter eligible q)).
Proof.
  intros w F0 Hsize Hscan. cbv zeta.
  assert (Hb : select_pending (sync_queue (db w)) =
               firstn (Z.to_nat (SyncBatchSize cfg))
                 (order_by_created_at (filter eligible (sync_queue (db w))))).
  { unfold select_pending. now apply sql_limit_firstn. }
  split; [ exact Hb | ].
  split; [ apply order_by_created_at_perm | ].
  split; [ apply order_by_created_at_sorted | ].
  split.
  { intros Hch. apply sorted_chronologically;
      [ | apply order_by_created_at_sorted ].
    apply (chronological_incl _ _ Hch). intros t Ht.
    apply in_map_iff in Ht. destruct Ht as [it [Heq Hit]]. subst t.
    apply in_map.
    eapply Permutation_in in Hit; [ | apply order_by_created_at_perm ].
    apply filter_In in Hit. apply Hit. }
  split; [ intros it; apply In_eligible | ].
  split; [ rewrite Hb; apply firstn_le_length | ].
  split.
  - rewrite (pass_hands_over w F0). f_equal. apply scan_rows_all.
    intros row Hin. apply Hscan.
    now apply In_select_pending in Hin.
  - intros Hsorted. rewrite Hb. f_equal.
    apply order_by_created_at_id. now apply filter_sorted.
Qed.

(** C2, as the code has it.  [ResolveConflicts] compares no timestamps and
    selects no operation: it writes one log line and returns nil, and the
    store and the remote authority are as before.  Every queued operation,
    whatever its kind and whatever the [updated_at] of its snapshot, is
    still queued and still selected by the next pass exactly as it would
    have been without the call; and when the query of that pass succeeds,
    the pass hands to the remote authority every entry it selects that
    scans and decodes: an update and a delete of one task both, when both
    are in its batch. *)
Theorem ResolveConflicts_selects_nothing : forall w,
  let w' := snd (ResolveConflicts w) in
  fst (ResolveConflicts w) = None /\
  db w' = db w /\
  remote w' = remote w /\
  select_pending (sync_queue (db w')) = select_pending (sync_queue (db w)) /\
  log w' =
    (log w ++
     ["Conflict resolution completed using last-write-wins strategy"])%list /\
  (faults E (ops w') = None ->
   forall row task,
     In row (select_pending (sync_queue (db w))) ->
     scan_errors E (SyncQueueItem.ID row) = None ->
     GetTaskData row = Ok task ->
     In (SyncQueueItem.Operation row, task)
        (handed_over w' (snd (ProcessSyncQueue w')))).
Proof.
  intros w. cbv zeta. unfold ResolveConflicts at 1 2 3 4 5.
  cbn [fst snd db remote log log_Printf].
  split; [ reflexivity | ]. split; [ reflexivity | ].
  split; [ reflexivity | ]. split; [ reflexivity | ].
  split; [ reflexivity | ].
  intros F0 row task Hsel Hscan Hdata.
  rewrite (pass_hands_over _ F0).
  destruct (scan_rows_spec
              (select_pending
                 (sync_queue (db (snd (ResolveConflicts w)))))
              (snd (db_call (snd (ResolveConflicts w))))) as [Hitems _].
  rewrite Hitems. unfold deliverable. apply in_flat_map.
  exists row. split.
  - apply filter_In. split; [ exact Hsel | now rewrite Hscan ].
  - rewrite Hdata. now left.
Qed.

Lemma scan_rows_log : forall rows w,
  log_extends w (snd (scan_rows rows w)) /\
  forall row e, In row rows ->
    scan_errors E (SyncQueueItem.ID row) = Some e ->
    In ("Failed to scan sync queue item: " ++ e) (log (snd (scan_rows rows w))).
Proof.
  induction rows as [|row rows IH]; intros w; simpl.
  - split; [ apply log_extends_refl | intros ? ? [] ].
  - destruct (scan_errors E (SyncQueueItem.ID row)) as [e0|] eqn:Hs.
    + destruct (IH (log_Printf ("Failed to scan sync queue item: " ++ e0) w))
        as [Hl Hin].
      split.
      * eapply log_extends_trans; [ apply log_Printf_extends | exact Hl ].
      * intros r e [Hr|Hr] He.
        -- subst r. rewrite Hs in He. injection He as <-.
           eapply log_extends_In; [ exact Hl | apply In_log_Printf ].
        -- now apply Hin with (row := r).
    + destruct (IH w) as [Hl Hin].
      destruct (scan_rows rows w) as [items w'] eqn:Hsr. simpl in *.
      split; [ exact Hl | ].
      intros r e [Hr|Hr] He.
      * subst r. congruence.
      * now apply Hin with (row := r).
Qed.

Lemma process_items_logs_decode_errors : forall items w it e,
  In it items ->
  GetTaskData it = Err e ->
  In ("Failed to process sync item " ++ fmt_int (SyncQueueItem.ID it) ++
      ": " ++ wrap_error "failed to parse task data" e)
     (log (process_items items w)).
Proof.
  induction items as [|item rest IH]; intros w it e Hin Hdec.
  - contradiction.
  - rewrite process_items_cons. destruct Hin as [Heq|Hin].
    + subst item. eapply log_extends_In; [ apply process_items_log | ].
      unfold process_one. rewrite (processSyncItem_decode_error _ _ w Hdec).
      apply In_log_Printf.
    + now apply IH.
Qed.

Lemma ProcessSyncQueue_ok : forall w,
  faults E (ops w) = None ->
  ProcessSyncQueue w =
    (None,
     process_items
       (fst (scan_rows (select_pending (sync_queue (db w))) (snd (db_call w))))
       (snd (scan_rows (select_pending (sync_queue (db w)))
               (snd (db_call w))))).
Proof.
  intros w F0. unfold ProcessSyncQueue. unfold db_call at 1. rewrite F0.
  unfold db_call. simpl.
  destruct (scan_rows _ _) as [items w2]. reflexivity.
Qed.

Lemma ProcessSyncQueue_unreadable : forall w e,
  faults E (ops w) = Some e ->
  ProcessSyncQueue w =
    (Some (wrap_error "failed to query sync queue" e), snd (db_call w)).
Proof.
  intros w e F0. unfold ProcessSyncQueue, db_call. rewrite F0. reflexivity.
Qed.

(** C7. A pass fails only when its query fails, and [TriggerSync] answers
    500 exactly then and 200 otherwise: no failure of an entry reaches the
    caller.  When the queue can be read:
    - a selected row that does not scan is logged and left out of the
      batch;
    - whatever [processSyncItem] returns for an entry of the batch, the
      loop goes on with the entries after it from the state that entry
      left, and the error, if any, is logged;
    - the remote authority is handed every entry of the batch whose
      snapshot decodes, whatever happened to the entries before it. *)
Theorem item_errors_are_contained : forall w,
  let w' := snd (ProcessSyncQueue w) in
  let rows := select_pending (sync_queue (db w)) in
  let items := fst (scan_rows rows (snd (db_call w))) in
  let w2 := snd (scan_rows rows (snd (db_call w))) in
  (fst (ProcessSyncQueue w) = None <-> faults E (ops w) = None) /\
  (resp_code (fst (TriggerSync w)) = StatusOK <->
   faults E (ops w) = None) /\
  (resp_code (fst (TriggerSync w)) = StatusInternalServerError <->
   faults E (ops w) <> None) /\
  (faults E (ops w) = None ->
   (forall row e, In row rows ->
      scan_errors E (SyncQueueItem.ID row) = Some e ->
      In ("Failed to scan sync queue item: " ++ e) (log w') /\
      ~ In row items) /\
   (forall a it b, items = (a ++ it :: b)%list ->
      w' = process_items b (process_one it (process_items a w2)) /\
      forall e, fst (processSyncItem it (process_items a w2)) = Some e ->
        In ("Failed to process sync item " ++
            fmt_int (SyncQueueItem.ID it) ++ ": " ++ e) (log w')) /\
   handed_over w w' = deliverable items).
Proof.
  intros w. cbv zeta.
  destruct (faults E (ops w)) as [e|] eqn:F0.
  - unfold TriggerSync. rewrite (ProcessSyncQueue_unreadable w e F0). simpl.
    unfold StatusOK, StatusInternalServerError.
    repeat split; try discriminate; try congruence.
  - unfold TriggerSync. rewrite (ProcessSyncQueue_ok w F0).
    cbn [fst snd resp_code].
    unfold StatusOK, StatusInternalServerError.
    split; [ split; reflexivity | ].
    split; [ split; reflexivity | ].
    split; [ split; [ discriminate | congruence ] | ].
    intros _.
    set (rows := select_pending (sync_queue (db w))).
    set (w1 := snd (db_call w)).
    destruct (scan_rows_log rows w1) as [_ Hscanlog].
    destruct (scan_rows_spec rows w1) as [Hitems _].
    split; [ | split ].
    + intros row e Hin He. split.
      * eapply log_extends_In; [ apply process_items_log | ].
        now apply Hscanlog with (row := row).
      * rewrite Hitems. intros Hf. apply filter_In in Hf.
        rewrite He in Hf. destruct Hf; discriminate.
    + intros a it b Heq. rewrite Heq.
      rewrite process_items_app, process_items_cons.
      split; [ reflexivity | ].
      intros e He. eapply log_extends_In; [ apply process_items_log | ].
      unfold process_one.
      destruct (processSyncItem it (process_items a (snd (scan_rows rows w1))))
        as [[e'|] w3]; simpl in He; [ | discriminate ].
      injection He as ->. apply In_log_Printf.
    + pose proof (pass_hands_over w F0) as H.
      rewrite (ProcessSyncQueue_ok w F0) in H. exact H.
Qed.

(** ** How the queue evolves under processing *)

Lemma same_row_refl : forall x, same_row x x.
Proof. intros x. unfold same_row. auto. Qed.

Lemma same_row_trans : forall x y z,
  same_row x y -> same_row y z -> same_row x z.
Proof.
  unfold same_row. intros x y z [H1 [H2 H3]] [H4 [H5 H6]].
  repeat split; congruence.
Qed.

Lemma shrinks_refl : forall q, shrinks q q.
Proof.
  induction q as [|x q IH]; [ constructor | ].
  apply shrinks_keep; [ apply same_row_refl | auto | exact IH ].
Qed.

Lemma shrinks_trans : forall a b c, shrinks a b -> shrinks b c -> shrinks a c.
Proof.
  intros a b c Hab. revert c.
  induction Hab as [|x q q' Hab IH|x x' q q' Hrow Hel Hab IH]; intros c Hbc.
  - exact Hbc.
  - apply shrinks_drop. apply IH. exact Hbc.
  - inversion Hbc as [|y r r' Hr|y y' r r' Hrow' Hel' Hr]; subst.
    + apply shrinks_drop. apply IH. exact Hr.
    + apply shrinks_keep.
      * eapply same_row_trans; eauto.
      * auto.
      * apply IH. exact Hr.
Qed.

Lemma shrinks_filter : forall f q, shrinks q (filter f q).
Proof.
  intros f. induction q as [|x q IH]; simpl; [ constructor | ].
  destruct (f x).
  - apply shrinks_keep; [ apply same_row_refl | auto | exact IH ].
  - apply shrinks_drop. exact IH.
Qed.

Lemma shrinks_map : forall g q,
  (forall x, In x q ->
     same_row x (g x) /\ (eligible (g x) = true -> eligible x = true)) ->
  shrinks q (map g q).
Proof.
  intros g. induction q as [|x q IH]; intros H; simpl; [ constructor | ].
  destruct (H x (or_introl eq_refl)) as [Hrow Hel].
  apply shrinks_keep; [ exact Hrow | exact Hel | ].
  apply IH. intros y Hy. apply H. now right.
Qed.

Lemma shrinks_In : forall q q' x',
  shrinks q q' -> In x' q' -> exists x, In x q /\ same_row x x'.
Proof.
  intros q q' x' H. induction H as [|x q q' H IH|x y q q' Hrow Hel H IH];
    intros Hin.
  - contradiction.
  - destruct (IH Hin) as [z [Hz Hr]]. exists z. split; [ now right | exact Hr ].
  - destruct Hin as [Heq|Hin].
    + subst y. exists x. split; [ now left | exact Hrow ].
    + destruct (IH Hin) as [z [Hz Hr]]. exists z.
      split; [ now right | exact Hr ].
Qed.







Lemma NoDup_row_ids_filter : forall f q,
  NoDup (row_ids q) -> NoDup (row_ids (filter f q)).
Proof.
  intros f. induction q as [|x q IH]; intros H; simpl; [ constructor | ].
  inversion H as [|? ? Hnotin Hnd]; subst.
  destruct (f x); simpl.
  - constructor; [ | now apply IH ].
    intros Hin. apply Hnotin. unfold row_ids in *.
    apply in_map_iff in Hin. destruct Hin as [y [Hy Hin]].
    apply filter_In in Hin. apply in_map_iff. exists y. now split.
  - now apply IH.
Qed.

Lemma NoDup_row_ids_firstn : forall n q,
  NoDup (row_ids q) -> NoDup (row_ids (firstn n q)).
Proof.
  induction n as [|n IH]; intros q H; [ constructor | ].
  destruct q as [|x q]; simpl; [ constructor | ].
  inversion H as [|? ? Hnotin Hnd]; subst.
  constructor; [ | now apply IH ].
  intros Hin. apply Hnotin. unfold row_ids in *.
  apply in_map_iff in Hin. destruct Hin as [y [Hy Hin]].
  apply In_firstn_list in Hin. apply in_map_iff. exists y. now split.
Qed.

Lemma NoDup_row_ids_order : forall q,
  NoDup (row_ids q) -> NoDup (row_ids (order_by_created_at q)).
Proof.
  intros q H. eapply Permutation_NoDup; [ | exact H ].
  unfold row_ids. apply Permutation_map, Permutation_sym.
  apply order_by_created_at_perm.
Qed.

Lemma NoDup_row_ids_select_pending : forall q,
  NoDup (row_ids q) -> NoDup (row_ids (select_pending q)).
Proof.
  intros q H. unfold select_pending, sql_limit.
  assert (Hn : NoDup (row_ids (order_by_created_at (filter eligible q)))).
  { now apply NoDup_row_ids_order, NoDup_row_ids_filter. }
  destruct (SyncBatchSize cfg <? 0)%Z; [ exact Hn | ].
  now apply NoDup_row_ids_firstn.
Qed.

(** Two rows of a table with the same rowid are one row. *)
Lemma row_of_id : forall q x y,
  NoDup (row_ids q) -> In x q -> In y q ->
  SyncQueueItem.ID x = SyncQueueItem.ID y -> x = y.
Proof.
  induction q as [|z q IH]; intros x y Hnd Hx Hy Hid; [ contradiction | ].
  inversion Hnd as [|? ? Hnotin Hnd']; subst.
  destruct Hx as [Hx|Hx], Hy as [Hy|Hy]; subst.
  - reflexivity.
  - exfalso. apply Hnotin. rewrite Hid. unfold row_ids. now apply in_map.
  - exfalso. apply Hnotin. rewrite <- Hid. unfold row_ids. now apply in_map.
  - now apply IH.
Qed.




Lemma set_retry_same_row : forall item1 x, same_row x (set_retry item1 x).
Proof.
  intros item1 x. unfold set_retry, same_row.
  destruct (SyncQueueItem.ID x =? SyncQueueItem.ID item1)%Z; simpl; auto.
Qed.

Lemma set_retry_other : forall item1 x,
  SyncQueueItem.ID x <> SyncQueueItem.ID item1 -> set_retry item1 x = x.
Proof.
  intros item1 x H. unfold set_retry.
  apply Z.eqb_neq in H. now rewrite H.
Qed.

Lemma row_ids_map_set_retry : forall item1 q,
  row_ids (map (set_retry item1) q) = row_ids q.
Proof.
  intros item1 q. unfold row_ids. rewrite map_map. apply map_ext.
  intros x. apply (set_retry_same_row item1 x).
Qed.

Lemma no_new_error_refl : forall P ts, no_new_error P ts ts.
Proof.
  intros P ts t' Hin Hs. right. exists t'. auto.
Qed.

Lemma no_new_error_trans : forall P ts1 ts2 ts3,
  no_new_error P ts1 ts2 -> no_new_error P ts2 ts3 -> no_new_error P ts1 ts3.
Proof.
  intros P ts1 ts2 ts3 H12 H23 t3 Hin Hs.
  destruct (H23 t3 Hin Hs) as [Hp|[t2 [Hin2 [Hid2 Hs2]]]]; [ now left | ].
  destruct (H12 t2 Hin2 Hs2) as [Hp|[t1 [Hin1 [Hid1 Hs1]]]].
  - left. now rewrite <- Hid2.
  - right. exists t1. repeat split; congruence.
Qed.

Lemma no_new_error_weaken : forall (P P' : string -> Prop) ts ts',
  (forall id, P' id -> P id) -> no_new_error P' ts ts' -> no_new_error P ts ts'.
Proof.
  intros P P' ts ts' Himp H t' Hin Hs.
  destruct (H t' Hin Hs) as [Hp|Hold]; [ left; now apply Himp | now right ].
Qed.

Lemma other_entry_shrinks : forall e q q' id,
  shrinks q q' -> other_entry_of e q' id -> other_entry_of e q id.
Proof.
  intros e q q' id Hsh [other' [Hin [Hid Ht]]].
  destruct (shrinks_In _ _ _ Hsh Hin) as [other [Ho [Hi [Htask _]]]].
  exists other. repeat split; [ exact Ho | congruence | congruence ].
Qed.

(** One turn of the loop of a pass, from a state satisfying the loop's
    invariant: the invariant holds for the rest of the batch, the queue
    has only shrunk, an entry whose snapshot does not decode is still a row
    of the queue, and a task newly in state [error] has a queued entry
    other than that one. *)
Lemma process_one_step : forall item rest w,
  batch_ready (item :: rest) w ->
  batch_ready rest (process_one item w) /\
  shrinks (sync_queue (db w)) (sync_queue (db (process_one item w))) /\
  (forall e err, In e (sync_queue (db w)) -> GetTaskData e = Err err ->
     In e (sync_queue (db (process_one item w))) /\
     no_new_error (other_entry_of e (sync_queue (db w)))
       (tasks (db w)) (tasks (db (process_one item w)))).
Proof.
  intros item rest w [Hnd [Hndi Hitems]].
  destruct (process_one_remote item w) as [_ [Hdb _]].
  unfold batch_ready. rewrite Hdb. clear Hdb.
  inversion Hndi as [|? ? Hnotin Hndr]; subst.
  destruct (Hitems item (or_introl eq_refl)) as [Hitem_in Hitem_el].
  assert (Hrest_id : forall it, In it rest ->
            SyncQueueItem.ID it <> SyncQueueItem.ID item).
  { intros it Hin Heq. apply Hnotin. rewrite <- Heq.
    unfold row_ids. now apply in_map. }
  assert (Hundec : forall e err task, In e (sync_queue (db w)) ->
            GetTaskData e = Err err -> GetTaskData item = Ok task ->
            SyncQueueItem.ID e <> SyncQueueItem.ID item).
  { intros e err task Hin He Hi Heq.
    assert (e = item) by exact (row_of_id _ _ _ Hnd Hin Hitem_in Heq).
    subst e. congruence. }
  destruct (processSyncItem_db item w)
    as [Hsame|[[task [Hdec [_ [_ [Ht Hq]]]]]
              |[task [item1 [Hdec [Hid1 [_ [Hq Ht]]]]]]]].
  - (* the store is unchanged *)
    rewrite Hsame. split; [ | split ].
    + split; [ exact Hnd | ]. split; [ exact Hndr | ].
      intros it Hin. apply Hitems. now right.
    + apply shrinks_refl.
    + intros e err Hin He. split; [ exact Hin | ].
      apply no_new_error_refl.
  - (* delivered: the rows of the entry are deleted *)
    rewrite Hq, Ht. split; [ | split ].
    + split; [ now apply NoDup_row_ids_filter | ].
      split; [ exact Hndr | ].
      intros it Hin. destruct (Hitems it (or_intror Hin)) as [Hi He].
      split; [ | exact He ].
      apply In_delete_sync_queue. split; [ exact Hi | now apply Hrest_id ].
    + apply shrinks_filter.
    + intros e err Hin He. split.
      * apply In_delete_sync_queue. split; [ exact Hin | ].
        now apply (Hundec e err task).
      * intros t' Hin' Hs. right. apply in_map_iff in Hin'.
        destruct Hin' as [t [Heq Hint]]. unfold set_task_synced in Heq.
        destruct (String.eqb (Task.ID t) (Task.ID task)).
        -- subst t'. simpl in Hs. discriminate.
        -- subst t'. exists t. auto.
  - (* failed: the rows of the entry get new retry bookkeeping *)
    rewrite Hq. split; [ | split ].
    + split; [ now rewrite row_ids_map_set_retry | ].
      split; [ exact Hndr | ].
      intros it Hin. destruct (Hitems it (or_intror Hin)) as [Hi He].
      split; [ | exact He ].
      apply in_map_iff. exists it. split; [ | exact Hi ].
      apply set_retry_other. rewrite Hid1. now apply Hrest_id.
    + apply shrinks_map. intros x Hx.
      split; [ apply set_retry_same_row | ].
      destruct (Z.eq_dec (SyncQueueItem.ID x) (SyncQueueItem.ID item))
        as [Heq|Hne].
      * assert (x = item) by exact (row_of_id _ _ _ Hnd Hx Hitem_in Heq).
        subst x.
        intros _. exact Hitem_el.
      * rewrite set_retry_other; [ auto | now rewrite Hid1 ].
    + intros e err Hin He.
      assert (Hne : SyncQueueItem.ID e <> SyncQueueItem.ID item)
        by now apply (Hundec e err task).
      split.
      * apply in_map_iff. exists e. split; [ | exact Hin ].
        apply set_retry_other. now rewrite Hid1.
      * destruct Ht as [Ht|Ht]; rewrite Ht.
        -- apply no_new_error_refl.
        -- intros t' Hin' Hs. apply In_set_task_error in Hin'.
           destruct Hin' as [[Hid _]|[_ Hint]].
           ++ left. exists item. split; [ exact Hitem_in | ].
              split; [ | now symmetry ].
              intros Heq. apply Hne. now symmetry.
           ++ right. exists t'. auto.
Qed.

Lemma process_items_invariant : forall items w,
  batch_ready items w ->
  NoDup (row_ids (sync_queue (db (process_items items w)))) /\
  shrinks (sync_queue (db w)) (sync_queue (db (process_items items w))) /\
  (forall e err, In e (sync_queue (db w)) -> GetTaskData e = Err err ->
     In e (sync_queue (db (process_items items w))) /\
     no_new_error (other_entry_of e (sync_queue (db w)))
       (tasks (db w)) (tasks (db (process_items items w)))).
Proof.
  induction items as [|item rest IH]; intros w Hready.
  - simpl. split; [ apply Hready | ]. split; [ apply shrinks_refl | ].
    intros e err Hin He. split; [ exact Hin | ].
    apply no_new_error_refl.
  - rewrite process_items_cons.
    destruct (process_one_step item rest w Hready) as [Hready1 [Hsh1 Hkeep1]].
    destruct (IH _ Hready1) as [Hnd [Hsh Hkeep]].
    split; [ exact Hnd | ].
    split; [ eapply shrinks_trans; eauto | ].
    intros e err Hin He.
    destruct (Hkeep1 e err Hin He) as [Hin1 Hne1].
    destruct (Hkeep e err Hin1 He) as [Hin2 Hne2].
    split; [ exact Hin2 | ].
    eapply no_new_error_trans; [ exact Hne1 | ].
    eapply no_new_error_weaken; [ | exact Hne2 ].
    intros id. now apply other_entry_shrinks.
Qed.

Lemma pass_invariant : forall w,
  NoDup (row_ids (sync_queue (db w))) ->
  NoDup (row_ids (sync_queue (db (snd (ProcessSyncQueue w))))) /\
  shrinks (sync_queue (db w)) (sync_queue (db (snd (ProcessSyncQueue w)))) /\
  (forall e err, In e (sync_queue (db w)) -> GetTaskData e = Err err ->
     In e (sync_queue (db (snd (ProcessSyncQueue w)))) /\
     no_new_error (other_entry_of e (sync_queue (db w)))
       (tasks (db w)) (tasks (db (snd (ProcessSyncQueue w))))).
Proof.
  intros w Hnd. destruct (faults E (ops w)) as [e0|] eqn:F0.
  - rewrite (ProcessSyncQueue_unreadable w e0 F0). simpl.
    split; [ exact Hnd | ]. split; [ apply shrinks_refl | ].
    intros e err Hin He. split; [ exact Hin | ].
    apply no_new_error_refl.
  - rewrite (ProcessSyncQueue_ok w F0). cbn [snd].
    set (rows := select_pending (sync_queue (db w))).
    set (w1 := snd (db_call w)).
    destruct (scan_rows_spec rows w1) as [Hitems [Hdb _]].
    change (db w1) with (db w) in Hdb.
    rewrite <- Hdb.
    apply process_items_invariant.
    unfold batch_ready. rewrite Hdb, Hitems.
    split; [ exact Hnd | ].
    split; [ now apply NoDup_row_ids_filter, NoDup_row_ids_select_pending | ].
    intros it Hin. apply filter_In in Hin. destruct Hin as [Hin _].
    now apply In_select_pending.
Qed.



(** ** The queues the program produces

    [queue_ok] holds of the empty queue and is preserved by every
    operation: the hypotheses on rowids and retry counts made above are
    invariants of the store. *)

Lemma max_rowid_bound : forall q it,
  In it q -> SyncQueueItem.ID it <= max_rowid q.
Proof.
  induction q as [|x q IH]; intros it Hin; [ contradiction | ].
  simpl. destruct Hin as [Heq|Hin].
  - subst x. lia.
  - specialize (IH it Hin). lia.
Qed.

Lemma queue_ok_enqueue : forall q seq taskID opType data now,
  queue_ok q ->
  queue_ok (q ++ [SyncQueueItem.mk (Z.max seq (max_rowid q) + 1) taskID
                    opType data 0 now None None])%list.
Proof.
  intros q seq taskID opType data now [Hnd Hnonneg]. split.
  - unfold row_ids. rewrite map_app. simpl.
    eapply Permutation_NoDup; [ apply Permutation_cons_append | ].
    constructor; [ | exact Hnd ].
    intros Hin. apply in_map_iff in Hin. destruct Hin as [it [Hid Hin]].
    apply max_rowid_bound in Hin. lia.
  - intros it Hin. apply in_app_or in Hin. destruct Hin as [Hin|[Heq|[]]].
    + now apply Hnonneg.
    + subst it. simpl. lia.
Qed.

Lemma AddToQueueTx_queue_ok : forall tx taskID opType task w,
  queue_ok (sync_queue tx) ->
  match fst (AddToQueueTx tx taskID opType task w) with
  | Ok tx' => queue_ok (sync_queue tx')
  | Err _ => True
  end.
Proof.
  intros tx taskID opType task w Hok.
  pose proof (AddToQueueTx_spec tx taskID opType task w) as H.
  destruct (AddToQueueTx tx taskID opType task w) as [[tx'|e] w']; simpl;
    [ | exact I ].
  destruct H as [_ [data [_ [_ Hq]]]]. rewrite Hq.
  now apply queue_ok_enqueue.
Qed.

Lemma process_one_nonneg : forall item rest w,
  MaxRetries cfg <= max_int ->
  batch_ready (item :: rest) w ->
  (forall it, In it (sync_queue (db w)) -> 0 <= SyncQueueItem.RetryCount it) ->
  forall it, In it (sync_queue (db (process_one item w))) ->
    0 <= SyncQueueItem.RetryCount it.
Proof.
  intros item rest w Hmax [Hnd [_ Hitems]] Hnonneg it.
  destruct (process_one_remote item w) as [_ [Hdb _]]. rewrite Hdb.
  destruct (Hitems item (or_introl eq_refl)) as [Hitem_in Hitem_el].
  destruct (processSyncItem_db item w)
    as [Hsame|[[task [_ [_ [_ [_ Hq]]]]]
              |[task [item1 [_ [Hid1 [Hrc [Hq _]]]]]]]].
  - rewrite Hsame. apply Hnonneg.
  - rewrite Hq. intros Hin. apply In_delete_sync_queue in Hin.
    now apply Hnonneg.
  - rewrite Hq. intros Hin. apply in_map_iff in Hin.
    destruct Hin as [x [Heq Hx]]. subst it. unfold set_retry.
    destruct (SyncQueueItem.ID x =? SyncQueueItem.ID item1)%Z;
      [ simpl | now apply Hnonneg ].
    rewrite Hrc. specialize (Hnonneg item Hitem_in).
    unfold eligible in Hitem_el. apply Z.ltb_lt in Hitem_el.
    rewrite wrap_int_succ; [ lia | ].
    unfold min_int, max_int in *. lia.
Qed.

Lemma process_items_nonneg : forall items w,
  MaxRetries cfg <= max_int ->
  batch_ready items w ->
  (forall it, In it (sync_queue (db w)) -> 0 <= SyncQueueItem.RetryCount it) ->
  forall it, In it (sync_queue (db (process_items items w))) ->
    0 <= SyncQueueItem.RetryCount it.
Proof.
  induction items as [|item rest IH]; intros w Hmax Hready Hnonneg.
  - exact Hnonneg.
  - rewrite process_items_cons.
    destruct (process_one_step item rest w Hready) as [Hready1 _].
    apply IH; [ exact Hmax | exact Hready1 | ].
    now apply (process_one_nonneg item rest w).
Qed.

(** Every operation of the two services keeps the queue well formed. *)
Lemma queue_ok_preserved : forall w,
  queue_ok (sync_queue (db w)) ->
  (MaxRetries cfg <= max_int ->
   queue_ok (sync_queue (db (snd (ProcessSyncQueue w))))) /\
  (forall req, queue_ok (sync_queue (db (snd (CreateTask req w))))) /\
  (forall id req, queue_ok (sync_queue (db (snd (UpdateTask id req w))))) /\
  (forall id, queue_ok (sync_queue (db (snd (DeleteTask id w))))).
Proof.
  intros w Hok. split; [ | split; [ | split ] ].
  - intros Hmax. destruct Hok as [Hnd Hnonneg].
    split; [ now apply pass_invariant | ].
    destruct (faults E (ops w)) as [e0|] eqn:F0.
    + rewrite (ProcessSyncQueue_unreadable w e0 F0). exact Hnonneg.
    + rewrite (ProcessSyncQueue_ok w F0). cbn [snd].
      set (rows := select_pending (sync_queue (db w))).
      set (w1 := snd (db_call w)).
      destruct (scan_rows_spec rows w1) as [Hitems [Hdb _]].
      change (db w1) with (db w) in Hdb.
      apply process_items_nonneg; [ exact Hmax | | now rewrite Hdb ].
      unfold batch_ready. rewrite Hdb, Hitems.
      split; [ exact Hnd | ].
      split; [ now apply NoDup_row_ids_filter, NoDup_row_ids_select_pending
             | ].
      intros it Hin. apply filter_In in Hin. destruct Hin as [Hin _].
      now apply In_select_pending.
  - intros req. unfold CreateTask, NewTask, time_Now, uuid_New, db_call.
    simpl.
    destruct (faults E (ops w)); simpl; [ exact Hok | ].
    destruct (faults E (S (ops w))); simpl; [ exact Hok | ].
    unfold insert_task.
    destruct (existsb _ (tasks (db w))); simpl; [ exact Hok | ].
    match goal with
    | |- context [AddToQueueTx ?tx ?i ?o ?t ?w0] =>
        pose proof (AddToQueueTx_spec tx i o t w0) as Hq;
        pose proof (AddToQueueTx_queue_ok tx i o t w0 Hok) as Hq';
        destruct (AddToQueueTx tx i o t w0) as [[tx2|e] w3]
    end; simpl in *; [ | now rewrite Hq ].
    destruct Hq as [Hdb _].
    unfold db_call. destruct (faults E (ops w3)); simpl;
      [ now rewrite Hdb | exact Hq' ].
  - intros id req. unfold UpdateTask, GetTaskByID, db_call. simpl.
    destruct (faults E (ops w)); simpl; [ exact Hok | ].
    destruct (faults E (S (ops w))); simpl; [ exact Hok | ].
    destruct (find _ (tasks (db w))) as [task0|]; simpl; [ | exact Hok ].
    unfold Task_Update, time_Now. simpl.
    destruct (faults E (S (S (ops w)))); simpl; [ exact Hok | ].
    destruct (Nat.eqb _ 0); simpl; [ exact Hok | ].
    match goal with
    | |- context [AddToQueueTx ?tx ?i ?o ?t ?w0] =>
        pose proof (AddToQueueTx_spec tx i o t w0) as Hq;
        pose proof (AddToQueueTx_queue_ok tx i o t w0 Hok) as Hq';
        destruct (AddToQueueTx tx i o t w0) as [[tx2|e] w3]
    end; simpl in *; [ | now rewrite Hq ].
    destruct Hq as [Hdb _].
    unfold db_call. destruct (faults E (ops w3)); simpl;
      [ now rewrite Hdb | exact Hq' ].
  - intros id. unfold DeleteTask, GetTaskByID, db_call. simpl.
    destruct (faults E (ops w)); simpl; [ exact Hok | ].
    destruct (faults E (S (ops w))); simpl; [ exact Hok | ].
    destruct (find _ (tasks (db w))) as [task0|]; simpl; [ | exact Hok ].
    unfold Task_SoftDelete, time_Now. simpl.
    destruct (faults E (S (S (ops w)))); simpl; [ exact Hok | ].
    destruct (Nat.eqb _ 0); simpl; [ exact Hok | ].
    match goal with
    | |- context [AddToQueueTx ?tx ?i ?o ?t ?w0] =>
        pose proof (AddToQueueTx_spec tx i o t w0) as Hq;
        pose proof (AddToQueueTx_queue_ok tx i o t w0 Hok) as Hq';
        destruct (AddToQueueTx tx i o t w0) as [[tx2|e] w3]
    end; simpl in *; [ | now rewrite Hq ].
    destruct Hq as [Hdb _].
    unfold db_call. destruct (faults E (ops w3)); simpl;
      [ now rewrite Hdb | exact Hq' ].
Qed.

(** ** The task service *)

Lemma find_map_same : forall (p : Task.t -> bool) (f : Task.t -> Task.t) l,
  (forall x, p (f x) = p x) ->
  find p (map f l) = option_map f (find p l).
Proof.
  intros p f l H. induction l as [|x l IH]; simpl; [ reflexivity | ].
  rewrite H. destruct (p x); [ reflexivity | exact IH ].
Qed.

Lemma find_app_last : forall (p : Task.t -> bool) l x,
  (forall y, In y l -> p y = false) -> p x = true ->
  find p (l ++ [x])%list = Some x.
Proof.
  intros p l x Hl Hx. induction l as [|y l IH]; simpl.
  - now rewrite Hx.
  - rewrite (Hl y (or_introl eq_refl)). apply IH.
    intros z Hz. apply Hl. now right.
Qed.

Lemma find_none_when : forall (p : Task.t -> bool) l,
  (forall y, In y l -> p y = false) -> find p l = None.
Proof.
  intros p l H. induction l as [|y l IH]; simpl; [ reflexivity | ].
  rewrite (H y (or_introl eq_refl)). apply IH.
  intros z Hz. apply H. now right.
Qed.

Lemma update_matches_update_task_row : forall task id id' t,
  update_matches id' (update_task_row task id t) = update_matches id' t.
Proof.
  intros task id id' t. unfold update_task_row.
  destruct (update_matches id t); reflexivity.
Qed.

(** A successful [CreateTask], read off the code. *)
Lemma CreateTask_ok : forall req w task w',
  CreateTask req w = (Ok task, w') ->
  task = Task.mk (uuids E (uuid_count w)) (cr_Title req) (cr_Description req)
           false false SyncStatusPending None None
           (clock E (ticks w)) (clock E (ticks w)) /\
  existsb (fun t => String.eqb (Task.ID t) (Task.ID task)) (tasks (db w))
    = false /\
  tasks (db w') = (tasks (db w) ++ [task])%list.
Proof.
  intros req w task w'.
  unfold CreateTask, NewTask, time_Now, uuid_New, db_call. simpl.
  destruct (faults E (ops w)); simpl; [ discriminate | ].
  destruct (faults E (S (ops w))); simpl; [ discriminate | ].
  unfold insert_task.
  destruct (existsb _ (tasks (db w))) eqn:Hex; simpl; [ discriminate | ].
  match goal with
  | |- context [AddToQueueTx ?tx ?i ?o ?t ?w0] =>
      pose proof (AddToQueueTx_spec tx i o t w0) as Hq;
      destruct (AddToQueueTx tx i o t w0) as [[tx2|e] w3]
  end; simpl in *; [ | discriminate ].
  destruct Hq as [_ [data [_ [Ht _]]]].
  unfold db_call. destruct (faults E (ops w3)); simpl; [ discriminate | ].
  intros H. injection H as <- <-. simpl. rewrite Ht. simpl.
  repeat split. exact Hex.
Qed.

(** X1. A task that [CreateTask] returns can be read back: it has a
    fresh id, the requested title and description, is neither completed
    nor deleted, is pending with no server id and no last sync, carries one
    instant as creation and update time, and [GetTaskByID] on its id
    returns exactly it. *)
Theorem CreateTask_then_GetTaskByID : forall req w task w',
  CreateTask req w = (Ok task, w') ->
  faults E (ops w') = None ->
  fst (GetTaskByID (Task.ID task) w') = Ok task /\
  ~ In (Task.ID task) (map Task.ID (tasks (db w))) /\
  Task.Title task = cr_Title req /\
  Task.Description task = cr_Description req /\
  Task.Completed task = false /\
  Task.IsDeleted task = false /\
  Task.Status task = SyncStatusPending /\
  Task.ServerID task = None /\
  Task.LastSyncedAt task = None /\
  Task.UpdatedAt task = Task.CreatedAt task.
Proof.
  intros req w task w' Hc F.
  destruct (CreateTask_ok req w task w' Hc) as [Htask [Hex Htasks]].
  assert (Hfresh : forall y, In y (tasks (db w)) ->
            String.eqb (Task.ID y) (Task.ID task) = false).
  { intros y Hy. destruct (String.eqb (Task.ID y) (Task.ID task)) eqn:Heq;
      [ | reflexivity ].
    rewrite <- Hex. symmetry. apply existsb_exists. exists y. now split. }
  split; [ | split ].
  - unfold GetTaskByID, db_call. rewrite F. simpl. rewrite Htasks.
    rewrite find_app_last; [ reflexivity | | ].
    + intros y Hy. now rewrite (Hfresh y Hy).
    + rewrite String.eqb_refl. subst task. reflexivity.
  - intros Hin. apply in_map_iff in Hin. destruct Hin as [y [Hid Hy]].
    specialize (Hfresh y Hy). apply String.eqb_neq in Hfresh. contradiction.
  - subst task. simpl. repeat split.
Qed.

(** A successful [UpdateTask] and a successful [DeleteTask], read off the
    code. *)
Lemma UpdateTask_ok : forall id req w task w',
  UpdateTask id req w = (Ok task, w') ->
  exists old,
    find (update_matches id) (tasks (db w)) = Some old /\
    task = fst (Task_Update req old w) /\
    tasks (db w') = map (update_task_row task id) (tasks (db w)).
Proof.
  intros id req w task w'. unfold UpdateTask, GetTaskByID, db_call. simpl.
  destruct (faults E (ops w)); simpl; [ discriminate | ].
  destruct (faults E (S (ops w))); simpl; [ discriminate | ].
  fold (update_matches id).
  change (fun t : Task.t => (Task.ID t =? id)%string && negb (Task.IsDeleted t))
    with (update_matches id).
  destruct (find (update_matches id) (tasks (db w))) as [old|] eqn:Hfind;
    simpl; [ | discriminate ].
  unfold Task_Update, time_Now. simpl.
  destruct (faults E (S (S (ops w)))); simpl; [ discriminate | ].
  destruct (Nat.eqb _ 0); simpl; [ discriminate | ].
  match goal with
  | |- context [AddToQueueTx ?tx ?i ?o ?t ?w0] =>
      pose proof (AddToQueueTx_spec tx i o t w0) as Hq;
      destruct (AddToQueueTx tx i o t w0) as [[tx2|e] w3]
  end; simpl in *; [ | discriminate ].
  destruct Hq as [_ [data [_ [Ht _]]]].
  unfold db_call. destruct (faults E (ops w3)); simpl; [ discriminate | ].
  intros H. injection H as <- <-. simpl. rewrite Ht. simpl.
  exists old. repeat split.
Qed.

Lemma DeleteTask_ok : forall id w w',
  DeleteTask id w = (None, w') ->
  exists old,
    find (update_matches id) (tasks (db w)) = Some old /\
    tasks (db w') =
      map (delete_task_row (fst (Task_SoftDelete old w)) id) (tasks (db w)).
Proof.
  intros id w w'. unfold DeleteTask, GetTaskByID, db_call. simpl.
  destruct (faults E (ops w)); simpl; [ discriminate | ].
  destruct (faults E (S (ops w))); simpl; [ discriminate | ].
  change (fun t : Task.t => (Task.ID t =? id)%string && negb (Task.IsDeleted t))
    with (update_matches id).
  destruct (find (update_matches id) (tasks (db w))) as [old|] eqn:Hfind;
    simpl; [ | discriminate ].
  unfold Task_SoftDelete, time_Now. simpl.
  destruct (faults E (S (S (ops w)))); simpl; [ discriminate | ].
  destruct (Nat.eqb _ 0); simpl; [ discriminate | ].
  match goal with
  | |- context [AddToQueueTx ?tx ?i ?o ?t ?w0] =>
      pose proof (AddToQueueTx_spec tx i o t w0) as Hq;
      destruct (AddToQueueTx tx i o t w0) as [[tx2|e] w3]
  end; simpl in *; [ | discriminate ].
  destruct Hq as [_ [data [_ [Ht _]]]].
  unfold db_call. destruct (faults E (ops w3)); simpl; [ discriminate | ].
  intros H. injection H as <-. simpl. rewrite Ht. simpl.
  exists old. repeat split.
Qed.

Lemma update_matches_id : forall id t,
  update_matches id t = true -> Task.ID t = id /\ Task.IsDeleted t = false.
Proof.
  intros id t H. unfold update_matches in H.
  apply andb_true_iff in H. destruct H as [H1 H2].
  apply String.eqb_eq in H1. apply negb_true_iff in H2. now split.
Qed.

(** X2. [UpdateTask] is a partial update that can be read back.  The
    task it returns keeps the id, deletion flag, creation time, server id
    and last sync of the stored row, takes from the request the fields the
    request carries and keeps the others, is pending, and has the instant
    just read from the clock as update time; [GetTaskByID] on the id then
    returns exactly it. *)
Theorem UpdateTask_then_GetTaskByID : forall id req w task w',
  UpdateTask id req w = (Ok task, w') ->
  faults E (ops w') = None ->
  fst (GetTaskByID id w') = Ok task /\
  exists old,
    find (update_matches id) (tasks (db w)) = Some old /\
    Task.ID task = id /\
    Task.Title task =
      match ur_Title req with Some s => s | None => Task.Title old end /\
    Task.Description task =
      match ur_Description req with
      | Some s => Some s
      | None => Task.Description old
      end /\
    Task.Completed task =
      match ur_Completed req with
      | Some b => b
      | None => Task.Completed old
      end /\
    Task.IsDeleted task = false /\
    Task.Status task = SyncStatusPending /\
    Task.ServerID task = Task.ServerID old /\
    Task.LastSyncedAt task = Task.LastSyncedAt old /\
    Task.CreatedAt task = Task.CreatedAt old /\
    Task.UpdatedAt task = clock E (ticks w).
Proof.
  intros id req w task w' Hu F.
  destruct (UpdateTask_ok id req w task w' Hu) as [old [Hfind [Htask Htasks]]].
  destruct (find_some _ _ Hfind) as [_ Hm].
  destruct (update_matches_id id old Hm) as [Hid Hdel].
  assert (Hrow : update_task_row task id old = task).
  { unfold update_task_row. rewrite Hm. subst task.
    unfold Task_Update, time_Now. simpl. rewrite Hdel. reflexivity. }
  split.
  - unfold GetTaskByID, db_call. rewrite F. simpl. rewrite Htasks.
    change (fun t : Task.t =>
              (Task.ID t =? id)%string && negb (Task.IsDeleted t))
      with (update_matches id).
    rewrite find_map_same by (intros x; apply update_matches_update_task_row).
    rewrite Hfind. simpl. now rewrite Hrow.
  - exists old. split; [ exact Hfind | ].
    subst task. unfold Task_Update, time_Now. simpl.
    repeat split; assumption.
Qed.

(** X3. [DeleteTask] is a soft delete.  After it succeeds the table
    has the same rows in the same order, every row with the id is flagged
    deleted and pending, and the id is gone for the service: [GetTaskByID],
    [UpdateTask] and a second [DeleteTask] on it answer "task not found"
    (their database calls succeeding) and leave the store as it is. *)
Theorem DeleteTask_then_not_found : forall id w w',
  DeleteTask id w = (None, w') ->
  map Task.ID (tasks (db w')) = map Task.ID (tasks (db w)) /\
  (forall t, In t (tasks (db w')) -> Task.ID t = id ->
     Task.IsDeleted t = true /\ Task.Status t = SyncStatusPending) /\
  (faults E (ops w') = None ->
   fst (GetTaskByID id w') = Err "task not found") /\
  (faults E (ops w') = None -> faults E (S (ops w')) = None ->
   fst (DeleteTask id w') = Some "task not found" /\
   db (snd (DeleteTask id w')) = db w' /\
   forall req,
     fst (UpdateTask id req w') = Err "task not found" /\
     db (snd (UpdateTask id req w')) = db w').
Proof.
  intros id w w' Hd.
  destruct (DeleteTask_ok id w w' Hd) as [old [Hfind Htasks]].
  set (task := fst (Task_SoftDelete old w)) in *.
  assert (Hgone : forall y, In y (tasks (db w')) ->
            update_matches id y = false).
  { intros y Hy. rewrite Htasks in Hy. apply in_map_iff in Hy.
    destruct Hy as [x [Hx _]]. subst y. unfold delete_task_row, update_matches.
    destruct (String.eqb (Task.ID x) id) eqn:Heq; simpl.
    - rewrite Heq. reflexivity.
    - rewrite Heq. reflexivity. }
  assert (Hnone : find (update_matches id) (tasks (db w')) = None)
    by now apply find_none_when.
  split; [ | split; [ | split ] ].
  - rewrite Htasks, map_map. apply map_ext. intros x.
    unfold delete_task_row. destruct (String.eqb (Task.ID x) id); reflexivity.
  - intros t Ht Hid. rewrite Htasks in Ht. apply in_map_iff in Ht.
    destruct Ht as [x [Hx _]]. subst t. unfold delete_task_row in *.
    destruct (String.eqb (Task.ID x) id) eqn:Heq; simpl in *.
    + split; [ reflexivity | ]. unfold task, Task_SoftDelete, time_Now.
      reflexivity.
    + apply String.eqb_neq in Heq. contradiction.
  - intros F. unfold GetTaskByID, db_call. rewrite F. simpl.
    change (fun t : Task.t =>
              (Task.ID t =? id)%string && negb (Task.IsDeleted t))
      with (update_matches id).
    now rewrite Hnone.
  - intros F0 F1. unfold DeleteTask, UpdateTask, GetTaskByID, db_call.
    rewrite F0. simpl. rewrite F1. simpl.
    change (fun t : Task.t =>
              (Task.ID t =? id)%string && negb (Task.IsDeleted t))
      with (update_matches id).
    rewrite Hnone. simpl. repeat split.
Qed.

(** X4. A mutation of a task that is missing or already soft
    deleted is refused without a trace: when [Begin] and the lookup
    succeed, [UpdateTask] and [DeleteTask] answer "task not found", the
    store is unchanged, nothing is enqueued and the clock is not read. *)
Theorem mutation_of_missing_task : forall id w,
  (forall t, In t (tasks (db w)) -> Task.ID t = id ->
     Task.IsDeleted t = true) ->
  faults E (ops w) = None ->
  faults E (S (ops w)) = None ->
  DeleteTask id w =
    (Some "task not found", snd (db_call (snd (db_call w)))) /\
  forall req,
    UpdateTask id req w =
      (Err "task not found", snd (db_call (snd (db_call w)))).
Proof.
  intros id w Hmiss F0 F1.
  assert (Hnone : find (update_matches id) (tasks (db w)) = None).
  { apply find_none_when. intros y Hy. unfold update_matches.
    destruct (String.eqb (Task.ID y) id) eqn:Heq; [ | reflexivity ].
    apply String.eqb_eq in Heq. now rewrite (Hmiss y Hy Heq). }
  unfold DeleteTask, UpdateTask, GetTaskByID, db_call.
  rewrite F0. simpl. rewrite F1. simpl.
  change (fun t : Task.t =>
            (Task.ID t =? id)%string && negb (Task.IsDeleted t))
    with (update_matches id).
  rewrite Hnone. split; [ reflexivity | intros req; reflexivity ].
Qed.

Lemma text_lt_trans : forall a b c,
  text_lt a b = true -> text_lt b c = true -> text_lt a c = true.
Proof.
  intros a b c Hab Hbc. rewrite text_lt_le in *.
  apply negb_true_iff in Hab, Hbc. apply negb_true_iff.
  destruct (text_le c a) eqn:Hca; [ | reflexivity ].
  apply text_le_false in Hab.
  rewrite (text_le_trans _ _ _ Hca Hab) in Hbc. discriminate.
Qed.

Lemma task_before_spec : forall a b,
  task_before a b = true <-> listed_before a b.
Proof.
  intros a b. unfold task_before, listed_before.
  rewrite orb_true_iff, andb_true_iff, String.eqb_eq. reflexivity.
Qed.

Lemma task_before_total : forall a b,
  task_before a b = false -> task_before b a = true.
Proof.
  intros a b H. unfold task_before in *.
  apply orb_false_iff in H. destruct H as [Hlt Hrest].
  rewrite text_lt_le in *. apply negb_false_iff in Hlt.
  apply orb_true_iff.
  destruct (text_le (Task.UpdatedAt b) (Task.UpdatedAt a)) eqn:Hba;
    [ right | now left ].
  assert (Heq : db_time_text E (Task.UpdatedAt a) =
                db_time_text E (Task.UpdatedAt b))
    by (apply String.leb_antisym; assumption).
  rewrite Heq, String.eqb_refl in *. simpl in *.
  now apply text_le_false.
Qed.

Lemma task_before_trans : forall a b c,
  task_before a b = true -> task_before b c = true -> task_before a c = true.
Proof.
  intros a b c Hab Hbc. apply task_before_spec.
  apply task_before_spec in Hab. apply task_before_spec in Hbc.
  unfold listed_before, text_lt, text_le in *.
  destruct Hab as [Hab|[Hab Hab']], Hbc as [Hbc|[Hbc Hbc']].
  - left. exact (text_lt_trans _ _ _ Hbc Hab).
  - left. now rewrite <- Hbc.
  - left. now rewrite Hab.
  - right. split; [ congruence | ].
    exact (text_le_trans _ _ _ Hbc' Hab').
Qed.

Lemma insert_task_ordered_perm : forall x l,
  Permutation (insert_task_ordered x l) (x :: l).
Proof.
  intros x l. induction l as [|y l IH]; simpl.
  - apply Permutation_refl.
  - destruct (task_before x y).
    + apply Permutation_refl.
    + eapply Permutation_trans; [ apply perm_skip, IH | apply perm_swap ].
Qed.

Lemma order_tasks_perm : forall l, Permutation (order_tasks l) l.
Proof.
  induction l as [|x l IH]; simpl.
  - apply Permutation_refl.
  - eapply Permutation_trans; [ apply insert_task_ordered_perm | ].
    now apply perm_skip.
Qed.

Lemma insert_task_ordered_sorted : forall x l,
  StronglySorted (fun a b => task_before a b = true) l ->
  StronglySorted (fun a b => task_before a b = true)
    (insert_task_ordered x l).
Proof.
  intros x l Hs. induction Hs as [|y l Hs IH Hall]; simpl.
  - constructor; constructor.
  - destruct (task_before x y) eqn:Hxy.
    + constructor; [ now constructor | ].
      constructor; [ exact Hxy | ].
      eapply Forall_impl; [ | exact Hall ].
      intros z Hz. simpl in Hz. eapply task_before_trans; eauto.
    + constructor; [ exact IH | ].
      eapply Permutation_Forall.
      * apply Permutation_sym, insert_task_ordered_perm.
      * constructor; [ now apply task_before_total | exact Hall ].
Qed.

Lemma order_tasks_sorted : forall l,
  StronglySorted (fun a b => task_before a b = true) (order_tasks l).
Proof.
  induction l as [|x l IH]; simpl.
  - constructor.
  - now apply insert_task_ordered_sorted.
Qed.

Lemma scan_tasks_spec : forall rows,
  match scan_tasks rows with
  | Ok ts =>
      ts = rows /\
      forall t, In t rows -> task_scan_errors (Task.ID t) = None
  | Err e =>
      exists t e0, In t rows /\ task_scan_errors (Task.ID t) = Some e0 /\
                   e = wrap_error "failed to scan task" e0
  end.
Proof.
  induction rows as [|row rows IH]; simpl.
  - split; [ reflexivity | intros t [] ].
  - destruct (task_scan_errors (Task.ID row)) as [e0|] eqn:Hs.
    + exists row, e0. auto.
    + destruct (scan_tasks rows) as [ts|e].
      * destruct IH as [Heq Hall]. subst ts. split; [ reflexivity | ].
        intros t [Ht|Ht]; [ now subst t | now apply Hall ].
      * destruct IH as [t [e0 [Hin [He Hw]]]]. exists t, e0. auto.
Qed.

(** X5. [GetAllTasks] never changes the store.  When it succeeds it
    returns every task that is not soft deleted exactly once and no other
    task, in the order of the query: by the stored text of [updated_at],
    greatest first, and among tasks with the same [updated_at] text by the
    stored text of [created_at], greatest first.  Where the order of the
    stored texts is the order of the instants (the zone offset of the
    process did not change between the writes) this is most recently
    updated first and, among tasks updated at the same instant, most
    recently created first.  It fails only when the query fails or a live
    row does not scan. *)
Theorem GetAllTasks_lists_live_tasks : forall w,
  db (snd (GetAllTasks w)) = db w /\
  match fst (GetAllTasks w) with
  | Ok ts =>
      Permutation ts (filter (fun t => negb (Task.IsDeleted t))
                        (tasks (db w))) /\
      (forall t, In t ts <->
         In t (tasks (db w)) /\ Task.IsDeleted t = false) /\
      StronglySorted listed_before ts /\
      (chronological (map Task.UpdatedAt ts) ->
       chronological (map Task.CreatedAt ts) ->
       StronglySorted
         (fun a b =>
            Task.UpdatedAt b < Task.UpdatedAt a \/
            (Task.UpdatedAt a = Task.UpdatedAt b /\
             Task.CreatedAt b <= Task.CreatedAt a)) ts)
  | Err e =>
      (exists e0, faults E (ops w) = Some e0 /\
                  e = wrap_error "failed to query tasks" e0) \/
      (exists t e0, In t (tasks (db w)) /\ Task.IsDeleted t = false /\
                    task_scan_errors (Task.ID t) = Some e0 /\
                    e = wrap_error "failed to scan task" e0)
  end.
Proof.
  intros w. unfold GetAllTasks, db_call.
  destruct (faults E (ops w)) as [e0|] eqn:F0; simpl.
  { split; [ reflexivity | ]. left. exists e0. auto. }
  split; [ reflexivity | ].
  set (live := filter (fun t => negb (Task.IsDeleted t)) (tasks (db w))).
  pose proof (scan_tasks_spec (order_tasks live)) as Hs.
  destruct (scan_tasks (order_tasks live)) as [ts|e].
  - destruct Hs as [Heq _]. subst ts.
    split; [ apply order_tasks_perm | ]. split.
    + intros t. split.
      * intros Hin. eapply Permutation_in in Hin; [ | apply order_tasks_perm ].
        apply filter_In in Hin. destruct Hin as [Hin Hd].
        apply negb_true_iff in Hd. now split.
      * intros [Hin Hd]. eapply Permutation_in.
        -- apply Permutation_sym, order_tasks_perm.
        -- apply filter_In. split; [ exact Hin | now rewrite Hd ].
    + assert (Hsorted : StronglySorted listed_before (order_tasks live)).
      { eapply StronglySorted_weaken; [ | apply order_tasks_sorted ].
        intros a b _ _ Hab. now apply task_before_spec. }
      split; [ exact Hsorted | ].
      intros Hu Hc. eapply StronglySorted_weaken; [ | exact Hsorted ].
      intros a b Ha Hb [Hlt|[Heq Hle]].
      * left. apply (chronological_lt _ _ _ Hu); [ | | exact Hlt ];
          now apply in_map.
      * right. split.
        -- apply (chronological_eq _ _ _ Hu); [ | | exact Heq ];
             now apply in_map.
        -- apply (Hc (Task.CreatedAt b) (Task.CreatedAt a));
             [ now apply in_map | now apply in_map | exact Hle ].
  - right. destruct Hs as [t [e1 [Hin [He Hw]]]].
    eapply Permutation_in in Hin; [ | apply order_tasks_perm ].
    apply filter_In in Hin. destruct Hin as [Hin Hd].
    apply negb_true_iff in Hd. exists t, e1. auto.
Qed.

(** ** The rest of the sync service and its handlers *)

(** X6. [AddToQueue] is all or nothing.  When it returns nil the
    tasks are untouched and the queue has exactly one more row, the last:
    it has the next AUTOINCREMENT rowid, the given task id and operation
    kind, the encoded task as snapshot, retry count 0, the instant read
    from the clock as creation time, and no last attempt or error message.
    When it returns an error (the task does not encode, [Begin], the
    INSERT or [Commit] fails) the store is unchanged. *)
Theorem AddToQueue_atomic_append : forall taskID opType task w,
  match AddToQueue taskID opType task w with
  | (Some _, w') => db w' = db w
  | (None, w') =>
      exists data,
        json_Marshal E task = Ok data /\
        tasks (db w') = tasks (db w) /\
        sync_queue (db w') =
          (sync_queue (db w) ++
           [SyncQueueItem.mk
              (Z.max (sqlite_sequence (db w))
                 (max_rowid (sync_queue (db w))) + 1)
              taskID opType data 0 (clock E (ticks w)) None None])%list /\
        sqlite_sequence (db w') =
          Z.max (sqlite_sequence (db w)) (max_rowid (sync_queue (db w))) + 1
  end.
Proof.
  intros taskID opType task w.
  unfold AddToQueue, AddToQueueTx, NewSyncQueueItem, time_Now, db_call. simpl.
  destruct (faults E (ops w)); simpl; [ reflexivity | ].
  destruct (json_Marshal E task) as [data|e]; simpl; [ | reflexivity ].
  destruct (faults E (S (ops w))); simpl; [ reflexivity | ].
  destruct (faults E (S (S (ops w)))); simpl; [ reflexivity | ].
  exists data. repeat split.
Qed.

Lemma GetSyncStatus_ok : forall w st,
  fst (GetSyncStatus w) = Ok st ->
  services.PendingCount st = count_pending (sync_queue (db w)) /\
  services.ErrorCount st = count_error (tasks (db w)) /\
  services.InProgress st = false.
Proof.
  intros w st. unfold GetSyncStatus, db_call. simpl.
  destruct (faults E (ops w)); simpl; [ discriminate | ].
  destruct (faults E (S (ops w))); simpl; [ discriminate | ].
  destruct (faults E (S (S (ops w)))); simpl; [ discriminate | ].
  intros H. injection H as <-. simpl. repeat split.
Qed.

Lemma GetSyncStatus_keeps_db : forall w, db (snd (GetSyncStatus w)) = db w.
Proof.
  intros w. unfold GetSyncStatus, db_call. simpl.
  destruct (faults E (ops w)); simpl; [ reflexivity | ].
  destruct (faults E (S (ops w))); simpl; [ reflexivity | ].
  destruct (faults E (S (S (ops w)))); reflexivity.
Qed.

Lemma length_select_pending : forall q,
  List.length (select_pending q) =
    if (SyncBatchSize cfg <? 0)%Z then List.length (filter eligible q)
    else Nat.min (Z.to_nat (SyncBatchSize cfg))
           (List.length (filter eligible q)).
Proof.
  intros q. unfold select_pending, sql_limit.
  assert (Hlen : List.length (order_by_created_at (filter eligible q)) =
                 List.length (filter eligible q))
    by apply Permutation_length, order_by_created_at_perm.
  destruct (SyncBatchSize cfg <? 0)%Z; [ exact Hlen | ].
  now rewrite length_firstn, Hlen.
Qed.

(** X7. The pending count of the status is the size of the next
    batch, up to the limit: the number of rows the query of a pass returns
    is the smaller of [SyncBatchSize] and the pending count [GetSyncStatus]
    reports on the same store, and the pending count itself when the batch
    size is negative.  With a batch size other than 0, a pass selects
    nothing exactly when the status reports nothing pending. *)
Theorem pending_count_is_next_batch : forall w st,
  fst (GetSyncStatus w) = Ok st ->
  0 <= services.PendingCount st /\
  (SyncBatchSize cfg < 0 ->
   Z.of_nat (List.length (select_pending (sync_queue (db w)))) =
     services.PendingCount st) /\
  (0 <= SyncBatchSize cfg ->
   Z.of_nat (List.length (select_pending (sync_queue (db w)))) =
     Z.min (SyncBatchSize cfg) (services.PendingCount st)) /\
  (SyncBatchSize cfg <> 0 ->
   (select_pending (sync_queue (db w)) = [] <->
    services.PendingCount st = 0)).
Proof.
  intros w st Hst. destruct (GetSyncStatus_ok w st Hst) as [Hp _].
  rewrite Hp. unfold count_pending.
  pose proof (length_select_pending (sync_queue (db w))) as Hlen.
  set (sel := select_pending (sync_queue (db w))) in *.
  set (n := List.length (filter eligible (sync_queue (db w)))) in *.
  split; [ lia | ]. split; [ | split ].
  - intros Hneg. apply Z.ltb_lt in Hneg. rewrite Hneg in Hlen. lia.
  - intros Hpos. destruct (SyncBatchSize cfg <? 0)%Z eqn:Hb;
      [ apply Z.ltb_lt in Hb; lia | ].
    rewrite Hlen. lia.
  - intros Hnz. split.
    + intros Hnil. rewrite Hnil in Hlen. simpl in Hlen.
      destruct (SyncBatchSize cfg <? 0)%Z eqn:Hb; [ lia | ].
      apply Z.ltb_ge in Hb. lia.
    + intros Hzero. assert (Hn : n = 0%nat) by lia.
      rewrite Hn in Hlen.
      destruct (SyncBatchSize cfg <? 0)%Z;
        [ | rewrite Nat.min_0_r in Hlen ];
        now apply length_zero_iff_nil.
Qed.

(** X8. [GetSyncQueueContents] never changes the store and fails only
    when its query fails.  It returns every row of the queue that scans,
    whatever its retry count (the entries that exhausted their retries
    included), exactly once, in the order of the [created_at] column: by
    ascending stored text, which is by ascending instant where the order
    of the stored texts is the order of the instants.  A row that does not
    scan is left out and logged.  [GetSyncQueue] answers 200 exactly when
    the query succeeds. *)
Theorem GetSyncQueueContents_lists_every_row : forall w,
  db (snd (GetSyncQueueContents w)) = db w /\
  (reply_code (fst (SyncHandler_GetSyncQueue w)) = StatusOK <->
   faults E (ops w) = None) /\
  match fst (GetSyncQueueContents w) with
  | Ok items =>
      faults E (ops w) = None /\
      (forall row, In row items <->
         In row (sync_queue (db w)) /\
         scan_errors E (SyncQueueItem.ID row) = None) /\
      StronglySorted created_le items /\
      (chronological (map SyncQueueItem.CreatedAt items) ->
       StronglySorted
         (fun a b => SyncQueueItem.CreatedAt a <= SyncQueueItem.CreatedAt b)
         items) /\
      (List.length items <= List.length (sync_queue (db w)))%nat /\
      ((forall row, In row (sync_queue (db w)) ->
          scan_errors E (SyncQueueItem.ID row) = None) ->
       Permutation items (sync_queue (db w))) /\
      (forall row e, In row (sync_queue (db w)) ->
         scan_errors E (SyncQueueItem.ID row) = Some e ->
         In ("Failed to scan sync queue item: " ++ e)
            (log (snd (GetSyncQueueContents w))))
  | Err e =>
      exists e0, faults E (ops w) = Some e0 /\
                 e = wrap_error "failed to query sync queue" e0
  end.
Proof.
  intros w. unfold SyncHandler_GetSyncQueue, GetSyncQueueContents.
  unfold db_call at 1 2 3 4. 
  destruct (faults E (ops w)) as [e0|] eqn:F0.
  { cbn [fst snd reply_code db]. split; [ reflexivity | ].
    split; [ | exists e0; auto ].
    unfold StatusOK, StatusInternalServerError.
    split; intros; discriminate. }
  set (w1 := mkWorld (db w) (ticks w) (S (ops w)) (uuid_count w) (log w)
               (remote w)).
  set (rows := order_by_created_at (sync_queue (db w1))).
  destruct (scan_rows_spec rows w1) as [Hitems [Hdb _]].
  destruct (scan_rows_log rows w1) as [_ Hlog].
  destruct (scan_rows rows w1) as [items w2]. cbn [fst snd reply_code] in *.
  split; [ exact Hdb | ]. split; [ split; reflexivity | ].
  split; [ reflexivity | ].
  assert (Hperm : Permutation rows (sync_queue (db w)))
    by apply order_by_created_at_perm.
  assert (Hsorted : StronglySorted created_le
                      (filter (fun row =>
                                 match scan_errors E (SyncQueueItem.ID row) with
                                 | Some _ => false
                                 | None => true
                                 end) rows))
    by (apply filter_sorted; apply order_by_created_at_sorted).
  subst items. split; [ | split; [ | split; [ | split; [ | split ] ] ] ].
  - intros row. rewrite filter_In. split.
    + intros [Hin Hs]. split.
      * eapply Permutation_in; eauto.
      * destruct (scan_errors E (SyncQueueItem.ID row));
          [ discriminate | reflexivity ].
    + intros [Hin Hs]. split.
      * eapply Permutation_in; [ apply Permutation_sym; exact Hperm | ].
        exact Hin.
      * now rewrite Hs.
  - exact Hsorted.
  - intros Hch. now apply sorted_chronologically.
  - rewrite <- (Permutation_length Hperm). apply filter_length_le.
  - intros Hall. rewrite forallb_filter_id; [ exact Hperm | ].
    apply forallb_forall. intros row Hin. rewrite Hall; [ reflexivity | ].
    eapply Permutation_in; eauto.
  - intros row e Hin He. apply (Hlog row e); [ | exact He ].
    eapply Permutation_in; [ apply Permutation_sym; exact Hperm | exact Hin ].
Qed.

(** X9. [BatchSync] runs a pass, the conflict resolution and the
    status query in this order.  The store it leaves is the store the pass
    leaves, whatever the reply: a 500 caused by the status query comes
    after the pass has delivered.  A 200 carries the status of the store
    after the pass; when the query of the pass fails the reply is that
    error and the store is unchanged. *)
Theorem BatchSync_reports_store_after_pass : forall w,
  let after := snd (ProcessSyncQueue w) in
  let reply := fst (SyncHandler_BatchSync w) in
  db (snd (SyncHandler_BatchSync w)) = db after /\
  (reply_code reply = StatusOK \/
   reply_code reply = StatusInternalServerError) /\
  (reply_code reply = StatusOK ->
   exists st,
     reply_body reply =
       [("message", PayloadText "batch sync completed");
        ("sync_status", PayloadStatus st)] /\
     services.PendingCount st = count_pending (sync_queue (db after)) /\
     services.ErrorCount st = count_error (tasks (db after)) /\
     services.InProgress st = false) /\
  (forall e, faults E (ops w) = Some e ->
     reply = mkReply StatusInternalServerError
               [("error",
                 PayloadText (wrap_error "failed to query sync queue" e))] /\
     db after = db w).
Proof.
  intros w. cbv zeta. unfold SyncHandler_BatchSync.
  destruct (faults E (ops w)) as [e0|] eqn:F0.
  - rewrite (ProcessSyncQueue_unreadable w e0 F0). cbn [fst snd reply_code].
    split; [ reflexivity | ]. split; [ now right | ].
    split; [ unfold StatusOK, StatusInternalServerError; discriminate | ].
    intros e He. injection He as <-. split; reflexivity.
  - pose proof (ProcessSyncQueue_ok w F0) as Hp.
    destruct (ProcessSyncQueue w) as [r w1]. injection Hp as -> Hw1.
    cbn [fst snd]. unfold ResolveConflicts. cbn [fst snd].
    set (w2 := log_Printf _ w1).
    pose proof (GetSyncStatus_ok w2) as Hok.
    pose proof (GetSyncStatus_keeps_db w2) as Hdb.
    destruct (GetSyncStatus w2) as [[st|e] w3]; cbn [fst snd reply_code] in *.
    + split; [ exact Hdb | ]. split; [ now left | ].
      split; [ | intros e He; discriminate ].
      intros _. exists st. destruct (Hok st eq_refl) as [H1 [H2 H3]].
      auto.
    + split; [ exact Hdb | ]. split; [ now right | ].
      split; [ unfold StatusOK, StatusInternalServerError; discriminate | ].
      intros e0 He; discriminate.
Qed.

(** ** What a pass leaves alone *)

Lemma task_content_set_task_error : forall id t,
  task_content (set_task_error id t) = task_content t.
Proof.
  intros id t. unfold set_task_error.
  destruct (String.eqb (Task.ID t) id); reflexivity.
Qed.

Lemma task_content_set_task_synced : forall now sid id t,
  task_content (set_task_synced now sid id t) = task_content t.
Proof.
  intros now sid id t. unfold set_task_synced.
  destruct (String.eqb (Task.ID t) id); reflexivity.
Qed.

Lemma entry_content_set_retry : forall item1 row,
  entry_content (set_retry item1 row) = entry_content row.
Proof.
  intros item1 row. unfold set_retry.
  destruct (SyncQueueItem.ID row =? SyncQueueItem.ID item1)%Z; reflexivity.
Qed.

Lemma no_new_entries_refl : forall q, no_new_entries q q.
Proof.
  intros q. split; [ | lia ]. intros row Hin. exists row. auto.
Qed.

Lemma no_new_entries_trans : forall a b c,
  no_new_entries a b -> no_new_entries b c -> no_new_entries a c.
Proof.
  intros a b c [Hab Lab] [Hbc Lbc]. split; [ | lia ].
  intros z Hz. destruct (Hbc z Hz) as [y [Hy Hyz]].
  destruct (Hab y Hy) as [x [Hx Hxy]]. exists x. split; [ exact Hx | ].
  congruence.
Qed.

(** One entry processed: the frame of the step. *)
Lemma processSyncItem_frame : forall item w,
  let w' := snd (processSyncItem item w) in
  map task_content (tasks (db w')) = map task_content (tasks (db w)) /\
  no_new_entries (sync_queue (db w)) (sync_queue (db w')) /\
  sqlite_sequence (db w') = sqlite_sequence (db w) /\
  (forall e, In e (sync_queue (db w)) ->
     SyncQueueItem.ID e <> SyncQueueItem.ID item ->
     In e (sync_queue (db w'))).
Proof.
  intros item w. cbv zeta. unfold processSyncItem.
  destruct (GetTaskData item) as [task|e0].
  2:{ simpl. split; [ reflexivity | ].
      split; [ apply no_new_entries_refl | ]. split; [ reflexivity | auto ]. }
  unfold syncToServer, time_Now. simpl.
  destruct (Z.rem (clock E (ticks w)) 10 =? 0)%Z; simpl.
  - unfold handleSyncError, IncrementRetry, markTaskAsError, time_Now,
      db_call. simpl.
    destruct (faults E (ops w)); simpl.
    { split; [ reflexivity | ].
      split; [ apply no_new_entries_refl | ]. split; [ reflexivity | auto ]. }
    assert (Hq : no_new_entries (sync_queue (db w))
                   (map (set_retry
                           (SyncQueueItem.mk (SyncQueueItem.ID item)
                              (SyncQueueItem.TaskID item)
                              (SyncQueueItem.Operation item)
                              (SyncQueueItem.TaskData item)
                              (wrap_int (SyncQueueItem.RetryCount item + 1))
                              (SyncQueueItem.CreatedAt item)
                              (Some (clock E (S (ticks w))))
                              (Some "simulated network error")))
                      (sync_queue (db w)))).
    { split; [ | rewrite length_map; lia ].
      intros row' Hin. apply in_map_iff in Hin.
      destruct Hin as [row [Heq Hin]]. exists row. split; [ exact Hin | ].
      subst row'. symmetry. apply entry_content_set_retry. }
    assert (Hkeep : forall e, In e (sync_queue (db w)) ->
              SyncQueueItem.ID e <> SyncQueueItem.ID item ->
              In e (map (set_retry
                           (SyncQueueItem.mk (SyncQueueItem.ID item)
                              (SyncQueueItem.TaskID item)
                              (SyncQueueItem.Operation item)
                              (SyncQueueItem.TaskData item)
                              (wrap_int (SyncQueueItem.RetryCount item + 1))
                              (SyncQueueItem.CreatedAt item)
                              (Some (clock E (S (ticks w))))
                              (Some "simulated network error")))
                      (sync_queue (db w)))).
    { intros e Hin Hne. apply in_map_iff. exists e. split; [ | exact Hin ].
      now apply set_retry_other. }
    destruct (MaxRetries cfg <=? _)%Z; simpl.
    + destruct (faults E (S (ops w))); simpl.
      * split; [ reflexivity | ]. split; [ exact Hq | ].
        split; [ reflexivity | exact Hkeep ].
      * split.
        { rewrite map_map. apply map_ext. intros t.
          apply task_content_set_task_error. }
        split; [ exact Hq | ]. split; [ reflexivity | exact Hkeep ].
    + split; [ reflexivity | ]. split; [ exact Hq | ].
      split; [ reflexivity | exact Hkeep ].
  - unfold markAsSynced, db_call, time_Now. simpl.
    destruct (faults E (ops w)); simpl.
    { split; [ reflexivity | ].
      split; [ apply no_new_entries_refl | ]. split; [ reflexivity | auto ]. }
    destruct (faults E (S (ops w))); simpl.
    { split; [ reflexivity | ].
      split; [ apply no_new_entries_refl | ]. split; [ reflexivity | auto ]. }
    destruct (faults E (S (S (ops w)))); simpl.
    { split; [ reflexivity | ].
      split; [ apply no_new_entries_refl | ]. split; [ reflexivity | auto ]. }
    destruct (faults E (S (S (S (ops w))))); simpl.
    { split; [ reflexivity | ].
      split; [ apply no_new_entries_refl | ]. split; [ reflexivity | auto ]. }
    split.
    { rewrite map_map. apply map_ext. intros t.
      apply task_content_set_task_synced. }
    split.
    { split; [ | apply filter_length_le ].
      intros row' Hin. apply In_delete_sync_queue in Hin.
      exists row'. split; [ apply Hin | reflexivity ]. }
    split; [ reflexivity | ].
    intros e Hin Hne. apply In_delete_sync_queue. now split.
Qed.

Lemma process_items_frame : forall items w,
  let w' := process_items items w in
  map task_content (tasks (db w')) = map task_content (tasks (db w)) /\
  no_new_entries (sync_queue (db w)) (sync_queue (db w')) /\
  sqlite_sequence (db w') = sqlite_sequence (db w) /\
  (forall e, In e (sync_queue (db w)) ->
     ~ In (SyncQueueItem.ID e) (row_ids items) ->
     In e (sync_queue (db w'))).
Proof.
  induction items as [|item rest IH]; intros w; cbv zeta.
  - simpl. split; [ reflexivity | ].
    split; [ apply no_new_entries_refl | ]. split; [ reflexivity | auto ].
  - rewrite process_items_cons.
    destruct (process_one_remote item w) as [_ [Hdb _]].
    destruct (processSyncItem_frame item w) as [Ht [Hq [Hs Hk]]].
    rewrite <- Hdb in Ht, Hq, Hs, Hk.
    destruct (IH (process_one item w)) as [Ht' [Hq' [Hs' Hk']]].
    split; [ congruence | ].
    split; [ eapply no_new_entries_trans; eauto | ].
    split; [ congruence | ].
    intros e Hin Hnot. apply Hk'.
    + apply Hk; [ exact Hin | ]. intros Heq. apply Hnot. left. now symmetry.
    + intros Hr. apply Hnot. now right.
Qed.

Lemma pass_frame : forall w,
  let w' := snd (ProcessSyncQueue w) in
  map task_content (tasks (db w')) = map task_content (tasks (db w)) /\
  no_new_entries (sync_queue (db w)) (sync_queue (db w')) /\
  sqlite_sequence (db w') = sqlite_sequence (db w) /\
  (NoDup (row_ids (sync_queue (db w))) ->
   forall e, In e (sync_queue (db w)) ->
     ~ In e (select_pending (sync_queue (db w))) ->
     In e (sync_queue (db w'))).
Proof.
  intros w. cbv zeta. destruct (faults E (ops w)) as [e0|] eqn:F0.
  - rewrite (ProcessSyncQueue_unreadable w e0 F0). simpl.
    split; [ reflexivity | ].
    split; [ apply no_new_entries_refl | ]. split; [ reflexivity | auto ].
  - rewrite (ProcessSyncQueue_ok w F0). cbn [snd].
    set (rows := select_pending (sync_queue (db w))).
    set (w1 := snd (db_call w)).
    destruct (scan_rows_spec rows w1) as [Hitems [Hdb _]].
    change (db w1) with (db w) in Hdb.
    destruct (process_items_frame (fst (scan_rows rows w1))
                (snd (scan_rows rows w1))) as [Ht [Hq [Hs Hk]]].
    rewrite Hdb in Ht, Hq, Hs, Hk.
    split; [ exact Ht | ]. split; [ exact Hq | ]. split; [ exact Hs | ].
    intros Hnd e Hin Hnot. apply Hk; [ exact Hin | ].
    intros Hid. apply Hnot. unfold row_ids in Hid.
    apply in_map_iff in Hid. destruct Hid as [it [Heq Hit]].
    rewrite Hitems in Hit. apply filter_In in Hit. destruct Hit as [Hit _].
    assert (e = it).
    { apply (row_of_id (sync_queue (db w))); auto.
      now apply In_select_pending in Hit. }
    now subst it.
Qed.

(** X10. What passes never do.  After any number of passes the tasks
    table has the same rows in the same order with the same id, title,
    description, completion and deletion flags, creation and update times
    (only the sync status, the server id and the last sync can differ);
    every queue entry is an entry that was queued before, with its rowid,
    task id, operation kind, snapshot and creation time, and the queue is
    no longer than before; the AUTOINCREMENT counter is as before. *)
Theorem passes_frame : forall n w,
  let w' := sync_passes n w in
  map task_content (tasks (db w')) = map task_content (tasks (db w)) /\
  (forall row', In row' (sync_queue (db w')) ->
     exists row, In row (sync_queue (db w)) /\
                 entry_content row = entry_content row') /\
  (List.length (sync_queue (db w')) <= List.length (sync_queue (db w)))%nat /\
  sqlite_sequence (db w') = sqlite_sequence (db w).
Proof.
  induction n as [|n IH]; intros w; cbv zeta.
  - simpl. split; [ reflexivity | ]. split; [ | split; [ lia | reflexivity ] ].
    intros row Hin. exists row. auto.
  - simpl. destruct (pass_frame w) as [Ht [[Hq Hl] [Hs _]]].
    destruct (IH (snd (ProcessSyncQueue w))) as [Ht' [Hq' [Hl' Hs']]].
    split; [ congruence | ]. split; [ | split; [ lia | congruence ] ].
    intros z Hz. destruct (Hq' z Hz) as [y [Hy Hyz]].
    destruct (Hq y Hy) as [x [Hx Hxy]]. exists x.
    split; [ exact Hx | congruence ].
Qed.

(** X11. A pass touches only the rows it selected: on a queue with
    distinct rowids, every row the query of the pass does not return (it
    has exhausted its retries, or lies beyond the batch limit) is the same
    row after the pass. *)
Theorem pass_touches_only_selected_rows : forall w e,
  NoDup (row_ids (sync_queue (db w))) ->
  In e (sync_queue (db w)) ->
  ~ In e (select_pending (sync_queue (db w))) ->
  In e (sync_queue (db (snd (ProcessSyncQueue w)))).
Proof.
  intros w e Hnd Hin Hnot.
  destruct (pass_frame w) as [_ [_ [_ Hk]]]. now apply Hk.
Qed.

(** X12. An entry that has exhausted its retries is kept for ever
    and never retried: on a queue with distinct rowids, an entry whose
    retry count has reached [MaxRetries] is, after any number of passes,
    the same row of the queue, and no pass selects it. *)
Theorem exhausted_entry_is_retained : forall n w e,
  NoDup (row_ids (sync_queue (db w))) ->
  In e (sync_queue (db w)) ->
  MaxRetries cfg <= SyncQueueItem.RetryCount e ->
  In e (sync_queue (db (sync_passes n w))) /\
  ~ In e (select_pending (sync_queue (db (sync_passes n w)))).
Proof.
  intros n w e Hnd Hin Hmax.
  assert (Hnot : forall q, ~ In e (select_pending q)).
  { intros q Hsel. apply In_select_pending in Hsel. destruct Hsel as [_ Hel].
    unfold eligible in Hel. apply Z.ltb_lt in Hel. lia. }
  split; [ | apply Hnot ].
  revert w Hnd Hin. induction n as [|n IH]; intros w Hnd Hin; simpl.
  - exact Hin.
  - apply IH.
    + now apply pass_invariant.
    + destruct (pass_frame w) as [_ [_ [_ Hk]]]. apply Hk; auto.
Qed.

(** ** Sessions of calls *)

Lemma AddToQueueTx_shape : forall tx taskID opType task w,
  match fst (AddToQueueTx tx taskID opType task w) with
  | Ok tx' =>
      exists entry,
        tx' = mkDB (tasks tx) (sync_queue tx ++ [entry])
                (SyncQueueItem.ID entry) /\
        SyncQueueItem.ID entry =
          Z.max (sqlite_sequence tx) (max_rowid (sync_queue tx)) + 1 /\
        SyncQueueItem.TaskID entry = taskID /\
        SyncQueueItem.RetryCount entry = 0
  | Err _ => True
  end.
Proof.
  intros tx taskID opType task w.
  unfold AddToQueueTx, NewSyncQueueItem, time_Now, db_call.
  destruct (json_Marshal E task) as [data|e]; simpl; [ | exact I ].
  destruct (faults E (ops w)); simpl; [ exact I | ].
  exists (SyncQueueItem.mk
            (Z.max (sqlite_sequence tx) (max_rowid (sync_queue tx)) + 1)
            taskID opType data 0 (clock E (ticks w)) None None).
  unfold insert_sync_queue. simpl. repeat split.
Qed.

(** What a served request does to the store: a committed mutation appends
    one entry with the next rowid and retry count 0 and keeps the ids of
    the tasks distinct; a refused one changes nothing. *)
Lemma serve_db : forall r w,
  let w' := snd (serve r w) in
  if fst (serve r w) then
    exists ts entry,
      db w' = mkDB ts (sync_queue (db w) ++ [entry])
                (SyncQueueItem.ID entry) /\
      SyncQueueItem.ID entry =
        Z.max (sqlite_sequence (db w)) (max_rowid (sync_queue (db w))) + 1 /\
      SyncQueueItem.RetryCount entry = 0 /\
      (NoDup (map Task.ID (tasks (db w))) -> NoDup (map Task.ID ts))
  else
    db w' = db w \/ (r = ReqTriggerSync /\ w' = snd (ProcessSyncQueue w)).
Proof.
  intros r w. cbv zeta. destruct r as [req|id req|id|]; simpl.
  - unfold CreateTask, NewTask, time_Now, uuid_New, db_call. simpl.
    destruct (faults E (ops w)); simpl; [ now left | ].
    destruct (faults E (S (ops w))); simpl; [ now left | ].
    unfold insert_task.
    destruct (existsb _ (tasks (db w))) eqn:Hex; simpl; [ now left | ].
    match goal with
    | |- context [AddToQueueTx ?tx ?i ?o ?t ?w0] =>
        pose proof (AddToQueueTx_spec tx i o t w0) as Hq;
        pose proof (AddToQueueTx_shape tx i o t w0) as Hs;
        destruct (AddToQueueTx tx i o t w0) as [[tx2|e] w3]
    end; simpl in *; [ | now left ].
    destruct Hq as [Hdb _]. destruct Hs as [entry [Htx [Hid [_ Hrc]]]].
    unfold db_call. destruct (faults E (ops w3)); simpl; [ now left | ].
    eexists. exists entry. split; [ exact Htx | ].
    split; [ exact Hid | ]. split; [ exact Hrc | ].
    intros Hnd. rewrite map_app. simpl.
    eapply Permutation_NoDup; [ apply Permutation_cons_append | ].
    constructor; [ | exact Hnd ].
    intros Hin. apply in_map_iff in Hin. destruct Hin as [y [Hy Hin]].
    assert (Ht : existsb
              (fun t => String.eqb (Task.ID t) (uuids E (uuid_count w)))
              (tasks (db w)) = true).
    { apply existsb_exists. exists y. split; [ exact Hin | ].
      now apply String.eqb_eq. }
    congruence.
  - unfold UpdateTask, GetTaskByID, db_call. simpl.
    destruct (faults E (ops w)); simpl; [ now left | ].
    destruct (faults E (S (ops w))); simpl; [ now left | ].
    destruct (find _ (tasks (db w))) as [task0|]; simpl; [ | now left ].
    unfold Task_Update, time_Now. simpl.
    destruct (faults E (S (S (ops w)))); simpl; [ now left | ].
    destruct (Nat.eqb _ 0); simpl; [ now left | ].
    match goal with
    | |- context [AddToQueueTx ?tx ?i ?o ?t ?w0] =>
        pose proof (AddToQueueTx_spec tx i o t w0) as Hq;
        pose proof (AddToQueueTx_shape tx i o t w0) as Hs;
        destruct (AddToQueueTx tx i o t w0) as [[tx2|e] w3]
    end; simpl in *; [ | now left ].
    destruct Hq as [Hdb _]. destruct Hs as [entry [Htx [Hid [_ Hrc]]]].
    unfold db_call. destruct (faults E (ops w3)); simpl; [ now left | ].
    eexists. exists entry. split; [ exact Htx | ].
    split; [ exact Hid | ]. split; [ exact Hrc | ].
    intros Hnd. rewrite map_map.
    erewrite map_ext; [ exact Hnd | ].
    intros t. unfold update_task_row.
    destruct (update_matches id t); reflexivity.
  - unfold DeleteTask, GetTaskByID, db_call. simpl.
    destruct (faults E (ops w)); simpl; [ now left | ].
    destruct (faults E (S (ops w))); simpl; [ now left | ].
    destruct (find _ (tasks (db w))) as [task0|]; simpl; [ | now left ].
    unfold Task_SoftDelete, time_Now. simpl.
    destruct (faults E (S (S (ops w)))); simpl; [ now left | ].
    destruct (Nat.eqb _ 0); simpl; [ now left | ].
    match goal with
    | |- context [AddToQueueTx ?tx ?i ?o ?t ?w0] =>
        pose proof (AddToQueueTx_spec tx i o t w0) as Hq;
        pose proof (AddToQueueTx_shape tx i o t w0) as Hs;
        destruct (AddToQueueTx tx i o t w0) as [[tx2|e] w3]
    end; simpl in *; [ | now left ].
    destruct Hq as [Hdb _]. destruct Hs as [entry [Htx [Hid [_ Hrc]]]].
    unfold db_call. destruct (faults E (ops w3)); simpl; [ now left | ].
    eexists. exists entry. split; [ exact Htx | ].
    split; [ exact Hid | ]. split; [ exact Hrc | ].
    intros Hnd. rewrite map_map.
    erewrite map_ext; [ exact Hnd | ].
    intros t. unfold delete_task_row.
    destruct (String.eqb (Task.ID t) id); reflexivity.
  - right. split; reflexivity.
Qed.

(** X13. Every committed mutation is queued exactly once.  In a
    session of task mutations the queue grows by the number of mutations
    committed: after N of them, with no pass in between, it has N more
    entries.  With passes in between it has at most that many more. *)
Theorem committed_mutations_are_queued : forall rs w,
  let n := fst (serve_all rs w) in
  let w' := snd (serve_all rs w) in
  (List.length (sync_queue (db w')) <=
   List.length (sync_queue (db w)) + n)%nat /\
  ((forall r, In r rs -> r <> ReqTriggerSync) ->
   List.length (sync_queue (db w')) =
     (List.length (sync_queue (db w)) + n)%nat).
Proof.
  induction rs as [|r rs IH]; intros w; cbv zeta.
  - simpl. split; [ lia | intros _; lia ].
  - simpl. pose proof (serve_db r w) as Hs. cbv zeta in Hs.
    destruct (serve r w) as [ok w1]. simpl in Hs.
    destruct (IH w1) as [Hle Heq].
    destruct (serve_all rs w1) as [n w2]. simpl in *.
    assert (Hstep :
      (if ok
       then List.length (sync_queue (db w1)) =
              S (List.length (sync_queue (db w)))
       else (List.length (sync_queue (db w1)) <=
             List.length (sync_queue (db w)))%nat /\
            (r <> ReqTriggerSync ->
             List.length (sync_queue (db w1)) =
               List.length (sync_queue (db w))))).
    { destruct ok.
      - destruct Hs as [ts [entry [Hdb _]]]. rewrite Hdb. simpl.
        rewrite length_app. simpl. lia.
      - destruct Hs as [Hdb|[Hr Hw]].
        + rewrite Hdb. split; [ lia | reflexivity ].
        + split; [ | intros Hne; contradiction ].
          rewrite Hw. destruct (pass_frame w) as [_ [[_ Hl] _]]. exact Hl. }
    split.
    + destruct ok; [ lia | destruct Hstep; lia ].
    + intros Hnosync.
      assert (Hrest : forall r0, In r0 rs -> r0 <> ReqTriggerSync)
        by (intros r0 Hr0; apply Hnosync; now right).
      specialize (Heq Hrest).
      destruct ok; [ lia | ].
      destruct Hstep as [_ Hsame].
      rewrite Heq, Hsame; [ reflexivity | ].
      apply Hnosync. now left.
Qed.

Lemma max_rowid_le : forall q s,
  0 <= s -> (forall it, In it q -> SyncQueueItem.ID it <= s) ->
  max_rowid q <= s.
Proof.
  induction q as [|x q IH]; intros s Hs H; simpl; [ exact Hs | ].
  assert (SyncQueueItem.ID x <= s) by (apply H; now left).
  assert (max_rowid q <= s) by (apply IH; [ exact Hs | intros; apply H; now right ]).
  lia.
Qed.

Lemma map_task_ID_of_content : forall a b,
  map task_content a = map task_content b -> map Task.ID a = map Task.ID b.
Proof.
  intros a b H.
  assert (Hid : forall l,
            map Task.ID l =
            map (fun c : string * string * option string * bool * bool *
                         time * time =>
                   fst (fst (fst (fst (fst (fst c))))))
                (map task_content l))
    by (intros l; rewrite map_map; reflexivity).
  now rewrite (Hid a), (Hid b), H.
Qed.

Lemma process_one_retry_bounds : forall item rest w,
  MaxRetries cfg <= max_int ->
  batch_ready (item :: rest) w ->
  (forall it, In it (sync_queue (db w)) ->
     0 <= SyncQueueItem.RetryCount it <= MaxRetries cfg) ->
  forall it, In it (sync_queue (db (process_one item w))) ->
    0 <= SyncQueueItem.RetryCount it <= MaxRetries cfg.
Proof.
  intros item rest w Hmax [Hnd [_ Hitems]] Hb it.
  destruct (process_one_remote item w) as [_ [Hdb _]]. rewrite Hdb.
  destruct (Hitems item (or_introl eq_refl)) as [Hitem_in Hitem_el].
  destruct (processSyncItem_db item w)
    as [Hsame|[[task [_ [_ [_ [_ Hq]]]]]
              |[task [item1 [_ [Hid1 [Hrc [Hq _]]]]]]]].
  - rewrite Hsame. apply Hb.
  - rewrite Hq. intros Hin. apply In_delete_sync_queue in Hin.
    now apply Hb.
  - rewrite Hq. intros Hin. apply in_map_iff in Hin.
    destruct Hin as [x [Heq Hx]]. subst it. unfold set_retry.
    destruct (SyncQueueItem.ID x =? SyncQueueItem.ID item1)%Z;
      [ simpl | now apply Hb ].
    rewrite Hrc. specialize (Hb item Hitem_in).
    unfold eligible in Hitem_el. apply Z.ltb_lt in Hitem_el.
    rewrite wrap_int_succ; [ lia | ].
    unfold min_int, max_int in *. lia.
Qed.

Lemma process_items_retry_bounds : forall items w,
  MaxRetries cfg <= max_int ->
  batch_ready items w ->
  (forall it, In it (sync_queue (db w)) ->
     0 <= SyncQueueItem.RetryCount it <= MaxRetries cfg) ->
  forall it, In it (sync_queue (db (process_items items w))) ->
    0 <= SyncQueueItem.RetryCount it <= MaxRetries cfg.
Proof.
  induction items as [|item rest IH]; intros w Hmax Hready Hb.
  - exact Hb.
  - rewrite process_items_cons.
    destruct (process_one_step item rest w Hready) as [Hready1 _].
    apply IH; [ exact Hmax | exact Hready1 | ].
    now apply (process_one_retry_bounds item rest w).
Qed.

Lemma pass_keeps_store_ok : forall w,
  MaxRetries cfg <= max_int ->
  store_ok (db w) ->
  store_ok (db (snd (ProcessSyncQueue w))).
Proof.
  intros w Hmax [Hnd [Hseq [Hrows Htasks]]].
  destruct (pass_frame w) as [Ht [[Hanc _] [Hs _]]].
  split; [ now apply pass_invariant | ].
  split; [ now rewrite Hs | ]. split.
  - intros it Hin. split.
    + destruct (Hanc it Hin) as [old [Hold Hc]].
      assert (Hid : SyncQueueItem.ID old = SyncQueueItem.ID it)
        by exact (f_equal (fun c : Z * string * OperationType * string * time
                           => fst (fst (fst (fst c)))) Hc).
      rewrite Hs, <- Hid. now apply Hrows.
    + revert it Hin.
      destruct (faults E (ops w)) as [e0|] eqn:F0.
      * rewrite (ProcessSyncQueue_unreadable w e0 F0). simpl.
        intros it Hin. now apply Hrows.
      * rewrite (ProcessSyncQueue_ok w F0). cbn [snd].
        set (rows := select_pending (sync_queue (db w))).
        set (w1 := snd (db_call w)).
        destruct (scan_rows_spec rows w1) as [Hitems [Hdb _]].
        change (db w1) with (db w) in Hdb.
        apply process_items_retry_bounds; [ exact Hmax | | ].
        -- unfold batch_ready. rewrite Hdb, Hitems.
           split; [ exact Hnd | ].
           split; [ now apply NoDup_row_ids_filter,
                      NoDup_row_ids_select_pending | ].
           intros it Hin. apply filter_In in Hin. destruct Hin as [Hin _].
           now apply In_select_pending.
        -- rewrite Hdb. intros it Hin. now apply Hrows.
  - rewrite (map_task_ID_of_content _ _ Ht). exact Htasks.
Qed.

Lemma serve_keeps_store_ok : forall r w,
  0 <= MaxRetries cfg <= max_int ->
  store_ok (db w) ->
  store_ok (db (snd (serve r w))) /\
  sqlite_sequence (db w) <= sqlite_sequence (db (snd (serve r w))) /\
  (fst (serve r w) = true ->
   exists entry,
     sync_queue (db (snd (serve r w))) =
       (sync_queue (db w) ++ [entry])%list /\
     SyncQueueItem.ID entry = sqlite_sequence (db w) + 1 /\
     sqlite_sequence (db (snd (serve r w))) = sqlite_sequence (db w) + 1).
Proof.
  intros r w Hmax Hok. pose proof (serve_db r w) as Hs. cbv zeta in Hs.
  destruct (fst (serve r w)) eqn:Hfst.
  - destruct Hs as [ts [entry [Hdb [Hid [Hrc Hts]]]]].
    destruct Hok as [Hnd [Hseq [Hrows Htasks]]].
    assert (Hmaxrow : max_rowid (sync_queue (db w)) <= sqlite_sequence (db w)).
    { apply max_rowid_le; [ exact Hseq | ]. intros it Hin. now apply Hrows. }
    assert (Hid' : SyncQueueItem.ID entry = sqlite_sequence (db w) + 1) by lia.
    rewrite Hdb. unfold store_ok. cbn [sync_queue sqlite_sequence tasks].
    split; [ | split; [ lia | ] ].
    + split; [ | split; [ lia | split; [ | now apply Hts ] ] ].
      * unfold row_ids. rewrite map_app. simpl.
        eapply Permutation_NoDup; [ apply Permutation_cons_append | ].
        constructor; [ | exact Hnd ].
        intros Hin. apply in_map_iff in Hin. destruct Hin as [it [Hi Hin]].
        destruct (Hrows it Hin) as [Hle _]. lia.
      * intros it Hin. apply in_app_or in Hin.
        destruct Hin as [Hin|[Heq|[]]].
        -- destruct (Hrows it Hin) as [Hle Hb]. split; [ lia | exact Hb ].
        -- subst it. split; [ lia | lia ].
    + intros _. exists entry. auto.
  - destruct Hs as [Hdb|[Hr Hw]].
    + rewrite Hdb. split; [ exact Hok | ]. split; [ lia | discriminate ].
    + rewrite Hw. split; [ apply pass_keeps_store_ok; [ lia | exact Hok ] | ].
      split; [ | discriminate ].
      destruct (pass_frame w) as [_ [_ [Hsq _]]]. rewrite Hsq. lia.
Qed.

Lemma serve_all_keeps_store_ok : forall rs w,
  0 <= MaxRetries cfg <= max_int ->
  store_ok (db w) ->
  store_ok (db (snd (serve_all rs w))) /\
  sqlite_sequence (db w) <= sqlite_sequence (db (snd (serve_all rs w))).
Proof.
  induction rs as [|r rs IH]; intros w Hmax Hok; simpl.
  - split; [ exact Hok | lia ].
  - destruct (serve_keeps_store_ok r w Hmax Hok) as [Hok1 [Hle1 _]].
    destruct (serve r w) as [ok w1]. simpl in *.
    destruct (IH w1 Hmax Hok1) as [Hok2 Hle2].
    destruct (serve_all rs w1) as [n w2]. simpl in *.
    split; [ exact Hok2 | lia ].
Qed.

(** X14. Invariants of every session.  With [MaxRetries] between 0
    and the largest [int], the empty store satisfies [store_ok] and every
    session of calls (task mutations and passes, committed or not) keeps
    it: rowids are distinct and at most the AUTOINCREMENT counter, retry
    counts lie between 0 and [MaxRetries], task ids are distinct.  The
    counter never decreases, so rowids are never reused: a mutation
    committed at any later point of the session gets a rowid larger than
    that of every entry queued now, the entries delivered and deleted in
    between included. *)
Theorem store_ok_in_every_session : forall rs w,
  0 <= MaxRetries cfg <= max_int ->
  store_ok empty_db /\
  (store_ok (db w) ->
   let w1 := snd (serve_all rs w) in
   store_ok (db w1) /\
   sqlite_sequence (db w) <= sqlite_sequence (db w1) /\
   forall r, fst (serve r w1) = true ->
     exists entry,
       sync_queue (db (snd (serve r w1))) =
         (sync_queue (db w1) ++ [entry])%list /\
       SyncQueueItem.RetryCount entry = 0 /\
       forall old, In old (sync_queue (db w)) ->
         SyncQueueItem.ID old < SyncQueueItem.ID entry).
Proof.
  intros rs w Hmax. split.
  - unfold store_ok, empty_db. simpl.
    split; [ constructor | ]. split; [ lia | ].
    split; [ intros it [] | constructor ].
  - intros Hok. cbv zeta.
    destruct (serve_all_keeps_store_ok rs w Hmax Hok) as [Hok1 Hle].
    split; [ exact Hok1 | ]. split; [ exact Hle | ].
    intros r Hr.
    destruct (serve_keeps_store_ok r _ Hmax Hok1) as [Hok2 [_ Hnew]].
    destruct (Hnew Hr) as [entry [Hq [Hid Hseq]]].
    exists entry. split; [ exact Hq | ]. split.
    + destruct Hok2 as [_ [_ [Hrows _]]].
      assert (Hin : In entry (sync_queue (db (snd (serve r (snd (serve_all rs w)))))))
        by (rewrite Hq; apply in_or_app; right; now left).
      pose proof (serve_db r (snd (serve_all rs w))) as Hs. cbv zeta in Hs.
      rewrite Hr in Hs. destruct Hs as [ts [entry' [Hdb [_ [Hrc _]]]]].
      rewrite Hdb in Hq. simpl in Hq. apply app_inj_tail in Hq.
      destruct Hq as [_ Heq]. now subst entry'.
    + intros old Hold. destruct Hok as [_ [_ [Hrows _]]].
      destruct (Hrows old Hold) as [Hle' _]. lia.
Qed.

(** ** A pass under an authority that accepts, and under one that
    rejects *)

Lemma processSyncItem_accepted : forall item task w,
  (forall k, faults E k = None) ->
  Z.rem (clock E (ticks w)) 10 <> 0 ->
  GetTaskData item = Ok task ->
  db (snd (processSyncItem item w)) =
    mkDB (map (set_task_synced (clock E (S (ticks w))) (Task.ID task)
                 (Task.ID task)) (tasks (db w)))
         (delete_sync_queue (SyncQueueItem.ID item) (sync_queue (db w)))
         (sqlite_sequence (db w)).
Proof.
  intros item task w Hf Hrem Hdec. unfold processSyncItem. rewrite Hdec.
  unfold syncToServer, time_Now. simpl.
  apply Z.eqb_neq in Hrem. rewrite Hrem. simpl.
  unfold markAsSynced, db_call, time_Now. simpl.
  rewrite !Hf. reflexivity.
Qed.

Lemma processSyncItem_rejected : forall item task w,
  (forall k, faults E k = None) ->
  Z.rem (clock E (ticks w)) 10 = 0 ->
  GetTaskData item = Ok task ->
  min_int <= SyncQueueItem.RetryCount item < max_int ->
  db (snd (processSyncItem item w)) =
    mkDB (if (MaxRetries cfg <=? SyncQueueItem.RetryCount item + 1)%Z
          then map (set_task_error (SyncQueueItem.TaskID item))
                 (tasks (db w))
          else tasks (db w))
         (map (set_retry
                 (failed_once (clock E (S (ticks w)))
                    "simulated network error"
                    (SyncQueueItem.RetryCount item + 1) item))
              (sync_queue (db w)))
         (sqlite_sequence (db w)).
Proof.
  intros item task w Hf Hrem Hdec Hrange. unfold processSyncItem.
  rewrite Hdec. unfold syncToServer, time_Now. simpl.
  apply Z.eqb_eq in Hrem. rewrite Hrem. simpl.
  unfold handleSyncError, IncrementRetry, markTaskAsError, db_call, time_Now.
  simpl. rewrite !Hf. simpl. rewrite (wrap_int_succ _ Hrange).
  unfold failed_once.
  destruct (MaxRetries cfg <=? SyncQueueItem.RetryCount item + 1)%Z;
    reflexivity.
Qed.

Lemma process_one_db : forall item w,
  db (process_one item w) = db (snd (processSyncItem item w)).
Proof. intros item w. apply process_one_remote. Qed.

Lemma process_one_undecodable : forall item w,
  decodes item = false -> db (process_one item w) = db w.
Proof.
  intros item w H. rewrite process_one_db. unfold decodes in H.
  destruct (GetTaskData item) as [task|e] eqn:Hd; [ discriminate | ].
  now rewrite (processSyncItem_decode_error item e w Hd).
Qed.

Lemma Forall2_map_left : forall (A B : Type) (R T : A -> B -> Prop)
    (g : A -> A) (l : list A) (l' : list B),
  Forall2 R (map g l) l' ->
  (forall x y, In x l -> R (g x) y -> T x y) ->
  Forall2 T l l'.
Proof.
  intros A B R T g l. induction l as [|x l IH]; intros l' H Himp.
  - inversion H. constructor.
  - inversion H as [|? y ? l'' Hxy Hrest]; subst. constructor.
    + apply Himp; [ now left | exact Hxy ].
    + apply IH; [ exact Hrest | ]. intros x0 y0 Hin. apply Himp. now right.
Qed.

Lemma Forall2_refl_when : forall (A : Type) (R : A -> A -> Prop) (l : list A),
  (forall x, In x l -> R x x) -> Forall2 R l l.
Proof.
  intros A R l. induction l as [|x l IH]; intros H; constructor.
  - apply H. now left.
  - apply IH. intros y Hy. apply H. now right.
Qed.

Lemma filter_twice : forall (A : Type) (f g : A -> bool) (l : list A),
  filter f (filter g l) = filter (fun x => g x && f x) l.
Proof.
  intros A f g l. induction l as [|x l IH]; simpl; [ reflexivity | ].
  destruct (g x); simpl; [ | exact IH ].
  destruct (f x); now rewrite IH.
Qed.

Lemma Task_ID_set_task_synced : forall now sid id t,
  Task.ID (set_task_synced now sid id t) = Task.ID t.
Proof.
  intros now sid id t. unfold set_task_synced.
  destruct (String.eqb (Task.ID t) id); reflexivity.
Qed.

Lemma accepted_loop : forall items w,
  (forall k, faults E k = None) ->
  (forall k, Z.rem (clock E k) 10 <> 0) ->
  sync_queue (db (process_items items w)) =
    filter (fun row =>
              negb (has_rowid (filter decodes items) (SyncQueueItem.ID row)))
           (sync_queue (db w)) /\
  Forall2 (synced_if_delivered (filter decodes items))
    (tasks (db w)) (tasks (db (process_items items w))).
Proof.
  induction items as [|item rest IH]; intros w Hf Hacc.
  - simpl. split.
    + symmetry. apply forallb_filter_id. apply forallb_forall. reflexivity.
    + apply Forall2_refl_when. intros t _. split; reflexivity.
  - rewrite process_items_cons.
    destruct (IH (process_one item w) Hf Hacc) as [Hq Ht].
    simpl filter. destruct (decodes item) eqn:Hdec.
    + unfold decodes in Hdec.
      destruct (GetTaskData item) as [task|e] eqn:Hd; [ | discriminate ].
      rewrite process_one_db in Hq, Ht.
      rewrite (processSyncItem_accepted item task w Hf (Hacc _) Hd) in Hq, Ht.
      cbn [sync_queue tasks] in Hq, Ht. split.
      * rewrite Hq. unfold delete_sync_queue. rewrite filter_twice.
        apply filter_ext. intros row. unfold has_rowid. simpl.
        rewrite negb_orb, (Z.eqb_sym (SyncQueueItem.ID item)).
        reflexivity.
      * eapply Forall2_map_left; [ exact Ht | ].
        clear Ht Hq IH. intros t t' _ H.
        unfold synced_if_delivered in *. destruct H as [Hc Hs].
        rewrite task_content_set_task_synced in Hc.
        rewrite Task_ID_set_task_synced in Hs.
        split; [ exact Hc | ].
        unfold delivers in *. cbn [filter existsb]. rewrite Hd.
        destruct (String.eqb (Task.ID task) (Task.ID t)) eqn:Hid;
          cbn [orb].
        -- destruct (existsb _ (filter decodes rest)); [ exact Hs | ].
           subst t'. unfold set_task_synced.
           rewrite String.eqb_sym, Hid. simpl.
           apply String.eqb_eq in Hid. rewrite Hid.
           repeat split. eexists. reflexivity.
        -- destruct (existsb _ (filter decodes rest)); [ exact Hs | ].
           subst t'. unfold set_task_synced.
           now rewrite String.eqb_sym, Hid.
    + rewrite (process_one_undecodable item w Hdec) in Hq, Ht.
      split; assumption.
Qed.

Lemma pass_items : forall w,
  faults E (ops w) = None ->
  db (snd (ProcessSyncQueue w)) =
    db (process_items (filter scans (select_pending (sync_queue (db w))))
          (snd (scan_rows (select_pending (sync_queue (db w)))
                  (snd (db_call w))))) /\
  db (snd (scan_rows (select_pending (sync_queue (db w)))
             (snd (db_call w)))) = db w.
Proof.
  intros w F0. rewrite (ProcessSyncQueue_ok w F0). cbn [snd].
  destruct (scan_rows_spec (select_pending (sync_queue (db w)))
              (snd (db_call w))) as [Hitems [Hdb _]].
  rewrite Hitems. split; [ reflexivity | exact Hdb ].
Qed.

(** X15. A pass that the remote authority accepts throughout, on a
    store whose calls all succeed: the queue loses exactly the rows whose
    rowid is that of an attempted entry (selected, scanning, decoding) and
    keeps the others as they are and in order; each task keeps its place
    and content, is [synced] with its own id as server id and a clock
    reading as last sync if an attempted snapshot carries its id, and is
    untouched otherwise.  If moreover every eligible row is within the
    batch, scans and decodes, no eligible row is left: the status would
    report 0 pending. *)
Theorem accepted_pass_delivers_the_batch : forall w,
  (forall k, faults E k = None) ->
  (forall k, Z.rem (clock E k) 10 <> 0) ->
  let q := sync_queue (db w) in
  let w' := snd (ProcessSyncQueue w) in
  fst (ProcessSyncQueue w) = None /\
  sync_queue (db w') =
    filter (fun row => negb (has_rowid (attempted q) (SyncQueueItem.ID row)))
      q /\
  Forall2 (synced_if_delivered (attempted q)) (tasks (db w))
    (tasks (db w')) /\
  ((forall row, In row q -> eligible row = true ->
      In row (attempted q)) ->
   count_pending (sync_queue (db w')) = 0).
Proof.
  intros w Hf Hacc. cbv zeta.
  destruct (pass_items w (Hf _)) as [Hdb Hdb1].
  rewrite (ProcessSyncQueue_ok w (Hf _)). cbn [fst].
  rewrite (ProcessSyncQueue_ok w (Hf _)) in Hdb. cbn [snd] in *.
  split; [ reflexivity | ].
  destruct (accepted_loop
              (filter scans (select_pending (sync_queue (db w))))
              (snd (scan_rows (select_pending (sync_queue (db w)))
                      (snd (db_call w)))) Hf Hacc) as [Hq Ht].
  rewrite Hdb1 in Hq, Ht. fold (attempted (sync_queue (db w))) in Hq, Ht.
  rewrite Hdb. split; [ exact Hq | ]. split; [ exact Ht | ].
  intros Hall. unfold count_pending. rewrite Hq.
  rewrite filter_none; [ reflexivity | ].
  intros row Hin. apply filter_In in Hin. destruct Hin as [Hin Hnot].
  destruct (eligible row) eqn:Hel; [ | reflexivity ].
  exfalso. apply negb_true_iff in Hnot.
  assert (Hhas : has_rowid (attempted (sync_queue (db w)))
                   (SyncQueueItem.ID row) = true).
  { apply existsb_exists. exists row. split; [ now apply Hall | ].
    apply Z.eqb_refl. }
  congruence.
Qed.

Lemma set_task_error_idem : forall id t,
  set_task_error (Task.ID t) (set_task_error id t) =
  if String.eqb (Task.ID t) id then set_task_error id t
  else set_task_error (Task.ID t) t.
Proof.
  intros id t. unfold set_task_error at 2 3.
  destruct (String.eqb (Task.ID t) id) eqn:Hid; [ | reflexivity ].
  unfold set_task_error. simpl. now rewrite String.eqb_refl.
Qed.

Lemma Task_ID_set_task_error : forall id t,
  Task.ID (set_task_error id t) = Task.ID t.
Proof.
  intros id t. unfold set_task_error.
  destruct (String.eqb (Task.ID t) id); reflexivity.
Qed.

Lemma has_rowid_false : forall items id,
  ~ In id (row_ids items) -> has_rowid items id = false.
Proof.
  intros items id H. unfold has_rowid.
  destruct (existsb _ items) eqn:Hex; [ | reflexivity ].
  exfalso. apply H. apply existsb_exists in Hex.
  destruct Hex as [it [Hin Heq]]. apply Z.eqb_eq in Heq.
  unfold row_ids. apply in_map_iff. exists it. now split.
Qed.

Lemma rejected_loop : forall items w,
  (forall k, faults E k = None) ->
  (forall k, Z.rem (clock E k) 10 = 0) ->
  MaxRetries cfg <= max_int ->
  batch_ready items w ->
  (forall it, In it items -> 0 <= SyncQueueItem.RetryCount it) ->
  Forall2 (failed_if_attempted (filter decodes items))
    (sync_queue (db w)) (sync_queue (db (process_items items w))) /\
  tasks (db (process_items items w)) =
    map (fun t =>
           if exhausts (filter decodes items) (Task.ID t)
           then set_task_error (Task.ID t) t else t)
        (tasks (db w)).
Proof.
  induction items as [|item rest IH]; intros w Hf Hrej Hmax Hready Hnonneg.
  - simpl. split.
    + apply Forall2_refl_when. intros row _. reflexivity.
    + symmetry. erewrite map_ext; [ apply map_id | ]. reflexivity.
  - rewrite process_items_cons.
    destruct (process_one_step item rest w Hready) as [Hready1 _].
    assert (Hrest : forall it, In it rest -> 0 <= SyncQueueItem.RetryCount it)
      by (intros it Hin; apply Hnonneg; now right).
    destruct (IH (process_one item w) Hf Hrej Hmax Hready1 Hrest) as [Hq Ht].
    destruct Hready as [Hnd [Hndi Hitems]].
    destruct (Hitems item (or_introl eq_refl)) as [Hitem_in Hitem_el].
    inversion Hndi as [|? ? Hnotin _]; subst.
    simpl filter. destruct (decodes item) eqn:Hdec.
    + unfold decodes in Hdec.
      destruct (GetTaskData item) as [task|e] eqn:Hd; [ | discriminate ].
      assert (Hrange : min_int <= SyncQueueItem.RetryCount item < max_int).
      { specialize (Hnonneg item (or_introl eq_refl)).
        unfold eligible in Hitem_el. apply Z.ltb_lt in Hitem_el.
        unfold min_int, max_int in *. lia. }
      rewrite process_one_db in Hq, Ht.
      rewrite (processSyncItem_rejected item task w Hf (Hrej _) Hd Hrange)
        in Hq, Ht.
      cbn [sync_queue tasks] in Hq, Ht. split.
      * eapply Forall2_map_left; [ exact Hq | ].
        clear Hq Ht IH. intros x y Hx H.
        unfold failed_if_attempted in *. unfold has_rowid at 1.
        cbn [existsb]. fold (has_rowid (filter decodes rest)).
        destruct (Z.eq_dec (SyncQueueItem.ID x) (SyncQueueItem.ID item))
          as [Heq|Hne].
        -- assert (x = item)
             by exact (row_of_id _ _ _ Hnd Hx Hitem_in Heq).
           subst x. rewrite Z.eqb_refl. cbn [orb].
           unfold set_retry in H. cbn [failed_once SyncQueueItem.ID] in H.
           rewrite Z.eqb_refl in H. cbn [SyncQueueItem.ID] in H.
           rewrite has_rowid_false in H.
           ++ exists (S (ticks w)). exact H.
           ++ intros Hin. apply Hnotin. unfold row_ids in *.
              apply in_map_iff in Hin. destruct Hin as [it [Hid Hin]].
              apply filter_In in Hin. apply in_map_iff. exists it.
              split; [ exact Hid | apply Hin ].
        -- rewrite set_retry_other in H by exact Hne.
           assert (Hb : (SyncQueueItem.ID item =? SyncQueueItem.ID x)%Z
                        = false)
             by (apply Z.eqb_neq; intros Hc; apply Hne; now symmetry).
           rewrite Hb. exact H.
      * rewrite Ht. clear Hq Ht IH.
        unfold exhausts at 2. cbn [existsb].
        fold (exhausts (filter decodes rest)).
        destruct (MaxRetries cfg <=? SyncQueueItem.RetryCount item + 1)%Z.
        -- rewrite map_map. apply map_ext. intros t.
           rewrite Task_ID_set_task_error, set_task_error_idem.
           rewrite andb_true_r, (String.eqb_sym (SyncQueueItem.TaskID item)).
           destruct (String.eqb (Task.ID t) (SyncQueueItem.TaskID item))
             eqn:Hid; cbn [orb].
           ++ apply String.eqb_eq in Hid. rewrite <- Hid.
              destruct (exhausts (filter decodes rest) (Task.ID t));
                reflexivity.
           ++ assert (Hsame : set_task_error (SyncQueueItem.TaskID item) t
                               = t)
                by (unfold set_task_error; now rewrite Hid).
              rewrite Hsame. reflexivity.
        -- apply map_ext. intros t. now rewrite andb_false_r.
    + rewrite (process_one_undecodable item w Hdec) in Hq, Ht.
      split; assumption.
Qed.

(** X16. A pass that the remote authority rejects throughout, on a
    store whose calls all succeed, with distinct rowids and retry counts
    that are not negative: no row is deleted or moved; each attempted
    entry (selected, scanning, decoding) has its retry count incremented by
    one, a clock reading as last attempt and "simulated network error" as
    message, every other row is untouched; and a task is put in state
    [error] exactly when one of its attempted entries thereby reaches
    [MaxRetries], the other tasks being untouched. *)
Theorem rejected_pass_counts_one_failure : forall w,
  (forall k, faults E k = None) ->
  (forall k, Z.rem (clock E k) 10 = 0) ->
  MaxRetries cfg <= max_int ->
  NoDup (row_ids (sync_queue (db w))) ->
  (forall row, In row (sync_queue (db w)) ->
     0 <= SyncQueueItem.RetryCount row) ->
  let q := sync_queue (db w) in
  let w' := snd (ProcessSyncQueue w) in
  fst (ProcessSyncQueue w) = None /\
  Forall2 (failed_if_attempted (attempted q)) q (sync_queue (db w')) /\
  List.length (sync_queue (db w')) = List.length q /\
  tasks (db w') =
    map (fun t =>
           if exhausts (attempted q) (Task.ID t)
           then set_task_error (Task.ID t) t else t)
        (tasks (db w)).
Proof.
  intros w Hf Hrej Hmax Hnd Hnonneg. cbv zeta.
  destruct (pass_items w (Hf _)) as [Hdb Hdb1].
  rewrite (ProcessSyncQueue_ok w (Hf _)). cbn [fst].
  rewrite (ProcessSyncQueue_ok w (Hf _)) in Hdb. cbn [snd] in *.
  split; [ reflexivity | ].
  set (items := filter scans (select_pending (sync_queue (db w)))) in *.
  set (w2 := snd (scan_rows (select_pending (sync_queue (db w)))
                    (snd (db_call w)))) in *.
  assert (Hsel : forall it, In it items ->
            In it (sync_queue (db w)) /\ eligible it = true).
  { intros it Hin. apply filter_In in Hin. destruct Hin as [Hin _].
    now apply In_select_pending. }
  assert (Hready : batch_ready items w2).
  { unfold batch_ready. rewrite Hdb1. split; [ exact Hnd | ].
    split; [ | exact Hsel ].
    now apply NoDup_row_ids_filter, NoDup_row_ids_select_pending. }
  destruct (rejected_loop items w2 Hf Hrej Hmax Hready) as [Hq Ht].
  { intros it Hin. apply Hnonneg. now apply Hsel. }
  rewrite Hdb1 in Hq, Ht. rewrite Hdb.
  split; [ exact Hq | ]. split; [ | exact Ht ].
  symmetry. eapply Forall2_length. exact Hq.
Qed.

Lemma Forall2_In_left : forall (A B : Type) (R : A -> B -> Prop) l l' x,
  Forall2 R l l' -> In x l -> exists y, In y l' /\ R x y.
Proof.
  intros A B R l l' x H. induction H as [|a b l l' Hab H IH]; intros Hin.
  - contradiction.
  - destruct Hin as [Heq|Hin].
    + subst a. exists b. split; [ now left | exact Hab ].
    + destruct (IH Hin) as [y [Hy Hr]]. exists y. split; [ now right | exact Hr ].
Qed.

(** One rejected pass, as the lemmas above give it. *)
Lemma rejected_pass : forall w,
  (forall k, faults E k = None) ->
  (forall k, Z.rem (clock E k) 10 = 0) ->
  MaxRetries cfg <= max_int ->
  queue_ok (sync_queue (db w)) ->
  Forall2 (failed_if_attempted (attempted (sync_queue (db w))))
    (sync_queue (db w)) (sync_queue (db (snd (ProcessSyncQueue w)))) /\
  tasks (db (snd (ProcessSyncQueue w))) =
    map (fun t =>
           if exhausts (attempted (sync_queue (db w))) (Task.ID t)
           then set_task_error (Task.ID t) t else t)
        (tasks (db w)) /\
  queue_ok (sync_queue (db (snd (ProcessSyncQueue w)))).
Proof.
  intros w Hf Hrej Hmax Hok.
  split; [ | split ].
  3:{ destruct (queue_ok_preserved w Hok) as [Hp _]. now apply Hp. }
  all: destruct Hok as [Hnd Hnonneg].
  all: destruct (pass_items w (Hf _)) as [Hdb Hdb1].
  all: set (items := filter scans (select_pending (sync_queue (db w)))) in *.
  all: set (w2 := snd (scan_rows (select_pending (sync_queue (db w)))
                         (snd (db_call w)))) in *.
  all: assert (Hsel : forall it, In it items ->
                 In it (sync_queue (db w)) /\ eligible it = true)
         by (intros it Hin; apply filter_In in Hin; destruct Hin as [Hin _];
             now apply In_select_pending).
  all: assert (Hready : batch_ready items w2)
         by (unfold batch_ready; rewrite Hdb1; split; [ exact Hnd | ];
             split; [ | exact Hsel ];
             now apply NoDup_row_ids_filter, NoDup_row_ids_select_pending).
  all: destruct (rejected_loop items w2 Hf Hrej Hmax Hready) as [Hq Ht];
         [ intros it Hin; apply Hnonneg; now apply Hsel | ].
  all: rewrite Hdb1 in Hq, Ht; rewrite Hdb.
  - exact Hq.
  - exact Ht.
Qed.

Lemma In_select_pending_unlimited : forall q e,
  SyncBatchSize cfg < 0 ->
  In e q -> eligible e = true -> In e (select_pending q).
Proof.
  intros q e Hb Hin Hel. unfold select_pending, sql_limit.
  apply Z.ltb_lt in Hb. rewrite Hb.
  eapply Permutation_in.
  - apply Permutation_sym, order_by_created_at_perm.
  - apply filter_In. now split.
Qed.

Lemma rejected_passes_keep_error : forall n w id,
  (forall k, faults E k = None) ->
  (forall k, Z.rem (clock E k) 10 = 0) ->
  MaxRetries cfg <= max_int ->
  queue_ok (sync_queue (db w)) ->
  (forall t, In t (tasks (db w)) -> Task.ID t = id ->
     Task.Status t = SyncStatusError) ->
  forall t, In t (tasks (db (sync_passes n w))) -> Task.ID t = id ->
    Task.Status t = SyncStatusError.
Proof.
  induction n as [|n IH]; intros w id Hf Hrej Hmax Hok Herr; simpl.
  - exact Herr.
  - destruct (rejected_pass w Hf Hrej Hmax Hok) as [_ [Ht Hok1]].
    apply IH; try assumption.
    intros t Hin Hid. rewrite Ht in Hin. apply in_map_iff in Hin.
    destruct Hin as [t0 [Heq Hin0]].
    destruct (exhausts _ (Task.ID t0)).
    + subst t. unfold set_task_error. rewrite String.eqb_refl. reflexivity.
    + subst t0. now apply Herr.
Qed.

(** X17. The retry budget is exactly [MaxRetries] attempts.  Under an
    authority that rejects throughout, a store whose calls all succeed and
    no batch limit, an entry that scans and decodes has after [n] passes
    its retry count raised by [n] but not beyond [MaxRetries] (an entry
    already at or over the limit keeps its count), its identity unchanged;
    and once the count has reached [MaxRetries] every row of its task is
    in state [error]. *)
Theorem retries_stop_at_MaxRetries : forall n w e,
  (forall k, faults E k = None) ->
  (forall k, Z.rem (clock E k) 10 = 0) ->
  MaxRetries cfg <= max_int ->
  SyncBatchSize cfg < 0 ->
  queue_ok (sync_queue (db w)) ->
  In e (sync_queue (db w)) ->
  decodes e = true ->
  scans e = true ->
  exists e',
    In e' (sync_queue (db (sync_passes n w))) /\
    entry_content e' = entry_content e /\
    SyncQueueItem.RetryCount e' =
      Z.max (SyncQueueItem.RetryCount e)
        (Z.min (SyncQueueItem.RetryCount e + Z.of_nat n) (MaxRetries cfg)) /\
    (SyncQueueItem.RetryCount e < MaxRetries cfg <=
       SyncQueueItem.RetryCount e + Z.of_nat n ->
     forall t, In t (tasks (db (sync_passes n w))) ->
       Task.ID t = SyncQueueItem.TaskID e ->
       Task.Status t = SyncStatusError).
Proof.
  induction n as [|n IH]; intros w e Hf Hrej Hmax Hbatch Hok Hin Hdec Hscan.
  - exists e. simpl. split; [ exact Hin | ]. split; [ reflexivity | ].
    split; [ lia | intros; lia ].
  - simpl sync_passes.
    destruct (rejected_pass w Hf Hrej Hmax Hok) as [Hq [Ht Hok1]].
    destruct (eligible e) eqn:Hel.
    + (* attempted in this pass *)
      assert (Hatt : In e (attempted (sync_queue (db w)))).
      { unfold attempted. apply filter_In. split; [ | exact Hdec ].
        apply filter_In. split; [ | exact Hscan ].
        now apply In_select_pending_unlimited. }
      destruct (Forall2_In_left _ _ _ _ _ _ Hq Hin) as [e1 [Hin1 Hr]].
      unfold failed_if_attempted in Hr.
      assert (Hhas : has_rowid (attempted (sync_queue (db w)))
                       (SyncQueueItem.ID e) = true).
      { apply existsb_exists. exists e. split; [ exact Hatt | ].
        apply Z.eqb_refl. }
      rewrite Hhas in Hr. destruct Hr as [k Hr].
      assert (Hdec1 : decodes e1 = true)
        by (subst e1; unfold decodes, GetTaskData in *; exact Hdec).
      assert (Hscan1 : scans e1 = true) by (subst e1; exact Hscan).
      destruct (IH _ e1 Hf Hrej Hmax Hbatch Hok1 Hin1 Hdec1 Hscan1)
        as [e' [Hin' [Hc [Hrc Herr]]]].
      unfold eligible in Hel. apply Z.ltb_lt in Hel.
      destruct Hok as [_ Hnonneg]. specialize (Hnonneg e Hin).
      assert (Hrc1 : SyncQueueItem.RetryCount e1 =
                     SyncQueueItem.RetryCount e + 1) by now subst e1.
      assert (Hid1 : SyncQueueItem.TaskID e1 = SyncQueueItem.TaskID e)
        by now subst e1.
      exists e'. split; [ exact Hin' | ].
      split; [ rewrite Hc; now subst e1 | ].
      split; [ rewrite Hrc, Hrc1; lia | ].
      intros Hreach.
      destruct (Z_lt_le_dec (SyncQueueItem.RetryCount e + 1) (MaxRetries cfg))
        as [Hlt|Hge].
      * rewrite <- Hid1. apply Herr. lia.
      * (* exhausted by this very pass *)
        apply rejected_passes_keep_error; try assumption.
        intros t Htin Hid. rewrite Ht in Htin. apply in_map_iff in Htin.
        destruct Htin as [t0 [Heq Hin0]].
        assert (Hex : exhausts (attempted (sync_queue (db w))) (Task.ID t0)
                      = true).
        { apply existsb_exists. exists e. split; [ exact Hatt | ].
          assert (Hid0 : Task.ID t0 = SyncQueueItem.TaskID e).
          { rewrite <- Hid. subst t.
            destruct (exhausts _ (Task.ID t0));
              [ now rewrite Task_ID_set_task_error | reflexivity ]. }
          rewrite Hid0, String.eqb_refl. simpl. apply Z.leb_le. lia. }
        rewrite Hex in Heq. subst t. unfold set_task_error.
        rewrite String.eqb_refl. reflexivity.
    + (* already exhausted: not selected, untouched *)
      assert (Hnot : ~ In e (select_pending (sync_queue (db w)))).
      { intros Hs. apply In_select_pending in Hs. destruct Hs as [_ Hs].
        congruence. }
      assert (Hin1 : In e (sync_queue (db (snd (ProcessSyncQueue w))))).
      { destruct (pass_frame w) as [_ [_ [_ Hk]]].
        apply Hk; [ apply Hok | exact Hin | exact Hnot ]. }
      destruct (IH _ e Hf Hrej Hmax Hbatch Hok1 Hin1 Hdec Hscan)
        as [e' [Hin' [Hc [Hrc Herr]]]].
      unfold eligible in Hel. apply Z.ltb_ge in Hel.
      exists e'. split; [ exact Hin' | ]. split; [ exact Hc | ].
      split; [ rewrite Hrc; lia | intros; lia ].
Qed.

(** X18. [handleSyncError] when one of its writes fails.  If the
    bookkeeping UPDATE fails, the error is returned, the store is unchanged
    and the attempt is not counted.  If the UPDATE succeeds, the new count
    reaches [MaxRetries] and the UPDATE of the task fails, the failure is
    only logged: nil is returned, the entry is retained with its count
    raised, so no later pass selects it, and the task is left in the state
    it had, not [error]. *)
Theorem handleSyncError_when_a_write_fails : forall item syncErr w,
  let w' := snd (handleSyncError item syncErr w) in
  (forall e, faults E (ops w) = Some e ->
     fst (handleSyncError item syncErr w) =
       Some (wrap_error "failed to update sync queue item" e) /\
     db w' = db w) /\
  (forall e,
     faults E (ops w) = None ->
     faults E (S (ops w)) = Some e ->
     min_int <= SyncQueueItem.RetryCount item < max_int ->
     MaxRetries cfg <= SyncQueueItem.RetryCount item + 1 ->
     fst (handleSyncError item syncErr w) = None /\
     tasks (db w') = tasks (db w) /\
     In ("Failed to mark task as error: " ++ e) (log w') /\
     List.length (sync_queue (db w')) = List.length (sync_queue (db w)) /\
     forall row', In row' (sync_queue (db w')) ->
       SyncQueueItem.ID row' = SyncQueueItem.ID item ->
       SyncQueueItem.RetryCount row' = SyncQueueItem.RetryCount item + 1 /\
       eligible row' = false).
Proof.
  intros item syncErr w. cbv zeta.
  unfold handleSyncError, IncrementRetry, markTaskAsError, time_Now, db_call.
  simpl. split.
  - intros e F0. rewrite F0. simpl. split; reflexivity.
  - intros e F0 F1 Hrange Hmax. rewrite F0. simpl.
    rewrite (wrap_int_succ _ Hrange).
    apply Z.leb_le in Hmax. rewrite Hmax. simpl. rewrite F1. simpl.
    split; [ reflexivity | ]. split; [ reflexivity | ].
    split; [ apply in_or_app; right; now left | ].
    split; [ apply length_map | ].
    intros row' Hin Hid. apply in_map_iff in Hin.
    destruct Hin as [row [Heq Hin]]. subst row'. unfold set_retry in *.
    simpl in *.
    destruct (SyncQueueItem.ID row =? SyncQueueItem.ID item)%Z eqn:Hr.
    + simpl. split; [ reflexivity | ]. unfold eligible. simpl.
      apply Z.ltb_ge. now apply Z.leb_le.
    + apply Z.eqb_neq in Hr. contradiction.
Qed.

End Program.

(** ** The model at work *)

(** Scenario of the specification: create T1, update it, run one pass with
    an authority that accepts: the queue is empty and the task is synced. *)
Example create_update_sync :
  let w' := snd (ProcessSyncQueue demo_env demo_cfg create_then_update) in
  sync_queue (db w') = [] /\
  map Task.Status (tasks (db w')) = [SyncStatusSynced] /\
  map Task.LastSyncedAt (tasks (db w')) = [Some 4].
Proof. vm_compute. repeat split. Qed.

(** Scenario of the specification: an authority that always fails,
    [MaxRetries = 3]: after three passes the entry is retained with retry
    count 3 and the task is in state [error]; after one or two passes the
    task is still pending. *)
Example three_failed_passes :
  let w1 := sync_passes offline_env demo_cfg 1 single_create in
  let w3 := sync_passes offline_env demo_cfg 3 single_create in
  map Task.Status (tasks (db w1)) = [SyncStatusPending] /\
  map SyncQueueItem.RetryCount (sync_queue (db w1)) = [1] /\
  map Task.Status (tasks (db w3)) = [SyncStatusError] /\
  map SyncQueueItem.RetryCount (sync_queue (db w3)) = [3] /\
  map SyncQueueItem.ErrorMessage (sync_queue (db w3)) =
    [Some "simulated network error"] /\
  sync_passes offline_env demo_cfg 4 single_create =
    snd (db_call offline_env w3).
Proof. vm_compute. repeat split. Qed.

(** The queue insert of [CreateTask] fails (third database call): the task
    row written just before it is rolled back. *)
Example create_rolled_back :
  let req := {| cr_Title := "B"; cr_Description := None |} in
  let r := CreateTask (faulty_env 1 1 [2%nat]) req single_create in
  fst r = Err (wrap_error "failed to add to sync queue"
                 (wrap_error "failed to insert into sync queue"
                    "disk I/O error")) /\
  db (snd r) = db single_create.
Proof. vm_compute. repeat split. Qed.

Example create_committed :
  let req := {| cr_Title := "B"; cr_Description := None |} in
  let r := CreateTask demo_env req single_create in
  map Task.ID (tasks (db (snd r))) = ["T1"; "T2"] /\
  map SyncQueueItem.TaskID (sync_queue (db (snd r))) = ["T1"; "T2"] /\
  map SyncQueueItem.ID (sync_queue (db (snd r))) = [1; 2].
Proof. vm_compute. repeat split. Qed.

(** The commit of [markAsSynced] fails (fourth database call): the task is
    not marked and the entry stays queued with retry count 0. *)
Example mark_synced_rolled_back :
  let item := demo_item 1 "T1" OperationTypeCreate "T1" 0 100 in
  let r := markAsSynced (faulty_env 1 1 [3%nat]) item (demo_task "T1")
             single_create in
  fst r = Some "disk I/O error" /\ db (snd r) = db single_create.
Proof. vm_compute. repeat split. Qed.

(** The text the driver stores and the layout of [GetSyncStatus]: the
    layout has no zone offset, so the stored text does not parse. *)
Example driver_text_and_layout :
  demo_time_text 0 = "1970-01-01 00:00:00+00:00" /\
  demo_time_text (1700000000 * 1000000000 + 500000000) =
    "2023-11-14 22:13:20.5+00:00" /\
  sqlite_time_text (fun _ => 19800) (1700000000 * 1000000000) =
    "2023-11-15 03:43:20+05:30" /\
  demo_time_Parse "2023-11-14 22:13:20" = Ok (1700000000 * 1000000000) /\
  demo_time_Parse (demo_time_text (1700000000 * 1000000000)) =
    Err "parsing time: extra text".
Proof. vm_compute. repeat split. Qed.

(** The order of a pass is the order of the stored texts.  T1 was queued
    ten minutes before the zone offset of the process changed from +02:00
    to +01:00 and T2 ten minutes after: the text of T2 is the smaller one
    and T2 is delivered first. *)
Example delivery_order_across_offset_change :
  let w := across_fall_back in
  map SyncQueueItem.CreatedAt (sync_queue (db w)) =
    [1698540600000000000; 1698541800000000000] /\
  map (fun it => db_time_text fall_back_env (SyncQueueItem.CreatedAt it))
      (sync_queue (db w)) =
    ["2023-10-29 02:50:00+02:00"; "2023-10-29 02:10:00+01:00"] /\
  row_ids (select_pending fall_back_env demo_cfg (sync_queue (db w))) =
    [2; 1] /\
  handed_over w (snd (ProcessSyncQueue fall_back_env demo_cfg w)) =
    [(OperationTypeCreate, demo_task "T2");
     (OperationTypeCreate, demo_task "T1")].
Proof. vm_compute. repeat split. Qed.

(** ** Where the code departs from the specification *)

(** C1 fails on the code.  T1 was created and then updated; both
    operations are queued.  Delivering the create, which is not the latest
    mutation of T1, marks T1 [synced] although the newer update is still
    queued; with a batch size of 1 this is the state a whole pass leaves
    behind. *)
Lemma synced_despite_newer_entry :
  let older := demo_item 1 "T1" OperationTypeCreate "T1" 0 100 in
  let newer := demo_item 2 "T1" OperationTypeUpdate "T1" 0 200 in
  let w := create_then_update in
  let w' := snd (processSyncItem demo_env demo_cfg older w) in
  let one_at_a_time := {| SyncBatchSize := 1; MaxRetries := 3 |} in
  let w'' := snd (ProcessSyncQueue demo_env one_at_a_time w) in
  sync_queue (db w) = [older; newer] /\
  SyncQueueItem.TaskID newer = SyncQueueItem.TaskID older /\
  SyncQueueItem.ID older < SyncQueueItem.ID newer /\
  map Task.Status (tasks (db w)) = [SyncStatusPending] /\
  sync_queue (db w') = [newer] /\
  map Task.Status (tasks (db w')) = [SyncStatusSynced] /\
  sync_queue (db w'') = [newer] /\
  map Task.Status (tasks (db w'')) = [SyncStatusSynced].
Proof. vm_compute. repeat split. Qed.

(** C2 fails on the code.  An update and a delete of T1 are queued, their
    snapshots carrying the same [updated_at].  [ResolveConflicts] selects
    neither: both are still queued, the update is still selected ahead of
    the delete by the next pass, and that pass hands both to the remote
    authority. *)
Lemma tie_left_unresolved :
  let u := demo_item 1 "T1" OperationTypeUpdate "T1" 0 100 in
  let d := demo_item 2 "T1" OperationTypeDelete "T1" 0 100 in
  let w := update_delete_tie in
  let w' := snd (ResolveConflicts w) in
  sync_queue (db w) = [u; d] /\
  GetTaskData demo_env u = Ok (demo_task "T1") /\
  GetTaskData demo_env d = Ok (demo_task "T1") /\
  fst (ResolveConflicts w) = None /\
  sync_queue (db w') = [u; d] /\
  tasks (db w') = tasks (db w) /\
  select_pending demo_env demo_cfg (sync_queue (db w')) = [u; d] /\
  handed_over w' (snd (ProcessSyncQueue demo_env demo_cfg w')) =
    [(OperationTypeUpdate, demo_task "T1");
     (OperationTypeDelete, demo_task "T1")].
Proof. vm_compute. repeat split. Qed.

(** C3 fails on the code.  Row 1 was inserted before row 2 but carries the
    later [created_at]: the pass delivers row 2 first.  And a selected
    entry whose snapshot does not decode is not delivered at all. *)
Lemma pass_not_in_insertion_order :
  let w := clock_stepped_back in
  let w' := snd (ProcessSyncQueue demo_env demo_cfg w) in
  let b := broken_snapshot in
  row_ids (sync_queue (db w)) = [1; 2] /\
  map SyncQueueItem.TaskID (sync_queue (db w)) = ["T1"; "T2"] /\
  row_ids (select_pending demo_env demo_cfg (sync_queue (db w))) = [2; 1] /\
  handed_over w w' =
    [(OperationTypeCreate, demo_task "T2");
     (OperationTypeCreate, demo_task "T1")] /\
  row_ids (select_pending demo_env demo_cfg (sync_queue (db b))) = [1] /\
  handed_over b (snd (ProcessSyncQueue demo_env demo_cfg b)) = [].
Proof. vm_compute. repeat split. Qed.

(** C8 fails on the code.  On a store where no task has synced the status
    carries a last-sync instant, [time.Unix(0, 0)].  And in the middle of
    a pass, after its first entry and before its second, the status says
    [InProgress = false]; T1 has just been marked synced, but the text the
    driver stored for that instant does not parse with the layout of
    [GetSyncStatus], so the last sync is still [time.Unix(0, 0)]. *)
Lemma status_epoch_and_never_in_progress :
  let first := demo_item 1 "T1" OperationTypeCreate "T1" 0 100 in
  let second := demo_item 2 "T1" OperationTypeUpdate "T1" 0 200 in
  let w := create_then_update in
  let mid := process_one demo_env demo_cfg first (snd (db_call demo_env w)) in
  max_last_synced_at demo_env (tasks (db single_create)) = None /\
  fst (GetSyncStatus demo_env demo_cfg single_create) =
    Ok (services.mk 1 0 0 false) /\
  snd (ProcessSyncQueue demo_env demo_cfg w) =
    process_items demo_env demo_cfg [second] mid /\
  map Task.Status (tasks (db mid)) = [SyncStatusSynced] /\
  max_last_synced_at demo_env (tasks (db mid)) = Some 2 /\
  db_time_text demo_env 2 = "1970-01-01 00:00:00.000000002+00:00" /\
  fst (GetSyncStatus demo_env demo_cfg mid) = Ok (services.mk 1 0 0 false).
Proof. vm_compute. repeat split. Qed.


(** ** The theorems at concrete stores *)

(** The create of T1 is delivered from [create_then_update]: the remote
    authority accepts (the clock reads 1) and no database call fails. *)
Lemma synced_by_every_successful_delivery_witness :
  let item := demo_item 1 "T1" OperationTypeCreate "T1" 0 100 in
  let w := create_then_update in
  let w' := snd (processSyncItem demo_env demo_cfg item w) in
  GetTaskData demo_env item = Ok (demo_task "T1") /\
  Z.rem (clock demo_env (ticks w)) 10 <> 0 /\
  faults demo_env (ops w) = None /\
  faults demo_env (S (ops w)) = None /\
  faults demo_env (S (S (ops w))) = None /\
  faults demo_env (S (S (S (ops w)))) = None /\
  fst (processSyncItem demo_env demo_cfg item w) = None /\
  (forall t, In t (tasks (db w')) -> Task.ID t = "T1" ->
     Task.Status t = SyncStatusSynced).
Proof.
  cbv zeta.
  assert (Hrem : Z.rem (clock demo_env (ticks create_then_update)) 10 <> 0)
    by (vm_compute; discriminate).
  split; [ reflexivity | ]. split; [ exact Hrem | ].
  split; [ reflexivity | ]. split; [ reflexivity | ].
  split; [ reflexivity | ]. split; [ reflexivity | ].
  destruct (proj1 (synced_by_every_successful_delivery demo_env demo_cfg
                     (demo_item 1 "T1" OperationTypeCreate "T1" 0 100)
                     create_then_update)
              (demo_task "T1") eq_refl Hrem eq_refl eq_refl eq_refl eq_refl)
    as [Hr [Hs _]].
  split; [ exact Hr | exact Hs ].
Defined.

(** A pass over [create_then_update], whose [created_at] follows the
    rowids, in a process whose zone is UTC: the batch is the queue,
    delivered in insertion order, which is the order of the instants. *)
Lemma pass_delivers_in_created_at_order_witness :
  let w := create_then_update in
  let q := sync_queue (db w) in
  faults demo_env (ops w) = None /\
  0 <= SyncBatchSize demo_cfg /\
  (forall row, In row q ->
     scan_errors demo_env (SyncQueueItem.ID row) = None) /\
  chronological demo_env (map SyncQueueItem.CreatedAt q) /\
  StronglySorted (created_le demo_env) q /\
  handed_over w (snd (ProcessSyncQueue demo_env demo_cfg w)) =
    deliverable demo_env (select_pending demo_env demo_cfg q) /\
  StronglySorted
    (fun a b => SyncQueueItem.CreatedAt a <= SyncQueueItem.CreatedAt b)
    (order_by_created_at demo_env (filter (eligible demo_cfg) q)) /\
  select_pending demo_env demo_cfg q =
    firstn (Z.to_nat (SyncBatchSize demo_cfg)) (filter (eligible demo_cfg) q).
Proof.
  cbv zeta.
  assert (Hsize : 0 <= SyncBatchSize demo_cfg) by (simpl; lia).
  assert (Hscan : forall row, In row (sync_queue (db create_then_update)) ->
            scan_errors demo_env (SyncQueueItem.ID row) = None)
    by (intros row _; reflexivity).
  assert (Hch : chronological demo_env
                  (map SyncQueueItem.CreatedAt
                     (sync_queue (db create_then_update))))
    by (apply chronological_check; vm_compute; reflexivity).
  assert (Hsorted : StronglySorted (created_le demo_env)
                      (sync_queue (db create_then_update))).
  { simpl. repeat constructor. }
  split; [ reflexivity | ]. split; [ exact Hsize | ].
  split; [ exact Hscan | ]. split; [ exact Hch | ].
  split; [ exact Hsorted | ].
  destruct (pass_delivers_in_created_at_order demo_env demo_cfg
              create_then_update eq_refl Hsize Hscan)
    as [_ [_ [_ [Hinst [_ [_ [Hdel Hins]]]]]]].
  split; [ exact Hdel | ]. split; [ exact (Hinst Hch) | exact (Hins Hsorted) ].
Defined.

(** [ResolveConflicts] on [update_delete_tie], then a pass: the update
    and the delete of T1 are both handed to the remote authority. *)
Lemma ResolveConflicts_selects_nothing_witness :
  let u := demo_item 1 "T1" OperationTypeUpdate "T1" 0 100 in
  let d := demo_item 2 "T1" OperationTypeDelete "T1" 0 100 in
  let w := update_delete_tie in
  let w' := snd (ResolveConflicts w) in
  faults demo_env (ops w') = None /\
  In u (select_pending demo_env demo_cfg (sync_queue (db w))) /\
  In d (select_pending demo_env demo_cfg (sync_queue (db w))) /\
  In (OperationTypeUpdate, demo_task "T1")
     (handed_over w' (snd (ProcessSyncQueue demo_env demo_cfg w'))) /\
  In (OperationTypeDelete, demo_task "T1")
     (handed_over w' (snd (ProcessSyncQueue demo_env demo_cfg w'))).
Proof.
  cbv zeta.
  assert (Hu : In (demo_item 1 "T1" OperationTypeUpdate "T1" 0 100)
                 (select_pending demo_env demo_cfg
                    (sync_queue (db update_delete_tie))))
    by (vm_compute; left; reflexivity).
  assert (Hd : In (demo_item 2 "T1" OperationTypeDelete "T1" 0 100)
                 (select_pending demo_env demo_cfg
                    (sync_queue (db update_delete_tie))))
    by (vm_compute; right; left; reflexivity).
  destruct (ResolveConflicts_selects_nothing demo_env demo_cfg
              update_delete_tie) as [_ [_ [_ [_ [_ Hpass]]]]].
  split; [ reflexivity | ]. split; [ exact Hu | ]. split; [ exact Hd | ].
  split.
  - exact (Hpass eq_refl _ (demo_task "T1") Hu eq_refl eq_refl).
  - exact (Hpass eq_refl _ (demo_task "T1") Hd eq_refl eq_refl).
Defined.

(** [markAsSynced] on the entry of [single_create], no call failing: nil,
    the task is synced and the queue is empty. *)
Lemma markAsSynced_atomic_witness :
  let item := demo_item 1 "T1" OperationTypeCreate "T1" 0 100 in
  let w := single_create in
  let r := markAsSynced demo_env item (demo_task "T1") w in
  faults demo_env (ops w) = None /\
  faults demo_env (S (ops w)) = None /\
  faults demo_env (S (S (ops w))) = None /\
  faults demo_env (S (S (S (ops w)))) = None /\
  fst r = None /\
  sync_queue (db (snd r)) = [] /\
  map Task.Status (tasks (db (snd r))) = [SyncStatusSynced] /\
  map Task.LastSyncedAt (tasks (db (snd r))) = [Some 1].
Proof.
  cbv zeta.
  pose proof (markAsSynced_atomic demo_env
                (demo_item 1 "T1" OperationTypeCreate "T1" 0 100)
                (demo_task "T1") single_create) as H.
  cbv zeta in H. destruct H as [Hnil Hstore].
  assert (Hr : fst (markAsSynced demo_env
                      (demo_item 1 "T1" OperationTypeCreate "T1" 0 100)
                      (demo_task "T1") single_create) = None)
    by (apply Hnil; repeat split).
  rewrite Hr in Hstore. destruct Hstore as [Ht [Hq _]].
  split; [ reflexivity | ]. split; [ reflexivity | ].
  split; [ reflexivity | ]. split; [ reflexivity | ].
  split; [ exact Hr | ]. rewrite Hq, Ht. repeat split.
Defined.


(** The third failure of an entry under [MaxRetries = 3]. *)
Lemma handleSyncError_bookkeeping_witness :
  let item := demo_item 1 "T1" OperationTypeCreate "T1" 2 100 in
  let w := world_of (mkDB [demo_task "T1"] [item] 1) in
  let w' := snd (handleSyncError offline_env demo_cfg item
                   (Some "simulated network error") w) in
  min_int <= SyncQueueItem.RetryCount item < max_int /\
  faults offline_env (ops w) = None /\
  faults offline_env (S (ops w)) = None /\
  fst (handleSyncError offline_env demo_cfg item
         (Some "simulated network error") w) = None /\
  List.length (sync_queue (db w')) = List.length (sync_queue (db w)).
Proof.
  cbv zeta.
  assert (Hrange : min_int <= 2 < max_int)
    by (unfold min_int, max_int; simpl; lia).
  split; [ exact Hrange | ]. split; [ reflexivity | ].
  split; [ reflexivity | ].
  destruct (handleSyncError_bookkeeping offline_env demo_cfg
              (demo_item 1 "T1" OperationTypeCreate "T1" 2 100)
              (Some "simulated network error")
              (world_of
                 (mkDB [demo_task "T1"]
                    [demo_item 1 "T1" OperationTypeCreate "T1" 2 100] 1))
              Hrange eq_refl eq_refl)
    as [Hr [_ [_ [Hlen _]]]].
  split; [ exact Hr | exact Hlen ].
Defined.


(** Passes over [create_then_update] with [MaxRetries = 0]. *)
Lemma zero_max_retries_stalls_witness :
  let never := {| SyncBatchSize := 10; MaxRetries := 0 |} in
  let w := create_then_update in
  MaxRetries never = 0 /\
  (forall it, In it (sync_queue (db w)) -> 0 <= SyncQueueItem.RetryCount it) /\
  db (sync_passes demo_env never 5 w) = db w.
Proof.
  cbv zeta.
  assert (Hnonneg : forall it, In it (sync_queue (db create_then_update)) ->
            0 <= SyncQueueItem.RetryCount it).
  { intros it [H|[H|[]]]; subst it; simpl; lia. }
  split; [ reflexivity | ]. split; [ exact Hnonneg | ].
  destruct (zero_max_retries_stalls demo_env
              {| SyncBatchSize := 10; MaxRetries := 0 |} 5 create_then_update
              eq_refl Hnonneg)
    as [_ [Hdb _]].
  exact Hdb.
Defined.

(** A pass over [broken_snapshot]: the entry fails, the pass does not. *)
Lemma item_errors_are_contained_witness :
  let w := broken_snapshot in
  faults demo_env (ops w) = None /\
  fst (ProcessSyncQueue demo_env demo_cfg w) = None /\
  resp_code (fst (TriggerSync demo_env demo_cfg w)) = StatusOK.
Proof.
  cbv zeta. split; [ reflexivity | ].
  destruct (item_errors_are_contained demo_env demo_cfg broken_snapshot)
    as [Hr [Hok _]].
  split; [ now apply Hr | now apply Hok ].
Defined.

(** ** The further theorems at concrete stores *)

Lemma rem_of_multiple_of_ten : forall k, Z.rem (10 + 10 * Z.of_nat k) 10 = 0.
Proof.
  intros k. replace (10 + 10 * Z.of_nat k) with ((1 + Z.of_nat k) * 10) by lia.
  apply Z.rem_mul. lia.
Qed.

Lemma rem_of_one_more : forall k, Z.rem (1 + 10 * Z.of_nat k) 10 <> 0.
Proof.
  intros k. replace (1 + 10 * Z.of_nat k) with (1 + Z.of_nat k * 10) by lia.
  rewrite Z.rem_add; [ vm_compute; discriminate | lia | lia ].
Qed.

(** Task B is created beside T1 and read back. *)
Lemma CreateTask_then_GetTaskByID_witness :
  match CreateTask demo_env create_request single_create with
  | (Ok task, w') =>
      faults demo_env (ops w') = None /\
      fst (GetTaskByID demo_env (Task.ID task) w') = Ok task
  | (Err _, _) => False
  end.
Proof.
  destruct (CreateTask demo_env create_request single_create)
    as [[task|e] w'] eqn:Hc; [ | vm_compute in Hc; discriminate ].
  split; [ reflexivity | ].
  apply (CreateTask_then_GetTaskByID demo_env create_request single_create
           task w' Hc eq_refl).
Defined.

(** T1 is renamed and read back. *)
Lemma UpdateTask_then_GetTaskByID_witness :
  match UpdateTask demo_env "T1" rename_request single_create with
  | (Ok task, w') =>
      faults demo_env (ops w') = None /\
      fst (GetTaskByID demo_env "T1" w') = Ok task
  | (Err _, _) => False
  end.
Proof.
  destruct (UpdateTask demo_env "T1" rename_request single_create)
    as [[task|e] w'] eqn:Hu; [ | vm_compute in Hu; discriminate ].
  split; [ reflexivity | ].
  apply (UpdateTask_then_GetTaskByID demo_env "T1" rename_request
           single_create task w' Hu eq_refl).
Defined.

(** T1 is deleted; it cannot be read any more. *)
Lemma DeleteTask_then_not_found_witness :
  match DeleteTask demo_env "T1" single_create with
  | (None, w') =>
      faults demo_env (ops w') = None /\
      fst (GetTaskByID demo_env "T1" w') = Err "task not found"
  | (Some _, _) => False
  end.
Proof.
  destruct (DeleteTask demo_env "T1" single_create) as [[e|] w'] eqn:Hd;
    [ vm_compute in Hd; discriminate | ].
  split; [ reflexivity | ].
  destruct (DeleteTask_then_not_found demo_env "T1" single_create w' Hd)
    as [_ [_ [Hget _]]].
  apply Hget. reflexivity.
Defined.

(** No task T9 in [single_create]. *)
Lemma mutation_of_missing_task_witness :
  (forall t, In t (tasks (db single_create)) -> Task.ID t = "T9" ->
     Task.IsDeleted t = true) /\
  faults demo_env (ops single_create) = None /\
  faults demo_env (S (ops single_create)) = None /\
  fst (DeleteTask demo_env "T9" single_create) = Some "task not found".
Proof.
  assert (Hmiss : forall t, In t (tasks (db single_create)) ->
            Task.ID t = "T9" -> Task.IsDeleted t = true).
  { intros t [Ht|[]] Hid. subst t. discriminate. }
  split; [ exact Hmiss | ]. split; [ reflexivity | ].
  split; [ reflexivity | ].
  destruct (mutation_of_missing_task demo_env "T9" single_create Hmiss
              eq_refl eq_refl) as [Hd _].
  now rewrite Hd.
Defined.

(** Two entries pending, a limit of 10: the next batch has two entries. *)
Lemma pending_count_is_next_batch_witness :
  match fst (GetSyncStatus demo_env demo_cfg create_then_update) with
  | Ok st =>
      0 <= SyncBatchSize demo_cfg /\
      Z.of_nat (List.length
                  (select_pending demo_env demo_cfg
                     (sync_queue (db create_then_update)))) =
        Z.min (SyncBatchSize demo_cfg) (services.PendingCount st)
  | Err _ => False
  end.
Proof.
  destruct (fst (GetSyncStatus demo_env demo_cfg create_then_update))
    as [st|e] eqn:Hst; [ | vm_compute in Hst; discriminate ].
  assert (Hb : 0 <= SyncBatchSize demo_cfg) by (simpl; lia).
  split; [ exact Hb | ].
  destruct (pending_count_is_next_batch demo_env demo_cfg create_then_update
              st Hst) as [_ [_ [Hmin _]]].
  now apply Hmin.
Defined.

(** The exhausted entry of T1 is not selected and not touched. *)
Lemma pass_touches_only_selected_rows_witness :
  let e := demo_item 1 "T1" OperationTypeCreate "T1" 3 100 in
  NoDup (row_ids (sync_queue (db one_exhausted))) /\
  In e (sync_queue (db one_exhausted)) /\
  ~ In e (select_pending demo_env demo_cfg (sync_queue (db one_exhausted))) /\
  In e (sync_queue (db (snd (ProcessSyncQueue demo_env demo_cfg
                                one_exhausted)))).
Proof.
  cbv zeta.
  assert (Hnd : NoDup (row_ids (sync_queue (db one_exhausted)))).
  { simpl. constructor; [ intros [H|[]]; discriminate | ].
    constructor; [ intros [] | constructor ]. }
  assert (Hin : In (demo_item 1 "T1" OperationTypeCreate "T1" 3 100)
                  (sync_queue (db one_exhausted))) by (left; reflexivity).
  assert (Hnot : ~ In (demo_item 1 "T1" OperationTypeCreate "T1" 3 100)
                     (select_pending demo_env demo_cfg
                        (sync_queue (db one_exhausted)))).
  { vm_compute. intros [H|[]]. discriminate. }
  split; [ exact Hnd | ]. split; [ exact Hin | ]. split; [ exact Hnot | ].
  apply (pass_touches_only_selected_rows demo_env demo_cfg one_exhausted _
           Hnd Hin Hnot).
Defined.

Lemma exhausted_entry_is_retained_witness :
  let e := demo_item 1 "T1" OperationTypeCreate "T1" 3 100 in
  NoDup (row_ids (sync_queue (db one_exhausted))) /\
  In e (sync_queue (db one_exhausted)) /\
  MaxRetries demo_cfg <= SyncQueueItem.RetryCount e /\
  In e (sync_queue (db (sync_passes demo_env demo_cfg 4 one_exhausted))).
Proof.
  cbv zeta.
  assert (Hnd : NoDup (row_ids (sync_queue (db one_exhausted)))).
  { simpl. constructor; [ intros [H|[]]; discriminate | ].
    constructor; [ intros [] | constructor ]. }
  assert (Hin : In (demo_item 1 "T1" OperationTypeCreate "T1" 3 100)
                  (sync_queue (db one_exhausted))) by (left; reflexivity).
  assert (Hmax : MaxRetries demo_cfg <=
                 SyncQueueItem.RetryCount
                   (demo_item 1 "T1" OperationTypeCreate "T1" 3 100))
    by (simpl; lia).
  split; [ exact Hnd | ]. split; [ exact Hin | ]. split; [ exact Hmax | ].
  apply (exhausted_entry_is_retained demo_env demo_cfg 4 one_exhausted _
           Hnd Hin Hmax).
Defined.

(** A create and an update with no pass in between: two more entries. *)
Lemma committed_mutations_are_queued_witness :
  let rs := [ReqCreateTask create_request; ReqUpdateTask "T2" rename_request] in
  (forall r, In r rs -> r <> ReqTriggerSync) /\
  List.length
    (sync_queue (db (snd (serve_all demo_env demo_cfg rs single_create)))) =
    (List.length (sync_queue (db single_create)) +
     fst (serve_all demo_env demo_cfg rs single_create))%nat.
Proof.
  cbv zeta.
  assert (Hno : forall r,
            In r [ReqCreateTask create_request;
                  ReqUpdateTask "T2" rename_request] ->
            r <> ReqTriggerSync).
  { intros r [H|[H|[]]]; subst r; discriminate. }
  split; [ exact Hno | ].
  apply (committed_mutations_are_queued demo_env demo_cfg _ single_create).
  exact Hno.
Defined.

(** A session from the empty store: create, update, pass, delete. *)
Lemma store_ok_in_every_session_witness :
  let rs := [ReqCreateTask create_request; ReqUpdateTask "T2" rename_request;
             ReqTriggerSync; ReqDeleteTask "T2"] in
  0 <= MaxRetries demo_cfg <= max_int /\
  store_ok demo_cfg (db (world_of empty_db)) /\
  store_ok demo_cfg
    (db (snd (serve_all demo_env demo_cfg rs (world_of empty_db)))).
Proof.
  cbv zeta.
  assert (Hmax : 0 <= MaxRetries demo_cfg <= max_int)
    by (unfold max_int; simpl; lia).
  pose proof (store_ok_in_every_session demo_env demo_cfg
                [ReqCreateTask create_request;
                 ReqUpdateTask "T2" rename_request;
                 ReqTriggerSync; ReqDeleteTask "T2"]
                (world_of empty_db) Hmax) as [Hempty Hsession].
  split; [ exact Hmax | ]. split; [ exact Hempty | ].
  apply (Hsession Hempty).
Defined.

(** An accepted pass over [create_then_update] leaves nothing pending. *)
Lemma accepted_pass_delivers_the_batch_witness :
  (forall k, faults accepting_env k = None) /\
  (forall k, Z.rem (clock accepting_env k) 10 <> 0) /\
  fst (ProcessSyncQueue accepting_env demo_cfg create_then_update) = None /\
  sync_queue
    (db (snd (ProcessSyncQueue accepting_env demo_cfg create_then_update))) =
    [].
Proof.
  assert (Hf : forall k, faults accepting_env k = None)
    by (intros k; reflexivity).
  assert (Hacc : forall k, Z.rem (clock accepting_env k) 10 <> 0)
    by (intros k; apply rem_of_one_more).
  split; [ exact Hf | ]. split; [ exact Hacc | ].
  destruct (accepted_pass_delivers_the_batch accepting_env demo_cfg
              create_then_update Hf Hacc) as [Hr [Hq _]].
  split; [ exact Hr | ]. rewrite Hq. reflexivity.
Defined.

(** A rejected pass over [single_create] counts one failure. *)
Lemma rejected_pass_counts_one_failure_witness :
  (forall k, faults offline_env k = None) /\
  (forall k, Z.rem (clock offline_env k) 10 = 0) /\
  MaxRetries demo_cfg <= max_int /\
  NoDup (row_ids (sync_queue (db single_create))) /\
  (forall row, In row (sync_queue (db single_create)) ->
     0 <= SyncQueueItem.RetryCount row) /\
  List.length
    (sync_queue
       (db (snd (ProcessSyncQueue offline_env demo_cfg single_create)))) =
    List.length (sync_queue (db single_create)).
Proof.
  assert (Hf : forall k, faults offline_env k = None)
    by (intros k; reflexivity).
  assert (Hrej : forall k, Z.rem (clock offline_env k) 10 = 0)
    by (intros k; apply rem_of_multiple_of_ten).
  assert (Hmax : MaxRetries demo_cfg <= max_int)
    by (unfold max_int; simpl; lia).
  assert (Hnd : NoDup (row_ids (sync_queue (db single_create)))).
  { simpl. constructor; [ intros [] | constructor ]. }
  assert (Hnonneg : forall row, In row (sync_queue (db single_create)) ->
            0 <= SyncQueueItem.RetryCount row).
  { intros row [H|[]]. subst row. simpl. lia. }
  split; [ exact Hf | ]. split; [ exact Hrej | ]. split; [ exact Hmax | ].
  split; [ exact Hnd | ]. split; [ exact Hnonneg | ].
  destruct (rejected_pass_counts_one_failure offline_env demo_cfg
              single_create Hf Hrej Hmax Hnd Hnonneg) as [_ [_ [Hlen _]]].
  exact Hlen.
Defined.

(** Five rejected passes over [single_create] with [MaxRetries = 3]: the
    entry stops at 3. *)
Lemma retries_stop_at_MaxRetries_witness :
  let e := demo_item 1 "T1" OperationTypeCreate "T1" 0 100 in
  (forall k, faults offline_env k = None) /\
  (forall k, Z.rem (clock offline_env k) 10 = 0) /\
  MaxRetries unlimited_cfg <= max_int /\
  SyncBatchSize unlimited_cfg < 0 /\
  queue_ok (sync_queue (db single_create)) /\
  In e (sync_queue (db single_create)) /\
  decodes offline_env e = true /\
  scans offline_env e = true /\
  exists e',
    In e' (sync_queue
             (db (sync_passes offline_env unlimited_cfg 5 single_create))) /\
    SyncQueueItem.RetryCount e' = 3.
Proof.
  cbv zeta.
  assert (Hf : forall k, faults offline_env k = None)
    by (intros k; reflexivity).
  assert (Hrej : forall k, Z.rem (clock offline_env k) 10 = 0)
    by (intros k; apply rem_of_multiple_of_ten).
  assert (Hmax : MaxRetries unlimited_cfg <= max_int)
    by (unfold max_int; simpl; lia).
  assert (Hb : SyncBatchSize unlimited_cfg < 0) by (simpl; lia).
  assert (Hok : queue_ok (sync_queue (db single_create))).
  { split.
    - simpl. constructor; [ intros [] | constructor ].
    - intros row [H|[]]. subst row. simpl. lia. }
  assert (Hin : In (demo_item 1 "T1" OperationTypeCreate "T1" 0 100)
                  (sync_queue (db single_create))) by (left; reflexivity).
  split; [ exact Hf | ]. split; [ exact Hrej | ]. split; [ exact Hmax | ].
  split; [ exact Hb | ]. split; [ exact Hok | ]. split; [ exact Hin | ].
  split; [ reflexivity | ]. split; [ reflexivity | ].
  destruct (retries_stop_at_MaxRetries offline_env unlimited_cfg 5
              single_create _ Hf Hrej Hmax Hb Hok Hin eq_refl eq_refl)
    as [e' [Hin' [_ [Hrc _]]]].
  exists e'. split; [ exact Hin' | ]. rewrite Hrc. reflexivity.
Defined.

(** The third failure of the entry of T1, the UPDATE of the task failing
    (second database call). *)
Lemma handleSyncError_when_a_write_fails_witness :
  let item := demo_item 1 "T1" OperationTypeCreate "T1" 2 100 in
  let w := world_of (mkDB [demo_task "T1"] [item] 1) in
  let env := faulty_env 10 10 [1%nat] in
  faults env (ops w) = None /\
  faults env (S (ops w)) = Some "disk I/O error" /\
  min_int <= SyncQueueItem.RetryCount item < max_int /\
  MaxRetries demo_cfg <= SyncQueueItem.RetryCount item + 1 /\
  fst (handleSyncError env demo_cfg item (Some "simulated network error") w)
    = None /\
  tasks (db (snd (handleSyncError env demo_cfg item
                    (Some "simulated network error") w))) = tasks (db w).
Proof.
  cbv zeta.
  assert (Hrange : min_int <= 2 < max_int)
    by (unfold min_int, max_int; simpl; lia).
  assert (Hmax : MaxRetries demo_cfg <= 2 + 1) by (simpl; lia).
  split; [ reflexivity | ]. split; [ reflexivity | ].
  split; [ exact Hrange | ]. split; [ exact Hmax | ].
  destruct (proj2 (handleSyncError_when_a_write_fails
                     (faulty_env 10 10 [1%nat]) demo_cfg
                     (demo_item 1 "T1" OperationTypeCreate "T1" 2 100)
                     (Some "simulated network error")
                     (world_of
                        (mkDB [demo_task "T1"]
                           [demo_item 1 "T1" OperationTypeCreate "T1" 2 100]
                           1)))
              "disk I/O error" eq_refl eq_refl Hrange Hmax)
    as [Hr [Ht _]].
  split; [ exact Hr | exact Ht ].
Defined.

(** [GetAllTasks] on [one_deleted], in a process whose zone is UTC: the
    order of the texts is the order of the instants, T2 (updated at 9) is
    listed before T3 (updated at 7). *)
Lemma GetAllTasks_lists_live_tasks_witness :
  match fst (GetAllTasks demo_env (fun _ => None) one_deleted) with
  | Ok ts =>
      chronological demo_env (map Task.UpdatedAt ts) /\
      chronological demo_env (map Task.CreatedAt ts) /\
      map Task.ID ts = ["T2"; "T3"] /\
      StronglySorted
        (fun a b =>
           Task.UpdatedAt b < Task.UpdatedAt a \/
           (Task.UpdatedAt a = Task.UpdatedAt b /\
            Task.CreatedAt b <= Task.CreatedAt a)) ts
  | Err _ => False
  end.
Proof.
  destruct (GetAllTasks_lists_live_tasks demo_env (fun _ => None) one_deleted)
    as [_ H].
  destruct (fst (GetAllTasks demo_env (fun _ => None) one_deleted))
    as [ts|e] eqn:Hr; [ | vm_compute in Hr; discriminate ].
  vm_compute in Hr. injection Hr as <-.
  destruct H as [_ [_ [_ Hsorted]]].
  assert (Hu : chronological demo_env [9; 7])
    by (apply chronological_check; vm_compute; reflexivity).
  assert (Hc : chronological demo_env [1; 2])
    by (apply chronological_check; vm_compute; reflexivity).
  split; [ exact Hu | ]. split; [ exact Hc | ].
  split; [ reflexivity | exact (Hsorted Hu Hc) ].
Defined.

(** [GetSyncQueueContents] on [create_then_update], in a process whose
    zone is UTC: both rows, the older first. *)
Lemma GetSyncQueueContents_lists_every_row_witness :
  match fst (GetSyncQueueContents demo_env create_then_update) with
  | Ok items =>
      chronological demo_env (map SyncQueueItem.CreatedAt items) /\
      row_ids items = [1; 2] /\
      StronglySorted
        (fun a b => SyncQueueItem.CreatedAt a <= SyncQueueItem.CreatedAt b)
        items
  | Err _ => False
  end.
Proof.
  destruct (GetSyncQueueContents_lists_every_row demo_env create_then_update)
    as [_ [_ H]].
  destruct (fst (GetSyncQueueContents demo_env create_then_update))
    as [items|e] eqn:Hr; [ | vm_compute in Hr; discriminate ].
  vm_compute in Hr. injection Hr as <-.
  destruct H as [_ [_ [_ [Hsorted _]]]].
  assert (Hch : chronological demo_env [100; 200])
    by (apply chronological_check; vm_compute; reflexivity).
  split; [ exact Hch | ]. split; [ reflexivity | exact (Hsorted Hch) ].
Defined.

(** [GetAllTasks] on [one_deleted]: T2 (updated at 9) before T3 (updated at
    7), T1 left out. *)
Example live_tasks_latest_first :
  fst (GetAllTasks demo_env (fun _ => None) one_deleted) =
    Ok [Task.mk "T2" "B" None false false SyncStatusPending None None 1 9;
        Task.mk "T3" "C" None false false SyncStatusPending None None 2 7].
Proof. vm_compute. reflexivity. Qed.
